(** * GitHubUploader: a shallow embedding of [github_uploader_simplified.py]

    The module uploads a chat attachment to a GitHub repository.  This file
    embeds its helpers and its two command handlers and proves the properties
    the specification states about them.

    Conventions of the embedding:
    - a Python [str] is the list of its Unicode code points;
    - [time.time()] reads the clock of the world, a rational number of
      seconds (floating-point rounding is outside the model);
    - the coroutines run in a state-and-exception monad over a [World]
      that holds the module's attributes together with the environment
      (the remote API, the request log and the messages sent to the chat);
    - the [while True] loop of the collision resolver takes fuel;
    - the environment comes twice: as a remote that keeps to the API and a
      chat that delivers every answer ([Outcome], [utils_answer]), and in
      general ([Attempt], [Telegram]), where a call may raise any exception
      and a decoded body may be any JSON value; the handlers over the
      general environment, taken on the first, are the handlers over it
      ([ghsetcmd_any_net_of], [ghuploadcmd_any_net_of]). *)

From Stdlib Require Import ZArith NArith QArith Qround Lia Lqa.
From Stdlib Require Import Ascii String DecimalZ DecimalPos DecimalFacts.
From stdpp Require Import base option list gmap.

Local Open Scope Z_scope.
Set Warnings "-register-all".

(** ** Strings *)

(** A Python [str]: the sequence of its code points. *)
Abbreviation char := N (only parsing).
Abbreviation str := (list N) (only parsing).

(** An ASCII literal as a [str]. *)
Fixpoint u (s : string) : str :=
  match s with
  | EmptyString => []
  | String a s' => N_of_ascii a :: u s'
  end.

Definition SPACE : char := 32%N.
Definition STAR : char := 42%N.
Definition UNDERSCORE : char := 95%N.
Definition DQUOTE : char := 34%N.
Definition BACKSLASH : char := 92%N.
Definition MINUS : char := 45%N.

(** [str.isspace] on one code point, the table of CPython's
    [_PyUnicode_IsWhitespace]; [str.strip()] removes exactly these. *)
Definition is_space (c : char) : bool :=
  ((9 <=? c) && (c <=? 13))%N
  || ((28 <=? c) && (c <=? 32))%N
  || (c =? 133)%N || (c =? 160)%N || (c =? 5760)%N
  || ((8192 <=? c) && (c <=? 8202))%N
  || (c =? 8232)%N || (c =? 8233)%N || (c =? 8239)%N
  || (c =? 8287)%N || (c =? 12288)%N.

Definition is_digit (c : char) : bool := ((48 <=? c) && (c <=? 57))%N.

(** [s.lstrip()], [s.rstrip()] and [s.strip()] without argument. *)
Fixpoint lstrip (s : str) : str :=
  match s with
  | [] => []
  | c :: s' => if is_space c then lstrip s' else s
  end.

Definition rstrip (s : str) : str := rev (lstrip (rev s)).

Definition strip (s : str) : str := rstrip (lstrip s).

(** Truth value of a [str]: [not s] holds of the empty string only. *)
Definition py_not (s : str) : bool :=
  match s with [] => true | _ => false end.

(** [s.replace(old, new)] where [old] and [new] are one-character strings,
    as at every call site of the module. *)
Definition replace1 (old new : char) (s : str) : str :=
  map (fun c => if (c =? old)%N then new else c) s.

(** [str(n)] for a Python [int]: decimal digits, with a sign when negative. *)
Fixpoint str_of_uint (d : Decimal.uint) : str :=
  match d with
  | Decimal.Nil => []
  | Decimal.D0 d => 48%N :: str_of_uint d
  | Decimal.D1 d => 49%N :: str_of_uint d
  | Decimal.D2 d => 50%N :: str_of_uint d
  | Decimal.D3 d => 51%N :: str_of_uint d
  | Decimal.D4 d => 52%N :: str_of_uint d
  | Decimal.D5 d => 53%N :: str_of_uint d
  | Decimal.D6 d => 54%N :: str_of_uint d
  | Decimal.D7 d => 55%N :: str_of_uint d
  | Decimal.D8 d => 56%N :: str_of_uint d
  | Decimal.D9 d => 57%N :: str_of_uint d
  end.

Definition str_of_int (z : Z) : str :=
  match Z.to_int z with
  | Decimal.Pos d => str_of_uint d
  | Decimal.Neg d => MINUS :: str_of_uint d
  end.

(** ** The filename sanitizer *)

(** The literal [invalid_chars] of the source: less-than, greater-than,
    colon, double quote, bar, question mark, asterisk, backslash.  The double
    quote and the backslash are given by their code points. *)
Definition invalid_chars : str :=
  u "<>:" ++ [DQUOTE] ++ u "|?*" ++ [BACKSLASH].

(** [_sanitize_filename]; [now] is the value [int(time.time())] has when the
    fallback name is built. *)
Definition _sanitize_filename (now : Z) (filename : str) : str :=
  let filename := replace1 SPACE STAR filename in
  let filename :=
    fold_left
      (fun filename c =>
         if negb (c =? STAR)%N then replace1 c UNDERSCORE filename
         else filename)
      invalid_chars filename in
  let filename :=
    if py_not (strip filename) then u "file_" ++ str_of_int now
    else filename in
  strip filename.

(** The sanitizer as the specification words it, step by step. *)
Module SanitizeSpec.

(** Step 1: every space becomes an asterisk. *)
Definition replace_spaces (s : str) : str :=
  map (fun c => if (c =? SPACE)%N then STAR else c) s.

(** The seven characters of step 2: less-than, greater-than, colon,
    double quote, bar, question mark, backslash. *)
Definition forbidden : list char :=
  [60; 62; 58; 34; 124; 63; 92]%N.

(** Step 2: each of the seven characters becomes an underscore. *)
Definition replace_forbidden (s : str) : str :=
  map (fun c => if bool_decide (c ∈ forbidden) then UNDERSCORE else c) s.

(** Empty or all-whitespace. *)
Definition blank (s : str) : bool :=
  match s with
  | [] => true
  | _ => forallb is_space s
  end.

Definition generated (now : Z) : str := u "file_" ++ str_of_int now.

(** Step 3: a blank result is replaced by a generated name. *)
Definition substitute (now : Z) (s : str) : str :=
  if blank s then generated now else s.

(** Step 4: leading and trailing whitespace is removed. *)
Definition trim (s : str) : str := strip s.

Definition sanitize (now : Z) (name : str) : str :=
  trim (substitute now (replace_forbidden (replace_spaces name))).

End SanitizeSpec.

(** A generated name: [file_] followed by one or more decimal digits. *)
Definition is_generated_name (s : str) : bool :=
  match s with
  | 102%N :: 105%N :: 108%N :: 101%N :: 95%N :: d :: ds =>
      forallb is_digit (d :: ds)
  | _ => false
  end.

(** ** Library functions the module calls *)

(** [s.rfind(c)] for a one-character [c]: the highest index, or [-1]. *)
Fixpoint rfind_from (c : char) (s : str) (i last : Z) : Z :=
  match s with
  | [] => last
  | x :: s' => rfind_from c s' (i + 1) (if (x =? c)%N then i else last)
  end.

Definition rfind (c : char) (s : str) : Z := rfind_from c s 0 (-1).

(** The slice [s[i:j]] for indices that are not negative. *)
Definition slice (s : str) (i j : Z) : str :=
  take (Z.to_nat (j - i)) (drop (Z.to_nat i) s).

Definition DOT : char := 46%N.
Definition SLASH : char := 47%N.

(** The loop of [genericpath._splitext] that skips leading dots: [true] when
    a character other than the dot stands in [p[filenameIndex:dotIndex]]. *)
Fixpoint splitext_scan (n : nat) (p : str) (filenameIndex dotIndex : Z)
  : bool :=
  match n with
  | O => false
  | S n' =>
      if filenameIndex <? dotIndex then
        if bool_decide (slice p filenameIndex (filenameIndex + 1) ≠ [DOT])
        then true
        else splitext_scan n' p (filenameIndex + 1) dotIndex
      else false
  end.

(** [os.path.splitext] of [posixpath]: CPython's [genericpath._splitext]
    with separator [/], no alternative separator and extension separator
    [.]. *)
Definition splitext (p : str) : str * str :=
  let sepIndex := rfind SLASH p in
  let dotIndex := rfind DOT p in
  if (sepIndex <? dotIndex)
     && splitext_scan (length p) p (sepIndex + 1) dotIndex
  then (take (Z.to_nat dotIndex) p, drop (Z.to_nat dotIndex) p)
  else (p, []).

(** [needle in haystack] on strings. *)
Fixpoint starts_with (needle s : str) : bool :=
  match needle, s with
  | [], _ => true
  | _ :: _, [] => false
  | a :: needle', b :: s' => (a =? b)%N && starts_with needle' s'
  end.

Fixpoint contains (needle s : str) : bool :=
  starts_with needle s
  || match s with
     | [] => false
     | _ :: s' => contains needle s'
     end.

(** [int(x)] of a number of seconds: truncation towards zero. *)
Definition py_int (x : Q) : Z :=
  if Qle_bool 0 x then Qfloor x else Qceiling x.

(** [x < y] on numbers of seconds. *)
Definition Qlt_bool (x y : Q) : bool := negb (Qle_bool y x).

(** ** Values, requests and the world *)

(** A decoded JSON value; a [dict] keeps its items in order and is read
    with [dict_get]. *)
Inductive Json : Type :=
| JNull
| JBool (b : bool)
| JInt (n : Z)
| JStr (s : str)
| JList (l : list Json)
| JDict (kv : list (str * Json)).

Abbreviation dict := (list (list N * Json)) (only parsing).

(** [d.get(key)]: [None] when the key is absent. *)
Fixpoint dict_get (key : str) (d : dict) : option Json :=
  match d with
  | [] => None
  | (k, v) :: d' => if bool_decide (k = key) then Some v else dict_get key d'
  end.

(** A request handed to [self._session.request]. *)
Record Request : Type := mkRequest {
  req_method : str;
  req_url : str;
  req_headers : list (str * str);
  req_json : option dict
}.

(** What one attempt yields when the remote keeps to the API: an
    [aiohttp.ClientError] raised inside the [async with] block, or a
    response with its status and a JSON object as its decoded body, the
    [dict] that [_make_github_request] declares.  [Attempt] below is the
    general case, with any exception and any JSON value. *)
Inductive Outcome : Type :=
| ClientError (cause : str)
| Response (status : Z) (result : dict).

(** The exceptions of the module: [Exception(arg)] raised by the code
    itself, a caught [aiohttp.ClientError], the [KeyError] of a subscript,
    the [AttributeError] of a method call on a value that lacks the method,
    a [TimeoutError], which is no [aiohttp.ClientError], and the
    [TypeError] of a subscript on a value that has no string keys.  All of
    them are instances of [Exception]. *)
Inductive Exc : Type :=
| Exception (arg : Json)
| AiohttpClientError (cause : str)
| KeyError (key : str)
| AttributeError (text : str)
| TimeoutError (text : str)
| TypeError (text : str).

(** The entries of the [strings] table as they are sent with
    [utils.answer], with the arguments of [format]. *)
Inductive Answer : Type :=
| no_token (prefix : str)
| token_set
| invalid_token
| no_file
| uploading
| upload_success (filename url : str)
| upload_error (error : str)
| file_too_large
| invalid_filename
| rate_limit.

(** The attachment of the replied-to message. *)
Record File : Type := mkFile {
  file_name : option str;
  file_size : Z;
  file_media : list N
}.

Record Reply : Type := mkReply {
  reply_file : option File
}.

(** The command message: sender, raw arguments and what
    [get_reply_message] returns. *)
Record Message : Type := mkMessage {
  sender_id : Z;
  args_raw : str;
  reply_message : option Reply
}.

(** The attributes of the module and its environment.  [remote] answers a
    request given the requests made before it; [requests] logs every call of
    [self._session.request], oldest first; [answers] logs every
    [utils.answer]. *)
Record World : Type := mkWorld {
  github_token : str;
  _last_upload : gmap Z Q;
  me_id : Z;
  cmd_prefix : str;
  clock : Q;
  remote : list Request -> Request -> Outcome;
  requests : list Request;
  answers : list Answer
}.

Definition set_github_token (t : str) (w : World) : World :=
  mkWorld t (_last_upload w) (me_id w) (cmd_prefix w) (clock w)
          (remote w) (requests w) (answers w).

Definition set_last_upload (m : gmap Z Q) (w : World) : World :=
  mkWorld (github_token w) m (me_id w) (cmd_prefix w) (clock w)
          (remote w) (requests w) (answers w).

Definition set_clock (t : Q) (w : World) : World :=
  mkWorld (github_token w) (_last_upload w) (me_id w) (cmd_prefix w) t
          (remote w) (requests w) (answers w).

Definition set_requests (l : list Request) (w : World) : World :=
  mkWorld (github_token w) (_last_upload w) (me_id w) (cmd_prefix w)
          (clock w) (remote w) l (answers w).

Definition set_answers (l : list Answer) (w : World) : World :=
  mkWorld (github_token w) (_last_upload w) (me_id w) (cmd_prefix w)
          (clock w) (remote w) (requests w) l.

(** ** The monad of the coroutines *)

(** A coroutine returns, raises, or (out of fuel) does not finish. *)
Inductive Res (A : Type) : Type :=
| Ret (a : A)
| Raise (e : Exc)
| Diverge.

Arguments Ret {A} a.
Arguments Raise {A} e.
Arguments Diverge {A}.

Definition M (A : Type) : Type := World -> Res A * World.

Definition ret {A} (a : A) : M A := fun w => (Ret a, w).

Definition raise {A} (e : Exc) : M A := fun w => (Raise e, w).

Definition diverge {A} : M A := fun w => (Diverge, w).

Definition bind {A B} (m : M A) (k : A -> M B) : M B :=
  fun w =>
    match m w with
    | (Ret a, w') => k a w'
    | (Raise e, w') => (Raise e, w')
    | (Diverge, w') => (Diverge, w')
    end.

Notation "'let*' x ':=' m 'in' k" := (bind m (fun x => k))
  (at level 10, x binder, m at level 100, k at level 200).

(** [try: m except Exception as e: h e]. *)
Definition try_except {A} (m : M A) (h : Exc -> M A) : M A :=
  fun w =>
    match m w with
    | (Raise e, w') => h e w'
    | r => r
    end.

(** [try: m except aiohttp.ClientError as e: h (str(e))]. *)
Definition try_except_ClientError {A} (m : M A) (h : str -> M A) : M A :=
  fun w =>
    match m w with
    | (Raise (AiohttpClientError cause), w') => h cause w'
    | r => r
    end.

(** [time.time()]. *)
Definition time_time : M Q := fun w => (Ret (clock w), w).

(** [asyncio.sleep(d)]: the clock moves on by [d]. *)
Definition asyncio_sleep (d : Q) : M unit :=
  fun w => (Ret tt, set_clock (clock w + d)%Q w).

(** [self.config["github_token"]], read and written. *)
Definition config_get : M str := fun w => (Ret (github_token w), w).

Definition config_set (t : str) : M unit :=
  fun w => (Ret tt, set_github_token t w).

(** [utils.answer(message, text)] when the chat delivers the answer;
    [utils_answer_via] below is the general case, where the call may
    raise. *)
Definition utils_answer (a : Answer) : M unit :=
  fun w => (Ret tt, set_answers (answers w ++ [a]) w).

(** [self.get_prefix()]. *)
Definition get_prefix : M str := fun w => (Ret (cmd_prefix w), w).

(** One [self._session.request(...)] with [response.json()]: the request
    is logged and the remote decides the outcome.  [session_request_any]
    below is the same call over a general network. *)
Definition session_request (req : Request) : M (Z * dict) :=
  fun w =>
    let w' := set_requests (requests w ++ [req]) w in
    match remote w (requests w) req with
    | ClientError cause => (Raise (AiohttpClientError cause), w')
    | Response status result => (Ret (status, result), w')
    end.

(** [d[key]] on a decoded body: [KeyError] when the key is absent. *)
Definition getitem (d : dict) (key : str) : M Json :=
  match dict_get key d with
  | Some v => ret v
  | None => raise (KeyError key)
  end.

(** Renderings used to run the model on examples: [str] of a decoded JSON
    value whose strings need no escaping, and [str.lower] on ASCII. *)
Fixpoint json_repr (j : Json) : str :=
  match j with
  | JNull => u "None"
  | JBool true => u "True"
  | JBool false => u "False"
  | JInt n => str_of_int n
  | JStr s => u "'" ++ s ++ u "'"
  | JList l =>
      u "["
      ++ (fix items (l : list Json) : str :=
            match l with
            | [] => []
            | [x] => json_repr x
            | x :: l' => json_repr x ++ u ", " ++ items l'
            end) l
      ++ u "]"
  | JDict kv =>
      u "{"
      ++ (fix items (kv : list (str * Json)) : str :=
            match kv with
            | [] => []
            | [(k, v)] => u "'" ++ k ++ u "': " ++ json_repr v
            | (k, v) :: kv' =>
                u "'" ++ k ++ u "': " ++ json_repr v ++ u ", " ++ items kv'
            end) kv
      ++ u "}"
  end.

Definition json_str (j : Json) : str :=
  match j with
  | JStr s => s
  | _ => json_repr j
  end.

Definition ascii_lower (s : str) : str :=
  map (fun c => if ((65 <=? c) && (c <=? 90))%N then (c + 32)%N else c) s.

(** [base64.b64encode(content).decode('utf-8')] on a list of byte values:
    the standard alphabet, with padding. *)
Definition b64_char (n : N) : char :=
  if (n <? 26)%N then (65 + n)%N
  else if (n <? 52)%N then (97 + (n - 26))%N
  else if (n <? 62)%N then (48 + (n - 52))%N
  else if (n =? 62)%N then 43%N
  else 47%N.

Fixpoint b64encode_str (bs : list N) : str :=
  match bs with
  | [] => []
  | [a] => [b64_char (a / 4); b64_char ((a mod 4) * 16); 61; 61]%N
  | [a; b] =>
      [b64_char (a / 4); b64_char ((a mod 4) * 16 + b / 16);
       b64_char ((b mod 16) * 4); 61]%N
  | a :: b :: c :: bs' =>
      [b64_char (a / 4); b64_char ((a mod 4) * 16 + b / 16);
       b64_char ((b mod 16) * 4 + c / 64); b64_char (c mod 64)]%N
      ++ b64encode_str bs'
  end.

(** A remote whose repository [username/repo_name] holds exactly [files]:
    a [GET] of the contents of a path answers 200 when the path is in
    [files] and 404 otherwise. *)
Fixpoint strip_prefix (p s : str) : option str :=
  match p, s with
  | [], _ => Some s
  | _ :: _, [] => None
  | a :: p', b :: s' => if (a =? b)%N then strip_prefix p' s' else None
  end.

Definition not_found : Outcome :=
  Response 404 [(u "message", JStr (u "Not Found"))].

Definition contents_prefix (username repo_name : str) : str :=
  u "https://api.github.com"
  ++ u "/repos/" ++ username ++ u "/" ++ repo_name ++ u "/contents/".

Definition contents_remote (username repo_name : str) (files : gset str)
  : list Request -> Request -> Outcome :=
  fun _ req =>
    match strip_prefix (contents_prefix username repo_name) (req_url req)
    with
    | Some path =>
        if bool_decide (req_method req = u "GET")
           && bool_decide (path ∈ files) then
          Response 200 [(u "name", JStr path); (u "sha", JStr (u "0"))]
        else not_found
    | None => not_found
    end.

(** The candidates of the collision resolver: the filename itself, then the
    stem with a counter before the extension. *)
Definition candidate (filename : str) (k : nat) : str :=
  match k with
  | O => filename
  | S _ =>
      fst (splitext filename) ++ u "_" ++ str_of_int (Z.of_nat k)
      ++ snd (splitext filename)
  end.

(** A character of a decimal numeral: a digit or the sign. *)
Definition is_numeral_char (c : char) : Prop :=
  is_digit c = true \/ c = MINUS.

(** A character the sanitizer leaves alone: neither a space nor one of the
    seven replaced characters. *)
Definition kept (c : char) : Prop :=
  c <> SPACE /\ c ∉ SanitizeSpec.forbidden.

(** ** Observing the answers of a run *)

(** [w'] extends the answers of [w] without the invalid-filename answer. *)
Definition answers_extend (w w' : World) : Prop :=
  exists l, answers w' = answers w ++ l /\ invalid_filename ∉ l.

(** A coroutine that never sends the invalid-filename answer. *)
Definition never_invalid {A} (m : M A) : Prop :=
  forall w, answers_extend w (snd (m w)).

(** ** Example remotes and worlds *)

(** A remote that knows one valid token: a request carrying it is answered
    with the account, any other one with 401. *)
Definition token_remote (valid : str) : list Request -> Request -> Outcome :=
  fun _ req =>
    if bool_decide
         ((u "Authorization", u "token " ++ valid) ∈ req_headers req)
    then Response 200 [(u "login", JStr (u "octocat"))]
    else Response 401 [(u "message", JStr (u "Bad credentials"))].

(** A remote that throttles, one that cannot be reached and one that fails
    without a message. *)
Definition throttling_remote : list Request -> Request -> Outcome :=
  fun _ _ => Response 403 [(u "message", JStr (u "API rate limit exceeded"))].

Definition unreachable_remote : list Request -> Request -> Outcome :=
  fun _ _ => ClientError (u "Cannot connect to host").

Definition failing_remote : list Request -> Request -> Outcome :=
  fun _ _ => Response 500 [].

(** A world at clock [now] with the token [ghp_old], account 42 and nothing
    logged yet. *)
Definition example_world (now : Q)
  (remote : list Request -> Request -> Outcome) : World :=
  mkWorld (u "ghp_old") ∅ 42 (u ".") now remote [] [].

(** An upload command of sender 7 replying to a file of the given size. *)
Definition example_upload (size : Z) : Message :=
  mkMessage 7 []
    (Some (mkReply (Some (mkFile (Some (u "report final.pdf")) size [])))).

(** ** Outcomes and frames *)

(** An outcome that [_make_github_request] turns into an exception: a
    transport error or a status of 400 or more. *)
Definition outcome_fails (o : Outcome) : bool :=
  match o with
  | ClientError _ => true
  | Response status _ => 400 <=? status
  end.

(** [w'] differs from [w] in the request log and the clock at most. *)
Definition quiet (w w' : World) : Prop :=
  github_token w' = github_token w
  /\ _last_upload w' = _last_upload w
  /\ me_id w' = me_id w
  /\ cmd_prefix w' = cmd_prefix w
  /\ remote w' = remote w
  /\ answers w' = answers w.

(** A coroutine that touches the request log and the clock only. *)
Definition quiet_m {A} (m : M A) : Prop :=
  forall w, quiet w (snd (m w)).

(** The link [ghuploadcmd] answers with. *)
Definition raw_url (username repo_name filename : str) : str :=
  u "https://raw.githubusercontent.com/" ++ username ++ u "/"
  ++ repo_name ++ u "/main/" ++ filename.

(** The probes of the collision resolver for the candidates [j], ...,
    [j + n - 1]. *)
Definition probes (token username repo_name filename : str) (j n : nat)
  : list Request :=
  map (fun i =>
         mkRequest (u "GET")
           (u "https://api.github.com"
            ++ u "/repos/" ++ username ++ u "/" ++ repo_name
            ++ u "/contents/" ++ candidate filename i)
           [(u "Authorization", u "token " ++ token);
            (u "Accept", u "application/vnd.github.v3+json");
            (u "User-Agent", u "Heroku-GitHubUploader/1.0")]
           None)
      (seq j n).

(** A remote that accepts everything: it knows the account, has no
    repository and no file yet, and answers 201 to every write. *)
Definition accepting_remote : list Request -> Request -> Outcome :=
  fun _ req =>
    if bool_decide (req_url req = u "https://api.github.com/user") then
      Response 200 [(u "login", JStr (u "octocat"))]
    else if bool_decide (req_method req = u "GET") then not_found
    else Response 201 [].

(** A coroutine that keeps the active token and whose requests all
    satisfy [P], which may refer to the token. *)
Definition emits (P : list N -> Request -> Prop) {A} (m : M A) : Prop :=
  forall w,
    github_token (snd (m w)) = github_token w
    /\ exists l,
        requests (snd (m w)) = requests w ++ l
        /\ Forall (P (github_token w)) l.

(** A remote that knows the account and refuses everything else. *)
Definition readonly_remote : list Request -> Request -> Outcome :=
  fun _ req =>
    if bool_decide (req_url req = u "https://api.github.com/user") then
      Response 200 [(u "login", JStr (u "octocat"))]
    else Response 403 [(u "message", JStr (u "Resource not accessible"))].

(** ** Telegram and the attempt in general *)

(** [utils_answer] above is an answer that the chat delivers, and
    [Outcome] an attempt that ends in an [aiohttp.ClientError] or in a
    response whose body is a JSON object.  The definitions below drop both
    restrictions: [utils.answer] may raise, the attempt may raise any
    exception, and the body may be any JSON value. *)

(** What the chat does with an answer, given the answers delivered so far:
    [None] when it delivers it, the exception when [utils.answer] raises. *)
Definition delivering : list Answer -> Answer -> option Exc :=
  fun _ _ => None.

(** [utils.answer(message, text)] that may raise. *)
Definition utils_answer_via (chat : list Answer -> Answer -> option Exc)
  (a : Answer) : M unit :=
  fun w =>
    match chat (answers w) a with
    | None => (Ret tt, set_answers (answers w ++ [a]) w)
    | Some e => (Raise e, w)
    end.

(** What Telegram does in one run of a command: what the chat does with
    each answer, and the exception, if any, that
    [message.get_reply_message()] and [reply.download_media(bytes)]
    raise. *)
Record Telegram : Type := mkTelegram {
  tg_answer : list Answer -> Answer -> option Exc;
  tg_get_reply : option Exc;
  tg_download : option Exc
}.

(** Telegram when every call succeeds. *)
Definition obliging : Telegram := mkTelegram delivering None None.

Definition get_reply_message_via (tg : Telegram) (message : Message)
  : M (option Reply) :=
  match tg_get_reply tg with
  | Some e => raise e
  | None => ret (reply_message message)
  end.

Definition download_media_via (tg : Telegram) (file : File) : M (list N) :=
  match tg_download tg with
  | Some e => raise e
  | None => ret (file_media file)
  end.

(** What one attempt yields in general: an exception raised inside the
    [async with] block (by the request or by [response.json()]), or a
    response with its status and its decoded body. *)
Inductive Attempt : Type :=
| AttemptRaises (e : Exc)
| AttemptResponse (status : Z) (body : Json).

(** An outcome as an attempt. *)
Definition attempt_of (o : Outcome) : Attempt :=
  match o with
  | ClientError cause => AttemptRaises (AiohttpClientError cause)
  | Response status result => AttemptResponse status (JDict result)
  end.

(** [type(x).__name__] of a decoded JSON value. *)
Definition type_name (j : Json) : str :=
  match j with
  | JNull => u "NoneType"
  | JBool _ => u "bool"
  | JInt _ => u "int"
  | JStr _ => u "str"
  | JList _ => u "list"
  | JDict _ => u "dict"
  end.

(** [result.get(key, default)]: a method of a [dict] only. *)
Definition result_get (result : Json) (key : str) (dflt : Json) : M Json :=
  match result with
  | JDict kv => ret (default dflt (dict_get key kv))
  | _ =>
      raise (AttributeError
               (u "'" ++ type_name result
                ++ u "' object has no attribute 'get'"))
  end.

(** One [self._session.request(...)] with [response.json()], the network
    given as a function of the requests made before. *)
Definition session_request_any (net : list Request -> Request -> Attempt)
  (req : Request) : M (Z * Json) :=
  fun w =>
    let w' := set_requests (requests w ++ [req]) w in
    match net (requests w) req with
    | AttemptRaises e => (Raise e, w')
    | AttemptResponse status body => (Ret (status, body), w')
    end.

(** An upload command of sender 7 replying to a file with three bytes of
    content. *)
Definition example_upload_man : Message :=
  mkMessage 7 []
    (Some (mkReply (Some (mkFile (Some (u "report final.pdf")) 3
                            [77; 97; 110]%N)))).

(** A chat that cannot deliver the success message of the token command,
    and a network that answers 404 with an empty JSON array. *)
Definition chat_without_token_set : list Answer -> Answer -> option Exc :=
  fun _ a =>
    match a with
    | token_set => Some (Exception (JStr (u "message was deleted")))
    | _ => None
    end.

Definition array_404_net : list Request -> Request -> Attempt :=
  fun _ _ => AttemptResponse 404 (JList []).

Definition timeout_net : list Request -> Request -> Attempt :=
  fun _ _ => AttemptRaises (TimeoutError (u "timed out")).

(** The text of the [TypeError] of [x[key]] with a string key, as Python
    3.11 and later word it. *)
Definition getitem_error (j : Json) : str :=
  match j with
  | JList _ => u "list indices must be integers or slices, not str"
  | JStr _ => u "string indices must be integers, not 'str'"
  | _ => u "'" ++ type_name j ++ u "' object is not subscriptable"
  end.

(** Telegram when the success message of the token command cannot be
    delivered, and when the reply cannot be fetched. *)
Definition telegram_without_token_set : Telegram :=
  mkTelegram chat_without_token_set None None.

Definition telegram_without_reply : Telegram :=
  mkTelegram delivering
    (Some (Exception (JStr (u "message was deleted")))) None.

(** ** The module *)

Section Uploader.

(** [str(x)] of a decoded JSON value and [s.lower()], as Python computes
    them. *)
Variable py_str : Json -> str.
Variable py_lower : str -> str.

(** The text of the [TypeError] that [x[key]] raises for a string [key]
    when [x] is a decoded JSON value other than an object. *)
Variable py_getitem_error : Json -> str.

(** A value inside an f-string, and [str(e)] of an exception. *)
Definition fmt (j : Json) : str :=
  match j with
  | JStr s => s
  | _ => py_str j
  end.

Definition exc_str (e : Exc) : str :=
  match e with
  | Exception arg => fmt arg
  | AiohttpClientError cause => cause
  | KeyError key => u "'" ++ key ++ u "'"
  | AttributeError text => text
  | TimeoutError text => text
  | TypeError text => text
  end.

Definition _get_repo_name : M str :=
  fun w => (Ret (u "git-" ++ str_of_int (me_id w) ++ u "-files"), w).

(** The request [_make_github_request] builds from the active token. *)
Definition github_request (token method endpoint : str) (data : option dict)
  : Request :=
  mkRequest method (u "https://api.github.com" ++ endpoint)
    [(u "Authorization", u "token " ++ token);
     (u "Accept", u "application/vnd.github.v3+json");
     (u "User-Agent", u "Heroku-GitHubUploader/1.0")]
    data.

Definition mentions_rate_limit (result : dict) : bool :=
  contains (u "rate limit") (py_lower (py_str (JDict result))).

Definition _make_github_request (method endpoint : str) (data : option dict)
  : M dict :=
  let* token := config_get in
  try_except_ClientError
    (let* '(status, result) :=
       session_request (github_request token method endpoint data) in
     if (status =? 403) && mentions_rate_limit result then
       raise (Exception (JStr (u "Rate limit exceeded")))
     else if 400 <=? status then
       let error_message :=
         default (JStr (u "HTTP " ++ str_of_int status))
                 (dict_get (u "message") result) in
       raise (Exception error_message)
     else ret result)
    (fun e => raise (Exception (JStr (u "Network error: " ++ e)))).

Definition _get_github_username : M Json :=
  try_except
    (let* user_data := _make_github_request (u "GET") (u "/user") None in
     getitem user_data (u "login"))
    (fun e =>
       raise (Exception (JStr (u "Failed to get username: " ++ exc_str e)))).

Definition _repository_exists (username repo_name : str) : M bool :=
  try_except
    (let* _ :=
       _make_github_request (u "GET")
         (u "/repos/" ++ username ++ u "/" ++ repo_name) None in
     ret true)
    (fun _ => ret false).

Definition _create_repository (repo_name : str) : M dict :=
  let data :=
    [(u "name", JStr repo_name);
     (u "description",
      JStr (u "File storage repository created by heroku userbot"));
     (u "private", JBool false);
     (u "auto_init", JBool true)] in
  _make_github_request (u "POST") (u "/user/repos") (Some data).

(** The endpoint of a file of the repository. *)
Definition contents_endpoint (username repo_name filename : str) : str :=
  u "/repos/" ++ username ++ u "/" ++ repo_name ++ u "/contents/" ++ filename.

(** The loop of [_get_unique_filename]: one round per unit of fuel. *)
Fixpoint unique_filename_loop (fuel : nat) (username repo_name name ext : str)
  (counter : Z) (current_filename : str) : M str :=
  match fuel with
  | O => diverge
  | S fuel' =>
      let* found :=
        try_except
          (let* _ :=
             _make_github_request (u "GET")
               (contents_endpoint username repo_name current_filename)
               None in
           ret true)
          (fun _ => ret false) in
      if found then
        let counter := counter + 1 in
        unique_filename_loop fuel' username repo_name name ext counter
          (name ++ u "_" ++ str_of_int counter ++ ext)
      else ret current_filename
  end.

Definition _get_unique_filename (fuel : nat)
  (username repo_name filename : str) : M str :=
  let '(name, ext) := splitext filename in
  unique_filename_loop fuel username repo_name name ext 0 filename.

(** [_upload_file]; [content_b64] is the encoded content.  When the lookup
    succeeds but the body has no [sha], the [KeyError] is swallowed after
    [file_exists] was set, and [existing_sha] stays [None]. *)
Definition _upload_file (username repo_name filename content_b64 : str)
  : M dict :=
  let* '(file_exists, existing_sha) :=
    try_except
      (let* existing_file :=
         _make_github_request (u "GET")
           (contents_endpoint username repo_name filename) None in
       ret (true, default JNull (dict_get (u "sha") existing_file)))
      (fun _ => ret (false, JNull)) in
  let commit_message :=
    if negb file_exists then u "Upload " ++ filename
    else u "Update " ++ filename in
  let data :=
    [(u "message", JStr commit_message);
     (u "content", JStr content_b64);
     (u "branch", JStr (u "main"))] in
  let data :=
    if file_exists then data ++ [(u "sha", existing_sha)] else data in
  _make_github_request (u "PUT")
    (contents_endpoint username repo_name filename) (Some data).

Definition _check_rate_limit (user_id : Z) : M bool :=
  let* now := time_time in
  fun w =>
    let last_upload := default (0 : Q) (_last_upload w !! user_id) in
    if Qlt_bool (now - last_upload) 10 then (Ret false, w)
    else (Ret true, set_last_upload (<[user_id := now]> (_last_upload w)) w).

Definition ghsetcmd (message : Message) : M unit :=
  let args := args_raw message in
  if py_not args then
    let* p := get_prefix in
    utils_answer (no_token p)
  else
    let* old_token := config_get in
    let* _ := config_set (strip args) in
    try_except
      (let* _ := _get_github_username in
       utils_answer token_set)
      (fun _ =>
         let* _ := config_set old_token in
         utils_answer invalid_token).

(** The body of the [try] block of [ghuploadcmd]. *)
Definition upload_body (fuel : nat) (file : File) : M unit :=
  let file_bytes := file_media file in
  let* filename :=
    match file_name file with
    | Some (c :: n) => ret (c :: n)
    | _ =>
        let* now := time_time in
        ret (u "file_" ++ str_of_int (py_int now))
    end in
  let* now := time_time in
  let filename := _sanitize_filename (py_int now) filename in
  if py_not filename then utils_answer invalid_filename
  else
    let* username := _get_github_username in
    let username := fmt username in
    let* repo_name := _get_repo_name in
    let* repo_exists := _repository_exists username repo_name in
    let* _ :=
      if negb repo_exists then
        let* _ := _create_repository repo_name in
        asyncio_sleep 2
      else ret tt in
    let* unique_filename :=
      _get_unique_filename fuel username repo_name filename in
    let* upload_result :=
      _upload_file username repo_name unique_filename
        (b64encode_str file_bytes) in
    let raw_url :=
      u "https://raw.githubusercontent.com/" ++ username ++ u "/"
      ++ repo_name ++ u "/main/" ++ unique_filename in
    utils_answer (upload_success unique_filename raw_url).

Definition max_file_size : Z := 100 * 1024 * 1024.

Definition ghuploadcmd (fuel : nat) (message : Message) : M unit :=
  let* token := config_get in
  if py_not token then
    let* p := get_prefix in
    utils_answer (no_token p)
  else
    let* allowed := _check_rate_limit (sender_id message) in
    if negb allowed then utils_answer rate_limit
    else
      match reply_message message with
      | None => utils_answer no_file
      | Some reply =>
          match reply_file reply with
          | None => utils_answer no_file
          | Some file =>
              if max_file_size <? file_size file then
                utils_answer file_too_large
              else
                let* _ := utils_answer uploading in
                try_except
                  (upload_body fuel file)
                  (fun e => utils_answer (upload_error (exc_str e)))
          end
      end.

(** The two attachment checks of [ghuploadcmd]: the answer of the check
    that rejects the message, or the file that goes on to the upload. *)
Definition attachment_check (message : Message) : Answer + File :=
  match reply_message message with
  | None => inl no_file
  | Some reply =>
      match reply_file reply with
      | None => inl no_file
      | Some file =>
          if max_file_size <? file_size file then inl file_too_large
          else inr file
      end
  end.

(** The timestamp the rate limiter compares with: the stored one, or 0. *)
Definition last_accepted (user_id : Z) (w : World) : Q :=
  default (0 : Q) (_last_upload w !! user_id).

(** The steps of the [try] block of [ghuploadcmd] that follow the
    sanitizer, for the sanitized [filename]. *)
Definition upload_steps (fuel : nat) (file_bytes : list N) (filename : str)
  : M unit :=
  let* username := _get_github_username in
  let username := fmt username in
  let* repo_name := _get_repo_name in
  let* repo_exists := _repository_exists username repo_name in
  let* _ :=
    if negb repo_exists then
      let* _ := _create_repository repo_name in
      asyncio_sleep 2
    else ret tt in
  let* unique_filename :=
    _get_unique_filename fuel username repo_name filename in
  let* upload_result :=
    _upload_file username repo_name unique_filename
      (b64encode_str file_bytes) in
  let raw_url :=
    u "https://raw.githubusercontent.com/" ++ username ++ u "/"
    ++ repo_name ++ u "/main/" ++ unique_filename in
  utils_answer (upload_success unique_filename raw_url).

(** The name the upload starts from: the name of the file, or a generated
    one when the file has none. *)
Definition proposed_filename (file : File) (w : World) : str :=
  match file_name file with
  | Some (c :: n) => c :: n
  | _ => u "file_" ++ str_of_int (py_int (clock w))
  end.

(** A request of the module: one of the three methods on an endpoint of
    the API, built with the given token.  The endpoint starts with a
    slash, so that the URL is [https://api.github.com/] followed by a
    path. *)
Definition api_request (token : str) (req : Request) : Prop :=
  exists method path data,
    method ∈ [u "GET"; u "POST"; u "PUT"]
    /\ req = github_request token method (SLASH :: path) data.

(** The last two steps of the [try] block of [ghuploadcmd]: the collision
    resolver and the upload of the name it returns, with the answer. *)
Definition resolve_and_write (fuel : nat) (file_bytes : list N)
  (username repo_name filename : str) : M unit :=
  let* unique_filename :=
    _get_unique_filename fuel username repo_name filename in
  let* upload_result :=
    _upload_file username repo_name unique_filename
      (b64encode_str file_bytes) in
  let raw_url :=
    u "https://raw.githubusercontent.com/" ++ username ++ u "/"
    ++ repo_name ++ u "/main/" ++ unique_filename in
  utils_answer (upload_success unique_filename raw_url).

(** The body that [_create_repository] sends. *)
Definition create_repository_data (repo_name : str) : dict :=
  [(u "name", JStr repo_name);
   (u "description",
    JStr (u "File storage repository created by heroku userbot"));
   (u "private", JBool false);
   (u "auto_init", JBool true)].

(** [_make_github_request] over a general network: the body may be any
    JSON value, and only an [aiohttp.ClientError] is wrapped. *)
Definition _make_github_request_any
  (net : list Request -> Request -> Attempt)
  (method endpoint : str) (data : option dict) : M Json :=
  let* token := config_get in
  try_except_ClientError
    (let* '(status, result) :=
       session_request_any net (github_request token method endpoint data) in
     if (status =? 403)
        && contains (u "rate limit") (py_lower (py_str result)) then
       raise (Exception (JStr (u "Rate limit exceeded")))
     else if 400 <=? status then
       let* error_message :=
         result_get result (u "message")
           (JStr (u "HTTP " ++ str_of_int status)) in
       raise (Exception error_message)
     else ret result)
    (fun e => raise (Exception (JStr (u "Network error: " ++ e)))).

(** [x[key]] on a decoded JSON value: only an object has string keys. *)
Definition getitem_any (j : Json) (key : str) : M Json :=
  match j with
  | JDict kv => getitem kv key
  | _ => raise (TypeError (py_getitem_error j))
  end.

(** The helpers over a general network. *)
Definition _get_github_username_any
  (net : list Request -> Request -> Attempt) : M Json :=
  try_except
    (let* user_data :=
       _make_github_request_any net (u "GET") (u "/user") None in
     getitem_any user_data (u "login"))
    (fun e =>
       raise (Exception (JStr (u "Failed to get username: " ++ exc_str e)))).

Definition _repository_exists_any
  (net : list Request -> Request -> Attempt) (username repo_name : str)
  : M bool :=
  try_except
    (let* _ :=
       _make_github_request_any net (u "GET")
         (u "/repos/" ++ username ++ u "/" ++ repo_name) None in
     ret true)
    (fun _ => ret false).

Definition _create_repository_any
  (net : list Request -> Request -> Attempt) (repo_name : str) : M Json :=
  let data :=
    [(u "name", JStr repo_name);
     (u "description",
      JStr (u "File storage repository created by heroku userbot"));
     (u "private", JBool false);
     (u "auto_init", JBool true)] in
  _make_github_request_any net (u "POST") (u "/user/repos") (Some data).

Fixpoint unique_filename_loop_any
  (net : list Request -> Request -> Attempt) (fuel : nat)
  (username repo_name name ext : str) (counter : Z) (current_filename : str)
  : M str :=
  match fuel with
  | O => diverge
  | S fuel' =>
      let* found :=
        try_except
          (let* _ :=
             _make_github_request_any net (u "GET")
               (contents_endpoint username repo_name current_filename)
               None in
           ret true)
          (fun _ => ret false) in
      if found then
        let counter := counter + 1 in
        unique_filename_loop_any net fuel' username repo_name name ext
          counter (name ++ u "_" ++ str_of_int counter ++ ext)
      else ret current_filename
  end.

Definition _get_unique_filename_any
  (net : list Request -> Request -> Attempt) (fuel : nat)
  (username repo_name filename : str) : M str :=
  let '(name, ext) := splitext filename in
  unique_filename_loop_any net fuel username repo_name name ext 0 filename.

(** [existing_file["sha"]] inside the [try] of [_upload_file]: its value,
    or [None] when the subscript raises, which the handler swallows after
    [file_exists] was set. *)
Definition sha_or_none (existing_file : Json) : Json :=
  match existing_file with
  | JDict kv => default JNull (dict_get (u "sha") kv)
  | _ => JNull
  end.

Definition _upload_file_any
  (net : list Request -> Request -> Attempt)
  (username repo_name filename content_b64 : str) : M Json :=
  let* '(file_exists, existing_sha) :=
    try_except
      (let* existing_file :=
         _make_github_request_any net (u "GET")
           (contents_endpoint username repo_name filename) None in
       ret (true, sha_or_none existing_file))
      (fun _ => ret (false, JNull)) in
  let commit_message :=
    if negb file_exists then u "Upload " ++ filename
    else u "Update " ++ filename in
  let data :=
    [(u "message", JStr commit_message);
     (u "content", JStr content_b64);
     (u "branch", JStr (u "main"))] in
  let data :=
    if file_exists then data ++ [(u "sha", existing_sha)] else data in
  _make_github_request_any net (u "PUT")
    (contents_endpoint username repo_name filename) (Some data).

(** [ghsetcmd] over a general network and a general Telegram. *)
Definition ghsetcmd_any (net : list Request -> Request -> Attempt)
  (tg : Telegram) (message : Message) : M unit :=
  let args := args_raw message in
  if py_not args then
    let* p := get_prefix in
    utils_answer_via (tg_answer tg) (no_token p)
  else
    let* old_token := config_get in
    let* _ := config_set (strip args) in
    try_except
      (let* _ := _get_github_username_any net in
       utils_answer_via (tg_answer tg) token_set)
      (fun _ =>
         let* _ := config_set old_token in
         utils_answer_via (tg_answer tg) invalid_token).

(** The [try] block of [ghuploadcmd] and [ghuploadcmd] itself over a
    general network and a general Telegram. *)
Definition upload_body_any (net : list Request -> Request -> Attempt)
  (tg : Telegram) (fuel : nat) (file : File) : M unit :=
  let* file_bytes := download_media_via tg file in
  let* filename :=
    match file_name file with
    | Some (c :: n) => ret (c :: n)
    | _ =>
        let* now := time_time in
        ret (u "file_" ++ str_of_int (py_int now))
    end in
  let* now := time_time in
  let filename := _sanitize_filename (py_int now) filename in
  if py_not filename then utils_answer_via (tg_answer tg) invalid_filename
  else
    let* username := _get_github_username_any net in
    let username := fmt username in
    let* repo_name := _get_repo_name in
    let* repo_exists := _repository_exists_any net username repo_name in
    let* _ :=
      if negb repo_exists then
        let* _ := _create_repository_any net repo_name in
        asyncio_sleep 2
      else ret tt in
    let* unique_filename :=
      _get_unique_filename_any net fuel username repo_name filename in
    let* upload_result :=
      _upload_file_any net username repo_name unique_filename
        (b64encode_str file_bytes) in
    let raw_url :=
      u "https://raw.githubusercontent.com/" ++ username ++ u "/"
      ++ repo_name ++ u "/main/" ++ unique_filename in
    utils_answer_via (tg_answer tg) (upload_success unique_filename raw_url).

Definition ghuploadcmd_any (net : list Request -> Request -> Attempt)
  (tg : Telegram) (fuel : nat) (message : Message) : M unit :=
  let* token := config_get in
  if py_not token then
    let* p := get_prefix in
    utils_answer_via (tg_answer tg) (no_token p)
  else
    let* allowed := _check_rate_limit (sender_id message) in
    if negb allowed then utils_answer_via (tg_answer tg) rate_limit
    else
      let* reply := get_reply_message_via tg message in
      match reply with
      | None => utils_answer_via (tg_answer tg) no_file
      | Some reply =>
          match reply_file reply with
          | None => utils_answer_via (tg_answer tg) no_file
          | Some file =>
              if max_file_size <? file_size file then
                utils_answer_via (tg_answer tg) file_too_large
              else
                let* _ := utils_answer_via (tg_answer tg) uploading in
                try_except
                  (upload_body_any net tg fuel file)
                  (fun e =>
                     utils_answer_via (tg_answer tg)
                       (upload_error (exc_str e)))
          end
      end.

(** The steps of the [try] block after the sanitizer and before the
    answer: the name under which the file was written, and its link. *)
Definition upload_core_any (net : list Request -> Request -> Attempt)
  (fuel : nat) (file_bytes : list N) (filename : str)
  : M (list N * list N) :=
  let* username := _get_github_username_any net in
  let username := fmt username in
  let* repo_name := _get_repo_name in
  let* repo_exists := _repository_exists_any net username repo_name in
  let* _ :=
    if negb repo_exists then
      let* _ := _create_repository_any net repo_name in
      asyncio_sleep 2
    else ret tt in
  let* unique_filename :=
    _get_unique_filename_any net fuel username repo_name filename in
  let* upload_result :=
    _upload_file_any net username repo_name unique_filename
      (b64encode_str file_bytes) in
  ret (unique_filename,
       u "https://raw.githubusercontent.com/" ++ username ++ u "/"
       ++ repo_name ++ u "/main/" ++ unique_filename).

(** The network that a world's [remote] describes. *)
Definition net_of (w : World) : list Request -> Request -> Attempt :=
  fun log req => attempt_of (remote w log req).

(** A result that is a JSON object, as a JSON value. *)
Definition as_json (r : Res dict) : Res Json :=
  match r with
  | Ret result => Ret (JDict result)
  | Raise e => Raise e
  | Diverge => Diverge
  end.

(** The answers an upload command can have sent when it returns. *)
Definition upload_answers (w : World) (l : list Answer) : Prop :=
  l = [no_token (cmd_prefix w)]
  \/ l = [rate_limit]
  \/ l = [no_file]
  \/ l = [file_too_large]
  \/ (exists name url, l = [uploading; upload_success name url])
  \/ (exists text, l = [uploading; upload_error text]).

(** The rate-limit test of [_make_github_request] on any decoded body. *)
Definition mentions_rate_limit_any (body : Json) : bool :=
  contains (u "rate limit") (py_lower (py_str body)).

(** * Properties *)

(** ** Whitespace stripping *)

Lemma lstrip_keeps (c : char) (s : str) :
  is_space c = false -> lstrip (c :: s) = c :: s.
Proof. intros H. simpl. now rewrite H. Qed.

Lemma lstrip_snoc (s : str) (c : char) :
  lstrip (s ++ [c]) =
  match lstrip s with
  | [] => if is_space c then [] else [c]
  | r => r ++ [c]
  end.
Proof.
  induction s as [|x s IH]; simpl.
  - reflexivity.
  - destruct (is_space x); [exact IH | reflexivity].
Qed.

Lemma rstrip_cons (c : char) (s : str) :
  rstrip (c :: s) =
  match rstrip s with
  | [] => if is_space c then [] else [c]
  | r => c :: r
  end.
Proof.
  unfold rstrip. simpl rev. rewrite lstrip_snoc.
  destruct (lstrip (rev s)) as [|x r] eqn:E; simpl.
  - now destruct (is_space c).
  - rewrite rev_app_distr. simpl.
    destruct (rev r ++ [x]) as [|y t] eqn:E'; [|reflexivity].
    now destruct (rev r).
Qed.

Lemma rstrip_nil : rstrip [] = [].
Proof. reflexivity. Qed.

Lemma lstrip_rstrip (s : str) : lstrip (rstrip s) = rstrip (lstrip s).
Proof.
  induction s as [|c s IH]; [reflexivity|].
  simpl lstrip at 2. destruct (is_space c) eqn:Hc.
  - rewrite <- IH, rstrip_cons. destruct (rstrip s) as [|y r].
    + now rewrite Hc.
    + simpl. now rewrite Hc.
  - rewrite rstrip_cons. destruct (rstrip s) as [|y r].
    + rewrite Hc. now apply lstrip_keeps.
    + now apply lstrip_keeps.
Qed.

Lemma lstrip_idem (s : str) : lstrip (lstrip s) = lstrip s.
Proof.
  induction s as [|c s IH]; [reflexivity|].
  simpl. destruct (is_space c) eqn:Hc; [exact IH|].
  now apply lstrip_keeps.
Qed.

Lemma rstrip_idem (s : str) : rstrip (rstrip s) = rstrip s.
Proof.
  unfold rstrip. now rewrite rev_involutive, lstrip_idem.
Qed.

Lemma strip_idem (s : str) : strip (strip s) = strip s.
Proof.
  unfold strip.
  now rewrite lstrip_rstrip, lstrip_idem, rstrip_idem.
Qed.

Lemma lstrip_nil_iff (s : str) : lstrip s = [] <-> forallb is_space s = true.
Proof.
  induction s as [|c s IH]; simpl; [easy|].
  destruct (is_space c); simpl; [exact IH | easy].
Qed.

Lemma forallb_rev (f : char -> bool) (s : str) :
  forallb f (rev s) = forallb f s.
Proof.
  induction s as [|c s IH]; [reflexivity|].
  simpl. rewrite forallb_app, IH. simpl.
  rewrite andb_true_r. apply andb_comm.
Qed.

Lemma rstrip_nil_iff (s : str) : rstrip s = [] <-> forallb is_space s = true.
Proof.
  unfold rstrip. rewrite <- (forallb_rev is_space s), <- lstrip_nil_iff.
  split; intros H.
  - apply (f_equal (@rev N)) in H. now rewrite rev_involutive in H.
  - now rewrite H.
Qed.

Lemma strip_nil_iff (s : str) : strip s = [] <-> forallb is_space s = true.
Proof.
  unfold strip. rewrite <- lstrip_rstrip.
  split; intros H.
  - apply rstrip_nil_iff.
    destruct (rstrip s) as [|c r] eqn:E; [reflexivity|].
    assert (Hr : rstrip (c :: r) = c :: r) by (rewrite <- E; apply rstrip_idem).
    apply lstrip_nil_iff in H. apply rstrip_nil_iff in H. congruence.
  - apply rstrip_nil_iff in H. now rewrite H.
Qed.

Lemma py_not_strip (s : str) : py_not (strip s) = forallb is_space s.
Proof.
  destruct (forallb is_space s) eqn:E.
  - apply strip_nil_iff in E. now rewrite E.
  - destruct (strip s) eqn:E'; [|reflexivity].
    apply strip_nil_iff in E'. congruence.
Qed.

Lemma lstrip_Forall (P : char -> Prop) (s : str) :
  Forall P s -> Forall P (lstrip s).
Proof.
  induction 1 as [|c s Hc Hs IH]; simpl; [constructor|].
  destruct (is_space c); [exact IH | now constructor].
Qed.

Lemma strip_Forall (P : char -> Prop) (s : str) :
  Forall P s -> Forall P (strip s).
Proof.
  intros H. unfold strip, rstrip.
  apply Forall_rev, lstrip_Forall, Forall_rev, lstrip_Forall, H.
Qed.

Lemma lstrip_no_space (s : str) :
  Forall (fun c => is_space c = false) s -> lstrip s = s.
Proof.
  destruct 1 as [|c s Hc Hs]; [reflexivity | now apply lstrip_keeps].
Qed.

Lemma strip_no_space (s : str) :
  Forall (fun c => is_space c = false) s -> strip s = s.
Proof.
  intros H. unfold strip, rstrip.
  rewrite (lstrip_no_space s H).
  rewrite (lstrip_no_space (rev s)) by now apply Forall_rev.
  apply rev_involutive.
Qed.

(** ** Decimal numerals *)

Lemma str_of_uint_digits (d : Decimal.uint) :
  Forall (fun c => is_digit c = true) (str_of_uint d).
Proof. induction d; simpl; constructor; auto. Qed.

Lemma str_of_uint_nonnil (d : Decimal.uint) :
  d <> Decimal.Nil -> str_of_uint d <> [].
Proof. destruct d; simpl; congruence. Qed.

Lemma str_of_int_nonneg (z : Z) :
  0 <= z ->
  str_of_int z <> [] /\ Forall (fun c => is_digit c = true) (str_of_int z).
Proof.
  intros Hz. unfold str_of_int. destruct z as [|p|p]; simpl.
  - split; [discriminate | repeat constructor].
  - split; [|apply str_of_uint_digits].
    apply str_of_uint_nonnil, Unsigned.to_uint_nonnil.
  - lia.
Qed.

Lemma str_of_int_chars (z : Z) : Forall is_numeral_char (str_of_int z).
Proof.
  unfold str_of_int. destruct (Z.to_int z) as [d|d].
  - eapply Forall_impl; [apply str_of_uint_digits|]. now left.
  - constructor; [now right|].
    eapply Forall_impl; [apply str_of_uint_digits|]. now left.
Qed.

(** ** The sanitizer *)

Lemma forbidden_chain (c : char) :
  (let c1 := if (c =? 60)%N then UNDERSCORE else c in
   let c2 := if (c1 =? 62)%N then UNDERSCORE else c1 in
   let c3 := if (c2 =? 58)%N then UNDERSCORE else c2 in
   let c4 := if (c3 =? DQUOTE)%N then UNDERSCORE else c3 in
   let c5 := if (c4 =? 124)%N then UNDERSCORE else c4 in
   let c6 := if (c5 =? 63)%N then UNDERSCORE else c5 in
   if (c6 =? BACKSLASH)%N then UNDERSCORE else c6)
  = if bool_decide (c ∈ SanitizeSpec.forbidden) then UNDERSCORE else c.
Proof.
  unfold SanitizeSpec.forbidden, UNDERSCORE, DQUOTE, BACKSLASH. cbv zeta.
  case_bool_decide as H.
  - rewrite !elem_of_cons, elem_of_nil in H.
    destruct H as [->|[->|[->|[->|[->|[->|[->|[]]]]]]]]; reflexivity.
  - rewrite !elem_of_cons, elem_of_nil in H.
    repeat match goal with
           | |- context [(?a =? ?b)%N] =>
               destruct (N.eqb_spec a b); [exfalso; tauto|]
           end.
    reflexivity.
Qed.

Lemma sanitize_loop (s : str) :
  fold_left
    (fun filename c =>
       if negb (c =? STAR)%N then replace1 c UNDERSCORE filename
       else filename)
    invalid_chars s
  = SanitizeSpec.replace_forbidden s.
Proof.
  unfold invalid_chars. simpl. unfold replace1, SanitizeSpec.replace_forbidden.
  rewrite !map_map. apply map_ext. intros c.
  exact (forbidden_chain c).
Qed.

Lemma blank_forallb (s : str) : SanitizeSpec.blank s = forallb is_space s.
Proof. now destruct s. Qed.

Lemma replaced_kept (s : str) :
  Forall kept (SanitizeSpec.replace_forbidden (SanitizeSpec.replace_spaces s)).
Proof.
  unfold SanitizeSpec.replace_forbidden, SanitizeSpec.replace_spaces.
  rewrite map_map. apply Forall_map, Forall_forall. intros c _.
  unfold kept, SPACE, STAR, UNDERSCORE.
  set (c1 := if (c =? 32)%N then 42%N else c).
  assert (Hc1 : c1 <> 32%N).
  { subst c1. destruct (N.eqb_spec c 32); [discriminate | assumption]. }
  case_bool_decide as H; [|now split].
  split; [discriminate|].
  unfold SanitizeSpec.forbidden. rewrite !elem_of_cons, elem_of_nil. lia.
Qed.

Lemma generated_kept (now : Z) : Forall kept (SanitizeSpec.generated now).
Proof.
  unfold SanitizeSpec.generated. apply Forall_app. split.
  - unfold kept, SanitizeSpec.forbidden, SPACE.
    repeat constructor; try discriminate;
      rewrite !elem_of_cons, elem_of_nil; simpl; lia.
  - eapply Forall_impl; [apply str_of_int_chars|].
    intros c [Hc| ->].
    + unfold is_digit in Hc. apply andb_prop in Hc as [H1 H2].
      apply N.leb_le in H1, H2.
      unfold kept, SanitizeSpec.forbidden, SPACE.
      rewrite !elem_of_cons, elem_of_nil. lia.
    + unfold kept, SanitizeSpec.forbidden, SPACE, MINUS.
      rewrite !elem_of_cons, elem_of_nil. lia.
Qed.

Lemma generated_no_space (now : Z) :
  Forall (fun c => is_space c = false) (SanitizeSpec.generated now).
Proof.
  unfold SanitizeSpec.generated. apply Forall_app. split.
  - repeat constructor.
  - eapply Forall_impl; [apply str_of_int_chars|].
    intros c [Hc| ->]; [|reflexivity].
    unfold is_digit in Hc. apply andb_prop in Hc as [H1 H2].
    apply N.leb_le in H1, H2. unfold is_space.
    repeat match goal with
           | |- context [(?a <=? ?b)%N] => destruct (N.leb_spec a b); try lia
           | |- context [(?a =? ?b)%N] => destruct (N.eqb_spec a b); try lia
           end.
Qed.

Lemma kept_fixed (s : str) :
  Forall kept s ->
  SanitizeSpec.replace_forbidden (SanitizeSpec.replace_spaces s) = s.
Proof.
  induction 1 as [|c s [Hc1 Hc2] Hs IH]; [reflexivity|].
  unfold SanitizeSpec.replace_forbidden, SanitizeSpec.replace_spaces in *.
  simpl. rewrite IH. f_equal.
  destruct (N.eqb_spec c SPACE); [contradiction|].
  now rewrite bool_decide_eq_false_2.
Qed.

Lemma sanitize_spec_shape (now : Z) (name : str) :
  let out := SanitizeSpec.sanitize now name in
  out <> [] /\ Forall kept out /\ strip out = out.
Proof.
  unfold SanitizeSpec.sanitize, SanitizeSpec.trim, SanitizeSpec.substitute.
  set (r := SanitizeSpec.replace_forbidden (SanitizeSpec.replace_spaces name)).
  simpl. rewrite blank_forallb.
  destruct (forallb is_space r) eqn:E.
  - rewrite (strip_no_space _ (generated_no_space now)).
    split; [discriminate|]. split; [apply generated_kept|].
    apply strip_no_space, generated_no_space.
  - split.
    + intros H. apply strip_nil_iff in H. congruence.
    + split; [apply strip_Forall, replaced_kept | apply strip_idem].
Qed.

Lemma sanitize_unfold (now : Z) (filename : str) :
  _sanitize_filename now filename = SanitizeSpec.sanitize now filename.
Proof.
  unfold _sanitize_filename, SanitizeSpec.sanitize, SanitizeSpec.trim,
    SanitizeSpec.substitute.
  rewrite sanitize_loop, py_not_strip, blank_forallb.
  reflexivity.
Qed.

Lemma sanitize_shape (now : Z) (filename : str) :
  let out := _sanitize_filename now filename in
  out <> [] /\ Forall kept out /\ strip out = out.
Proof. rewrite sanitize_unfold. apply sanitize_spec_shape. Qed.

Lemma sanitize_nonempty (now : Z) (filename : str) :
  py_not (_sanitize_filename now filename) = false.
Proof.
  destruct (sanitize_shape now filename) as [H _].
  now destruct (_sanitize_filename now filename).
Qed.

Lemma whitespace_not_forbidden (c : char) :
  is_space c = true -> c ∉ SanitizeSpec.forbidden.
Proof.
  intros Hc. unfold SanitizeSpec.forbidden.
  rewrite !elem_of_cons, elem_of_nil.
  intros [->|[->|[->|[->|[->|[->|[->|[]]]]]]]]; discriminate.
Qed.

Lemma generated_is_generated (now : Z) :
  0 <= now -> is_generated_name (u "file_" ++ str_of_int now) = true.
Proof.
  intros Hnow. destruct (str_of_int_nonneg now Hnow) as [Hne Hd].
  destruct (str_of_int now) as [|d ds]; [congruence|].
  change (forallb is_digit (d :: ds) = true).
  apply forallb_forall. intros c Hc.
  rewrite Forall_forall in Hd. apply Hd. now apply list_elem_of_In.
Qed.

(** C1 (as amended): [sanitize("a b.txt")] is [a*b.txt] and
    [sanitize("a<b>.txt")] is [a_b_.txt]; [sanitize("   ")] is [***],
    because the spaces have become asterisks before the blank check; and a
    name made only of whitespace other than the space (the empty name
    included) yields the generated name [file_<digits>] of the current
    time. *)
Theorem sanitize_examples (now : Z) (blank : str) :
  0 <= now ->
  Forall (fun c => is_space c = true /\ c <> SPACE) blank ->
  _sanitize_filename now (u "a b.txt") = u "a*b.txt"
  /\ _sanitize_filename now (u "a<b>.txt") = u "a_b_.txt"
  /\ _sanitize_filename now (u "   ") = u "***"
  /\ _sanitize_filename now blank = u "file_" ++ str_of_int now
  /\ is_generated_name (_sanitize_filename now blank) = true.
Proof.
  intros Hnow Hblank.
  split; [reflexivity|]. split; [reflexivity|]. split; [reflexivity|].
  assert (E : _sanitize_filename now blank = u "file_" ++ str_of_int now).
  { rewrite sanitize_unfold.
    unfold SanitizeSpec.sanitize, SanitizeSpec.trim, SanitizeSpec.substitute.
    rewrite kept_fixed.
    - assert (Hb : SanitizeSpec.blank blank = true).
      { rewrite blank_forallb. apply forallb_forall. intros c Hc.
        rewrite Forall_forall in Hblank.
        apply Hblank. now apply list_elem_of_In. }
      rewrite Hb. apply strip_no_space, generated_no_space.
    - eapply Forall_impl; [exact Hblank|].
      intros c [Hs Hn]. split; [exact Hn | now apply whitespace_not_forbidden]. }
  split; [exact E|].
  rewrite E. now apply generated_is_generated.
Qed.

Lemma sanitize_examples_witness :
  _sanitize_filename 1700000000 (u "a b.txt") = u "a*b.txt"
  /\ _sanitize_filename 1700000000 (u "a<b>.txt") = u "a_b_.txt"
  /\ _sanitize_filename 1700000000 (u "   ") = u "***"
  /\ _sanitize_filename 1700000000 [9%N; 10%N] = u "file_1700000000"
  /\ is_generated_name (_sanitize_filename 1700000000 [9%N; 10%N]) = true.
Proof.
  apply (sanitize_examples 1700000000 [9%N; 10%N]).
  - lia.
  - repeat constructor; discriminate.
Defined.

(** C1 as stated fails: for the all-spaces name the sanitizer returns
    [***], which is not a generated name. *)
Lemma sanitize_all_spaces_not_generated :
  ~ (_sanitize_filename 1700000000 (u "a b.txt") = u "a*b.txt"
     /\ _sanitize_filename 1700000000 (u "a<b>.txt") = u "a_b_.txt"
     /\ is_generated_name (_sanitize_filename 1700000000 (u "   ")) = true).
Proof. intros (_ & _ & H). vm_compute in H. discriminate. Qed.

(** C2: for every input the sanitizer returns what the four steps of the
    specification give in order: spaces to asterisks, the seven characters
    to underscores (asterisks untouched), a blank result replaced by
    [file_{timestamp}], then trimming. *)
Theorem sanitize_is_four_steps (now : Z) (filename : str) :
  _sanitize_filename now filename
  = SanitizeSpec.trim
      (SanitizeSpec.substitute now
         (SanitizeSpec.replace_forbidden
            (SanitizeSpec.replace_spaces filename))).
Proof. apply sanitize_unfold. Qed.

(** C8: the sanitizer is idempotent, whatever the clock reads at the two
    calls. *)
Theorem sanitize_idempotent (now now' : Z) (x : str) :
  _sanitize_filename now' (_sanitize_filename now x)
  = _sanitize_filename now x.
Proof.
  destruct (sanitize_shape now x) as (Hne & Hk & Hs).
  set (out := _sanitize_filename now x) in *.
  rewrite (sanitize_unfold now' out).
  unfold SanitizeSpec.sanitize, SanitizeSpec.trim, SanitizeSpec.substitute.
  rewrite (kept_fixed out Hk).
  assert (Hb : SanitizeSpec.blank out = false).
  { rewrite blank_forallb. destruct (forallb is_space out) eqn:E; [|reflexivity].
    apply strip_nil_iff in E. congruence. }
  rewrite Hb. exact Hs.
Qed.

(** ** The rate limiter *)

Lemma Qlt_bool_true (x y : Q) : Qlt_bool x y = true <-> (x < y)%Q.
Proof.
  unfold Qlt_bool. rewrite negb_true_iff. split; intros H.
  - apply Qnot_le_lt. intros Hle. apply Qle_bool_iff in Hle. congruence.
  - destruct (Qle_bool y x) eqn:E; [|reflexivity].
    apply Qle_bool_iff in E. exfalso. exact (Qlt_not_le _ _ H E).
Qed.

Lemma Qlt_bool_false (x y : Q) : Qlt_bool x y = false <-> ~ (x < y)%Q.
Proof.
  rewrite <- Qlt_bool_true. now destruct (Qlt_bool x y).
Qed.

Lemma check_rate_limit_unfold (user_id : Z) (w : World) :
  _check_rate_limit user_id w =
  if Qlt_bool (clock w - default (0 : Q) (_last_upload w !! user_id)) 10
  then (Ret false, w)
  else (Ret true,
        set_last_upload (<[user_id := clock w]> (_last_upload w)) w).
Proof. reflexivity. Qed.

Lemma check_rate_limit_reject (user_id : Z) (w : World) :
  (clock w - default (0 : Q) (_last_upload w !! user_id) < 10)%Q ->
  _check_rate_limit user_id w = (Ret false, w).
Proof.
  intros H. rewrite check_rate_limit_unfold.
  apply Qlt_bool_true in H. now rewrite H.
Qed.

Lemma check_rate_limit_accept (user_id : Z) (w : World) :
  ~ (clock w - default (0 : Q) (_last_upload w !! user_id) < 10)%Q ->
  _check_rate_limit user_id w
  = (Ret true, set_last_upload (<[user_id := clock w]> (_last_upload w)) w).
Proof.
  intros H. rewrite check_rate_limit_unfold.
  apply Qlt_bool_false in H. now rewrite H.
Qed.

(** C3: with a stored timestamp less than 10 seconds old the check returns
    false and leaves the state unchanged; with one that is 10 seconds old or
    more it stores the current time for the identity and returns true.  An
    identity without entry counts as last accepted at time 0, so it is
    accepted at every clock reading from 10 seconds after the epoch on.  For
    two calls at times [t1] and [t2], the first one accepted: the second is
    rejected without update when [t2 - t1 < 10] and accepted with the
    timestamp [t2] stored otherwise. *)
Theorem check_rate_limit_spec (user_id : Z) (w : World) :
  (forall last,
      _last_upload w !! user_id = Some last ->
      (clock w - last < 10)%Q ->
      _check_rate_limit user_id w = (Ret false, w))
  /\ (forall last,
      _last_upload w !! user_id = Some last ->
      ~ (clock w - last < 10)%Q ->
      _check_rate_limit user_id w
      = (Ret true,
         set_last_upload (<[user_id := clock w]> (_last_upload w)) w))
  /\ (_last_upload w !! user_id = None ->
      (10 <= clock w)%Q ->
      _check_rate_limit user_id w
      = (Ret true,
         set_last_upload (<[user_id := clock w]> (_last_upload w)) w))
  /\ (forall t1 t2 : Q,
      let first := _check_rate_limit user_id (set_clock t1 w) in
      let w1 := set_clock t2 (snd first) in
      fst first = Ret true ->
      _last_upload w1 !! user_id = Some t1
      /\ ((t2 - t1 < 10)%Q ->
          _check_rate_limit user_id w1 = (Ret false, w1))
      /\ (~ (t2 - t1 < 10)%Q ->
          _check_rate_limit user_id w1
          = (Ret true,
             set_last_upload (<[user_id := t2]> (_last_upload w1)) w1))).
Proof.
  split; [|split; [|split]].
  - intros last Hl Hlt. apply check_rate_limit_reject. now rewrite Hl.
  - intros last Hl Hge. apply check_rate_limit_accept. now rewrite Hl.
  - intros Hl Hge. apply check_rate_limit_accept. rewrite Hl. simpl.
    intros Hlt. lra.
  - intros t1 t2 first w1 Hfirst.
    assert (Hmap : _last_upload w1 !! user_id = Some t1).
    { subst w1 first. revert Hfirst. rewrite check_rate_limit_unfold.
      destruct (Qlt_bool _ _); [discriminate|]. intros _. simpl.
      apply lookup_insert_eq. }
    split; [exact Hmap|]. split.
    + intros Hlt. apply check_rate_limit_reject. now rewrite Hmap.
    + intros Hge. apply check_rate_limit_accept. now rewrite Hmap.
Qed.

(** ** The remote client *)

Lemma make_github_request_unfold (method endpoint : str)
  (data : option dict) (w : World) :
  _make_github_request method endpoint data w =
  let req := github_request (github_token w) method endpoint data in
  let w' := set_requests (requests w ++ [req]) w in
  match remote w (requests w) req with
  | ClientError cause =>
      (Raise (Exception (JStr (u "Network error: " ++ cause))), w')
  | Response status result =>
      if (status =? 403) && mentions_rate_limit result then
        (Raise (Exception (JStr (u "Rate limit exceeded"))), w')
      else if 400 <=? status then
        (Raise (Exception
                  (default (JStr (u "HTTP " ++ str_of_int status))
                           (dict_get (u "message") result))), w')
      else (Ret result, w')
  end.
Proof.
  cbv [_make_github_request bind config_get try_except_ClientError
       session_request].
  destruct (remote w (requests w) _) as [cause|status result].
  - reflexivity.
  - cbv beta iota.
    destruct ((status =? 403) && mentions_rate_limit result);
      [reflexivity|].
    destruct (400 <=? status); reflexivity.
Qed.

Lemma make_github_request_world (method endpoint : str)
  (data : option dict) (w : World) :
  snd (_make_github_request method endpoint data w)
  = set_requests
      (requests w ++ [github_request (github_token w) method endpoint data])
      w.
Proof.
  rewrite make_github_request_unfold. cbv zeta.
  destruct (remote w (requests w) _) as [cause|status result];
    [reflexivity|].
  destruct ((status =? 403) && mentions_rate_limit result); [reflexivity|].
  destruct (400 <=? status); reflexivity.
Qed.

Lemma make_github_request_total (method endpoint : str)
  (data : option dict) (w : World) :
  fst (_make_github_request method endpoint data w) <> Diverge.
Proof.
  rewrite make_github_request_unfold. cbv zeta.
  destruct (remote w (requests w) _) as [cause|status result];
    [discriminate|].
  destruct ((status =? 403) && mentions_rate_limit result); [discriminate|].
  destruct (400 <=? status); discriminate.
Qed.

(** ** Token validation *)

Lemma get_github_username_world (w : World) :
  snd (_get_github_username w)
  = set_requests
      (requests w
       ++ [github_request (github_token w) (u "GET") (u "/user") None])
      w.
Proof.
  pose proof (make_github_request_world (u "GET") (u "/user") None w) as Hw.
  cbv [_get_github_username try_except bind getitem].
  destruct (_make_github_request _ _ _ w) as [[user_data|e|] w'];
    simpl in Hw; subst w'; try reflexivity.
  destruct (dict_get (u "login") user_data); reflexivity.
Qed.

Lemma get_github_username_total (w : World) :
  fst (_get_github_username w) <> Diverge.
Proof.
  pose proof (make_github_request_total (u "GET") (u "/user") None w) as Ht.
  cbv [_get_github_username try_except bind getitem].
  destruct (_make_github_request _ _ _ w) as [[user_data|e|] w'];
    simpl in Ht; try discriminate; try congruence.
  destruct (dict_get (u "login") user_data); discriminate.
Qed.

Lemma ghsetcmd_unfold (message : Message) (w : World) :
  args_raw message <> [] ->
  ghsetcmd message w =
  let w1 := set_github_token (strip (args_raw message)) w in
  match _get_github_username w1 with
  | (Ret _, w2) => (Ret tt, set_answers (answers w2 ++ [token_set]) w2)
  | (Raise _, w2) =>
      let w3 := set_github_token (github_token w) w2 in
      (Ret tt, set_answers (answers w3 ++ [invalid_token]) w3)
  | (Diverge, w2) => (Diverge, w2)
  end.
Proof.
  intros Hargs. unfold ghsetcmd.
  destruct (args_raw message) as [|c args]; [congruence|].
  cbv [py_not bind config_get config_set try_except utils_answer].
  cbv zeta.
  destruct (_get_github_username _) as [[login|e|] w2]; reflexivity.
Qed.

(** ** The upload command before the upload *)

Lemma ghuploadcmd_unfold (fuel : nat) (message : Message) (w : World) :
  ghuploadcmd fuel message w =
  if py_not (github_token w) then
    (Ret tt, set_answers (answers w ++ [no_token (cmd_prefix w)]) w)
  else if Qlt_bool (clock w - last_accepted (sender_id message) w) 10 then
    (Ret tt, set_answers (answers w ++ [rate_limit]) w)
  else
    let w1 :=
      set_last_upload (<[sender_id message := clock w]> (_last_upload w)) w in
    match attachment_check message with
    | inl a => (Ret tt, set_answers (answers w1 ++ [a]) w1)
    | inr file =>
        try_except (upload_body fuel file)
          (fun e => utils_answer (upload_error (exc_str e)))
          (set_answers (answers w1 ++ [uploading]) w1)
    end.
Proof.
  unfold ghuploadcmd, attachment_check, last_accepted.
  cbv [bind config_get get_prefix]. cbv beta iota.
  destruct (py_not (github_token w)); [reflexivity|].
  rewrite check_rate_limit_unfold.
  destruct (Qlt_bool _ 10); [reflexivity|].
  cbv [negb]. cbv zeta.
  destruct (reply_message message) as [reply|]; [|reflexivity].
  destruct (reply_file reply) as [file|]; [|reflexivity].
  destruct (max_file_size <? file_size file); reflexivity.
Qed.

(** C6: an upload request whose attachment is larger than 100 MiB makes no
    request to the remote API; when it passes the token check and the rate
    check it is answered with the file-too-large failure and nothing
    else. *)
Theorem ghuploadcmd_too_large (fuel : nat) (message : Message)
  (reply : Reply) (file : File) (w : World) :
  reply_message message = Some reply ->
  reply_file reply = Some file ->
  max_file_size < file_size file ->
  let r := ghuploadcmd fuel message w in
  requests (snd r) = requests w
  /\ (github_token w <> [] ->
      ~ (clock w - last_accepted (sender_id message) w < 10)%Q ->
      fst r = Ret tt /\ answers (snd r) = answers w ++ [file_too_large]).
Proof.
  intros Hreply Hfile Hsize r.
  assert (Hcheck : attachment_check message = inl file_too_large).
  { unfold attachment_check. rewrite Hreply, Hfile.
    apply Z.ltb_lt in Hsize. now rewrite Hsize. }
  subst r. rewrite ghuploadcmd_unfold, Hcheck. cbv zeta. split.
  - destruct (py_not (github_token w)); [reflexivity|].
    destruct (Qlt_bool _ 10); reflexivity.
  - intros Htoken Hrate.
    destruct (github_token w) as [|c t]; [congruence|].
    apply Qlt_bool_false in Hrate. rewrite Hrate. now split.
Qed.

(** C10: the timestamp of the sender is stored as soon as the rate check
    passes, before the attachment checks.  An upload request that passes
    the rate check and is then rejected for a missing or too large
    attachment makes no request to the remote API and still leaves its time
    as the last accepted one; the same sender's next request within 10
    seconds of it is answered with the rate-limit message. *)
Theorem rejected_upload_consumes_cooldown (fuel : nat) (message : Message)
  (a : Answer) (w : World) :
  github_token w <> [] ->
  ~ (clock w - last_accepted (sender_id message) w < 10)%Q ->
  attachment_check message = inl a ->
  let w' := snd (ghuploadcmd fuel message w) in
  (a = no_file \/ a = file_too_large)
  /\ answers w' = answers w ++ [a]
  /\ requests w' = requests w
  /\ _last_upload w' !! sender_id message = Some (clock w)
  /\ (forall (fuel2 : nat) (message2 : Message) (t2 : Q),
      sender_id message2 = sender_id message ->
      (t2 - clock w < 10)%Q ->
      let w'' := snd (ghuploadcmd fuel2 message2 (set_clock t2 w')) in
      answers w'' = answers w' ++ [rate_limit]
      /\ requests w'' = requests w'
      /\ _last_upload w'' = _last_upload w').
Proof.
  intros Htoken Hrate Hcheck w'.
  assert (Hw' : w' =
    let w1 :=
      set_last_upload (<[sender_id message := clock w]> (_last_upload w)) w in
    set_answers (answers w1 ++ [a]) w1).
  { subst w'. rewrite ghuploadcmd_unfold, Hcheck.
    destruct (github_token w) as [|c t]; [congruence|].
    apply Qlt_bool_false in Hrate. now rewrite Hrate. }
  cbv zeta in Hw'.
  split.
  { unfold attachment_check in Hcheck.
    destruct (reply_message message) as [reply|]; [|left; congruence].
    destruct (reply_file reply) as [file|]; [|left; congruence].
    destruct (max_file_size <? file_size file); [right|]; congruence. }
  rewrite Hw'. simpl.
  split; [reflexivity|]. split; [reflexivity|].
  split; [apply lookup_insert_eq|].
  intros fuel2 message2 t2 Hid Ht2.
  rewrite ghuploadcmd_unfold. simpl. rewrite Hid.
  destruct (github_token w) as [|c t]; [congruence|]. simpl.
  unfold last_accepted. simpl. rewrite lookup_insert_eq. simpl.
  apply Qlt_bool_true in Ht2. rewrite Ht2. simpl. now repeat split.
Qed.

(** ** The answers of the upload command *)

Lemma answers_extend_refl (w : World) : answers_extend w w.
Proof.
  exists []. split; [now rewrite app_nil_r | apply not_elem_of_nil].
Qed.

Lemma answers_extend_trans (w1 w2 w3 : World) :
  answers_extend w1 w2 -> answers_extend w2 w3 -> answers_extend w1 w3.
Proof.
  intros (l1 & E1 & H1) (l2 & E2 & H2). exists (l1 ++ l2). split.
  - now rewrite E2, E1, app_assoc.
  - rewrite elem_of_app. tauto.
Qed.

Lemma answers_extend_same (w w' : World) :
  answers w' = answers w -> answers_extend w w'.
Proof.
  intros E. exists []. split; [now rewrite app_nil_r | apply not_elem_of_nil].
Qed.

Lemma ni_ret {A} (a : A) : never_invalid (ret a).
Proof. intros w. apply answers_extend_refl. Qed.

Lemma ni_raise {A} (e : Exc) : never_invalid (@raise A e).
Proof. intros w. apply answers_extend_refl. Qed.

Lemma ni_diverge {A} : never_invalid (@diverge A).
Proof. intros w. apply answers_extend_refl. Qed.

Lemma ni_bind {A B} (m : M A) (k : A -> M B) :
  never_invalid m -> (forall a, never_invalid (k a)) ->
  never_invalid (bind m k).
Proof.
  intros Hm Hk w. unfold bind. specialize (Hm w).
  destruct (m w) as [[a|e|] w']; simpl in *; [|exact Hm|exact Hm].
  eapply answers_extend_trans; [exact Hm | apply Hk].
Qed.

Lemma ni_try_except {A} (m : M A) (h : Exc -> M A) :
  never_invalid m -> (forall e, never_invalid (h e)) ->
  never_invalid (try_except m h).
Proof.
  intros Hm Hh w. unfold try_except. specialize (Hm w).
  destruct (m w) as [[a|e|] w']; simpl in *; [exact Hm| |exact Hm].
  eapply answers_extend_trans; [exact Hm | apply Hh].
Qed.

Lemma ni_same {A} (m : M A) :
  (forall w, answers (snd (m w)) = answers w) -> never_invalid m.
Proof. intros H w. apply answers_extend_same, H. Qed.

Lemma ni_utils_answer (a : Answer) :
  a <> invalid_filename -> never_invalid (utils_answer a).
Proof.
  intros Ha w. exists [a]. split; [reflexivity|].
  rewrite elem_of_cons, elem_of_nil. intros [E|[]]. now apply Ha.
Qed.

Lemma ni_time_time : never_invalid time_time.
Proof. now apply ni_same. Qed.

Lemma ni_asyncio_sleep (d : Q) : never_invalid (asyncio_sleep d).
Proof. now apply ni_same. Qed.

Lemma ni_get_repo_name : never_invalid _get_repo_name.
Proof. now apply ni_same. Qed.

Lemma ni_make_github_request (method endpoint : str) (data : option dict) :
  never_invalid (_make_github_request method endpoint data).
Proof.
  apply ni_same. intros w. now rewrite make_github_request_world.
Qed.

Lemma ni_get_github_username : never_invalid _get_github_username.
Proof.
  apply ni_same. intros w. now rewrite get_github_username_world.
Qed.

Lemma ni_check_rate_limit (user_id : Z) :
  never_invalid (_check_rate_limit user_id).
Proof.
  apply ni_same. intros w. rewrite check_rate_limit_unfold.
  now destruct (Qlt_bool _ 10).
Qed.

Create HintDb ni.

#[local] Hint Resolve ni_ret ni_raise ni_diverge ni_time_time
  ni_asyncio_sleep ni_get_repo_name ni_make_github_request
  ni_get_github_username ni_check_rate_limit : ni.

(** One step through the structure of a coroutine. *)
Ltac ni_step :=
  lazymatch goal with
  | |- never_invalid (bind _ _) => apply ni_bind; [|intros ?]
  | |- never_invalid (try_except _ _) => apply ni_try_except; [|intros ?]
  | |- never_invalid (utils_answer _) => apply ni_utils_answer; discriminate
  | |- never_invalid (if ?b then _ else _) => destruct b
  | |- never_invalid (match ?x with _ => _ end) => destruct x
  | |- never_invalid _ => solve [auto with ni]
  end.

Lemma ni_repository_exists (username repo_name : str) :
  never_invalid (_repository_exists username repo_name).
Proof. unfold _repository_exists. repeat ni_step. Qed.

Lemma ni_create_repository (repo_name : str) :
  never_invalid (_create_repository repo_name).
Proof. unfold _create_repository. cbv zeta. repeat ni_step. Qed.

Lemma ni_unique_filename_loop (fuel : nat)
  (username repo_name name ext : str) (counter : Z) (current : str) :
  never_invalid
    (unique_filename_loop fuel username repo_name name ext counter current).
Proof.
  revert counter current.
  induction fuel as [|fuel IH]; intros counter current; simpl.
  - apply ni_diverge.
  - ni_step; [repeat ni_step|].
    destruct a; [apply IH | apply ni_ret].
Qed.

Lemma ni_get_unique_filename (fuel : nat) (username repo_name filename : str) :
  never_invalid (_get_unique_filename fuel username repo_name filename).
Proof.
  unfold _get_unique_filename. destruct (splitext filename) as [name ext].
  apply ni_unique_filename_loop.
Qed.

Lemma ni_upload_file (username repo_name filename content_b64 : str) :
  never_invalid (_upload_file username repo_name filename content_b64).
Proof.
  unfold _upload_file. ni_step; [repeat ni_step|].
  destruct a as [file_exists existing_sha]. cbv zeta. auto with ni.
Qed.

#[local] Hint Resolve ni_repository_exists ni_create_repository
  ni_get_unique_filename ni_upload_file : ni.

Lemma ni_upload_body (fuel : nat) (file : File) :
  never_invalid (upload_body fuel file).
Proof.
  unfold upload_body. cbv zeta.
  ni_step.
  { destruct (file_name file) as [[|c n]|]; repeat ni_step. }
  ni_step; [auto with ni|].
  rewrite sanitize_nonempty.
  repeat ni_step.
Qed.

Lemma ni_ghuploadcmd (fuel : nat) (message : Message) :
  never_invalid (ghuploadcmd fuel message).
Proof.
  unfold ghuploadcmd.
  ni_step; [now apply ni_same|].
  destruct (py_not a).
  - ni_step; [now apply ni_same|]. ni_step.
  - ni_step; [auto with ni|].
    destruct (negb a0); [ni_step|].
    destruct (reply_message message) as [reply|]; [|ni_step].
    destruct (reply_file reply) as [file|]; [|ni_step].
    destruct (max_file_size <? file_size file); [ni_step|].
    ni_step; [ni_step|].
    ni_step; [apply ni_upload_body | ni_step].
Qed.

(** C9: the sanitizer returns a non-empty string for every input, so the
    test that guards the invalid-filename answer never succeeds, and no run
    of the upload command sends that answer. *)
Theorem invalid_filename_unreachable :
  (forall (now : Z) (filename : str),
      _sanitize_filename now filename <> []
      /\ py_not (_sanitize_filename now filename) = false)
  /\ (forall (fuel : nat) (message : Message) (w : World),
      exists l,
        answers (snd (ghuploadcmd fuel message w)) = answers w ++ l
        /\ invalid_filename ∉ l).
Proof.
  split.
  - intros now filename. split.
    + apply sanitize_shape.
    + apply sanitize_nonempty.
  - intros fuel message w. apply ni_ghuploadcmd.
Qed.

(** ** The collision resolver *)

Lemma strip_prefix_app (p s : str) : strip_prefix p (p ++ s) = Some s.
Proof.
  induction p as [|a p IH]; simpl.
  - now destruct s.
  - now rewrite N.eqb_refl.
Qed.

Lemma contents_url (username repo_name filename : str) :
  u "https://api.github.com" ++ contents_endpoint username repo_name filename
  = contents_prefix username repo_name ++ filename.
Proof.
  unfold contents_endpoint, contents_prefix.
  now rewrite <- !app_assoc.
Qed.

Lemma contents_remote_answer (username repo_name : str) (files : gset str)
  (token filename : str) (log : list Request) :
  contents_remote username repo_name files log
    (github_request token (u "GET")
       (contents_endpoint username repo_name filename) None)
  = if bool_decide (filename ∈ files) then
      Response 200 [(u "name", JStr filename); (u "sha", JStr (u "0"))]
    else not_found.
Proof.
  unfold contents_remote, github_request. cbn [req_url req_method].
  rewrite contents_url, strip_prefix_app.
  rewrite (bool_decide_eq_true_2 (u "GET" = u "GET")) by reflexivity.
  reflexivity.
Qed.

Lemma probe_contents (username repo_name : str) (files : gset str)
  (filename : str) (w : World) :
  remote w = contents_remote username repo_name files ->
  try_except
    (let* _ :=
       _make_github_request (u "GET")
         (contents_endpoint username repo_name filename) None in
     ret true)
    (fun _ => ret false) w
  = (Ret (bool_decide (filename ∈ files)),
     set_requests
       (requests w
        ++ [github_request (github_token w) (u "GET")
              (contents_endpoint username repo_name filename) None])
       w).
Proof.
  intros Hr. unfold try_except, bind.
  rewrite make_github_request_unfold. cbv zeta.
  rewrite Hr, contents_remote_answer.
  destruct (bool_decide (filename ∈ files)); reflexivity.
Qed.

Lemma unique_filename_loop_finds (username repo_name : str)
  (files : gset str) (filename : str) (n : nat) :
  forall (j fuel : nat) (w : World),
    remote w = contents_remote username repo_name files ->
    (forall i, (j <= i < j + n)%nat -> candidate filename i ∈ files) ->
    candidate filename (j + n) ∉ files ->
    (n < fuel)%nat ->
    fst (unique_filename_loop fuel username repo_name
           (fst (splitext filename)) (snd (splitext filename))
           (Z.of_nat j) (candidate filename j) w)
    = Ret (candidate filename (j + n)).
Proof.
  induction n as [|n IH]; intros j fuel w Hr Hin Hout Hfuel.
  - destruct fuel as [|fuel]; [lia|].
    cbn [unique_filename_loop]. unfold bind at 1.
    rewrite (probe_contents _ _ _ _ _ Hr).
    rewrite Nat.add_0_r in *.
    now rewrite (bool_decide_eq_false_2 _ Hout).
  - destruct fuel as [|fuel]; [lia|].
    cbn [unique_filename_loop]. unfold bind at 1.
    rewrite (probe_contents _ _ _ _ _ Hr).
    rewrite (bool_decide_eq_true_2 (candidate filename j ∈ files))
      by (apply Hin; lia).
    replace (Z.of_nat j + 1) with (Z.of_nat (S j)) by lia.
    change (fst (splitext filename) ++ u "_" ++ str_of_int (Z.of_nat (S j))
            ++ snd (splitext filename))
      with (candidate filename (S j)).
    replace (j + S n)%nat with (S j + n)%nat by lia.
    apply IH.
    + exact Hr.
    + intros i Hi. apply Hin. lia.
    + now replace (S j + n)%nat with (j + S n)%nat by lia.
    + lia.
Qed.

Lemma get_unique_filename_finds (username repo_name : str)
  (files : gset str) (filename : str) (k fuel : nat) (w : World) :
  remote w = contents_remote username repo_name files ->
  (forall j, (j < k)%nat -> candidate filename j ∈ files) ->
  candidate filename k ∉ files ->
  (k < fuel)%nat ->
  fst (_get_unique_filename fuel username repo_name filename w)
  = Ret (candidate filename k).
Proof.
  intros Hr Hin Hout Hfuel. unfold _get_unique_filename.
  pose proof (unique_filename_loop_finds username repo_name files filename
                k 0 fuel w Hr) as H.
  destruct (splitext filename) as [name ext]. apply H.
  - intros i Hi. apply Hin. lia.
  - exact Hout.
  - exact Hfuel.
Qed.

Lemma least_free_candidate (files : gset str) (filename : str) (m : nat) :
  (exists k, (k <= m)%nat
             /\ (forall j, (j < k)%nat -> candidate filename j ∈ files)
             /\ candidate filename k ∉ files)
  \/ (forall j, (j <= m)%nat -> candidate filename j ∈ files).
Proof.
  induction m as [|m IH].
  - destruct (decide (candidate filename 0 ∈ files)) as [Hin|Hout].
    + right. intros j Hj. now replace j with 0%nat by lia.
    + left. exists 0%nat. split; [lia|]. split; [intros j Hj; lia | exact Hout].
  - destruct IH as [(k & Hk & Hin & Hout)|Hall].
    + left. exists k. split; [lia|]. now split.
    + destruct (decide (candidate filename (S m) ∈ files)) as [Hin|Hout].
      * right. intros j Hj.
        destruct (decide (j = S m)) as [->|Hne]; [exact Hin|].
        apply Hall. lia.
      * left. exists (S m). split; [lia|]. split; [|exact Hout].
        intros j Hj. apply Hall. lia.
Qed.

(** C4: when some candidate of the sequence [filename], [stem_1ext],
    [stem_2ext], ... is free in the repository, the resolver returns the
    first candidate whose lookup fails: every candidate before it is in the
    repository and it is not (the fuel covers the probes up to the free
    candidate).  In particular, with [a.txt] and [a_1.txt] in the repository
    and [a_2.txt] not, resolving [a.txt] returns [a_2.txt]. *)
Theorem get_unique_filename_first_free (username repo_name : str)
  (files : gset str) (fuel : nat) (w : World) :
  remote w = contents_remote username repo_name files ->
  (forall (filename : str) (m : nat),
      candidate filename m ∉ files ->
      (m < fuel)%nat ->
      exists k,
        (k <= m)%nat
        /\ (forall j, (j < k)%nat -> candidate filename j ∈ files)
        /\ (candidate filename k ∉ files)
        /\ fst (_get_unique_filename fuel username repo_name filename w)
           = Ret (candidate filename k))
  /\ (u "a.txt" ∈ files -> u "a_1.txt" ∈ files -> u "a_2.txt" ∉ files ->
      (2 < fuel)%nat ->
      fst (_get_unique_filename fuel username repo_name (u "a.txt") w)
      = Ret (u "a_2.txt")).
Proof.
  intros Hr. split.
  - intros filename m Hfree Hfuel.
    destruct (least_free_candidate files filename m)
      as [(k & Hk & Hin & Hout)|Hall].
    + exists k. split; [exact Hk|]. split; [exact Hin|]. split; [exact Hout|].
      apply (get_unique_filename_finds username repo_name files);
        try assumption.
      lia.
    + exfalso. apply Hfree, Hall. lia.
  - intros H0 H1 H2 Hfuel.
    apply (get_unique_filename_finds username repo_name files (u "a.txt") 2);
      try assumption.
    intros j Hj.
    assert (Hc : j = 0%nat \/ j = 1%nat) by lia.
    destruct Hc as [-> | ->]; assumption.
Qed.

(** * Further properties of the module *)

(** ** The repository name *)

Lemma str_of_uint_inj (d d' : Decimal.uint) :
  str_of_uint d = str_of_uint d' -> d = d'.
Proof.
  revert d'. induction d; intros d'; destruct d'; simpl; intros H;
    try discriminate; try reflexivity;
    injection H as H; f_equal; auto.
Qed.

Lemma str_of_uint_no_sign (d : Decimal.uint) (s : str) :
  str_of_uint d <> MINUS :: s.
Proof. destruct d; discriminate. Qed.

Lemma str_of_int_inj (z z' : Z) : str_of_int z = str_of_int z' -> z = z'.
Proof.
  unfold str_of_int. intros H. apply DecimalZ.to_int_inj.
  destruct (Z.to_int z) as [d|d], (Z.to_int z') as [d'|d'].
  - f_equal. now apply str_of_uint_inj.
  - exfalso. exact (str_of_uint_no_sign _ _ H).
  - exfalso. symmetry in H. exact (str_of_uint_no_sign _ _ H).
  - injection H as H. f_equal. now apply str_of_uint_inj.
Qed.

(** X1: the repository name is [git-{id}-files] for the account of the
    session, computing it changes nothing, and two accounts share a
    repository name only when they are the same account. *)
Theorem get_repo_name_injective (w w' : World) :
  _get_repo_name w
  = (Ret (u "git-" ++ str_of_int (me_id w) ++ u "-files"), w)
  /\ (fst (_get_repo_name w) = fst (_get_repo_name w') ->
      me_id w = me_id w').
Proof.
  split; [reflexivity|].
  unfold _get_repo_name. simpl. intros H. injection H as H.
  apply app_inv_tail in H. now apply str_of_int_inj.
Qed.

(** ** The sanitizer, further *)

(** X2: the result of the sanitizer holds no space and none of the seven
    replaced characters, and neither starts nor ends with whitespace. *)
Theorem sanitize_output_clean (now : Z) (filename : str) :
  let out := _sanitize_filename now filename in
  Forall (fun c => c <> SPACE /\ c ∉ SanitizeSpec.forbidden) out
  /\ lstrip out = out
  /\ rstrip out = out.
Proof.
  destruct (sanitize_shape now filename) as (_ & Hk & Hs).
  cbv zeta. split; [exact Hk|].
  set (out := _sanitize_filename now filename) in *.
  assert (Hl : lstrip out = out).
  { rewrite <- Hs. unfold strip. rewrite <- lstrip_rstrip. apply lstrip_idem. }
  split; [exact Hl|].
  rewrite <- Hs at 2. unfold strip. now rewrite Hl.
Qed.

(** X3: a name that needs no change gets none: a non-empty name without
    space, without any of the seven replaced characters and without
    whitespace at either end is returned as it is. *)
Theorem sanitize_fixed (now : Z) (filename : str) :
  filename <> [] ->
  Forall (fun c => c <> SPACE /\ c ∉ SanitizeSpec.forbidden) filename ->
  strip filename = filename ->
  _sanitize_filename now filename = filename.
Proof.
  intros Hne Hk Hs. rewrite sanitize_unfold.
  unfold SanitizeSpec.sanitize, SanitizeSpec.trim, SanitizeSpec.substitute.
  rewrite (kept_fixed filename Hk).
  assert (Hb : SanitizeSpec.blank filename = false).
  { rewrite blank_forallb.
    destruct (forallb is_space filename) eqn:E; [|reflexivity].
    apply strip_nil_iff in E. congruence. }
  now rewrite Hb.
Qed.

(** ** The candidates of the collision resolver *)

Lemma splitext_app (p : str) : fst (splitext p) ++ snd (splitext p) = p.
Proof.
  unfold splitext.
  destruct (_ && _); simpl; [apply take_drop | apply app_nil_r].
Qed.

Lemma candidate_succ (filename : str) (k : nat) :
  candidate filename (S k)
  = fst (splitext filename)
    ++ u "_" ++ str_of_int (Z.of_nat (S k)) ++ snd (splitext filename).
Proof. reflexivity. Qed.

Lemma candidate_succ_not_filename (filename : str) (k : nat) :
  candidate filename (S k) <> filename.
Proof.
  rewrite candidate_succ. intros H.
  apply (f_equal (@length N)) in H.
  rewrite <- (splitext_app filename) in H at 3.
  rewrite !length_app in H. simpl in H. lia.
Qed.

(** X4: the candidates are pairwise distinct, so the resolver never probes a
    name twice; and the stem and the extension it splits the name into give
    the name back when put together. *)
Theorem candidate_injective (filename : str) (j k : nat) :
  fst (splitext filename) ++ snd (splitext filename) = filename
  /\ (candidate filename j = candidate filename k -> j = k).
Proof.
  split; [apply splitext_app|].
  destruct j as [|j], k as [|k]; intros H.
  - reflexivity.
  - exfalso. symmetry in H. exact (candidate_succ_not_filename _ _ H).
  - exfalso. exact (candidate_succ_not_filename _ _ H).
  - rewrite !candidate_succ in H.
    apply app_inv_head in H. apply app_inv_head in H.
    apply app_inv_tail in H. apply str_of_int_inj in H. lia.
Qed.

(** ** Requests that succeed and requests that fail *)

Lemma make_github_request_ok (method endpoint : str) (data : option dict)
  (w : World) (status : Z) (result : dict) :
  remote w (requests w) (github_request (github_token w) method endpoint data)
  = Response status result ->
  status < 400 ->
  _make_github_request method endpoint data w
  = (Ret result,
     set_requests
       (requests w ++ [github_request (github_token w) method endpoint data])
       w).
Proof.
  intros Hr Hs. rewrite make_github_request_unfold. cbv zeta. rewrite Hr.
  destruct (Z.eqb_spec status 403) as [->|_]; [lia|]. simpl.
  destruct (Z.leb_spec 400 status); [lia|reflexivity].
Qed.

Lemma make_github_request_raises (method endpoint : str)
  (data : option dict) (w : World) :
  outcome_fails
    (remote w (requests w)
       (github_request (github_token w) method endpoint data)) = true ->
  exists e,
    _make_github_request method endpoint data w
    = (Raise e,
       set_requests
         (requests w ++ [github_request (github_token w) method endpoint data])
         w).
Proof.
  intros Hf. rewrite make_github_request_unfold. cbv zeta.
  destruct (remote w (requests w) _) as [cause|status result].
  - eauto.
  - simpl in Hf.
    destruct ((status =? 403) && mentions_rate_limit result); [eauto|].
    rewrite Hf. eauto.
Qed.

Lemma make_github_request_cases (method endpoint : str)
  (data : option dict) (w : World) :
  let req := github_request (github_token w) method endpoint data in
  let w' := set_requests (requests w ++ [req]) w in
  (exists status result,
      remote w (requests w) req = Response status result
      /\ status < 400
      /\ _make_github_request method endpoint data w = (Ret result, w'))
  \/ (outcome_fails (remote w (requests w) req) = true
      /\ exists e, _make_github_request method endpoint data w = (Raise e, w')).
Proof.
  intros req w'.
  destruct (outcome_fails (remote w (requests w) req)) eqn:Hf.
  - right. split; [reflexivity|]. now apply make_github_request_raises.
  - left. destruct (remote w (requests w) req) as [cause|status result] eqn:Hr;
      [discriminate|].
    simpl in Hf. apply Z.leb_gt in Hf.
    exists status, result. split; [reflexivity|]. split; [exact Hf|].
    exact (make_github_request_ok _ _ _ _ _ _ Hr Hf).
Qed.

(** X5: a call returns exactly when the response has a status below 400,
    and then it returns the decoded body as it is; in every other case it
    raises.  Either way it logs its one request and changes nothing else. *)
Theorem make_github_request_returns_iff (method endpoint : str)
  (data : option dict) (w : World) (result : dict) :
  let req := github_request (github_token w) method endpoint data in
  (fst (_make_github_request method endpoint data w) = Ret result
   <-> exists status,
       remote w (requests w) req = Response status result /\ status < 400)
  /\ ((exists e, fst (_make_github_request method endpoint data w) = Raise e)
      <-> outcome_fails (remote w (requests w) req) = true)
  /\ snd (_make_github_request method endpoint data w)
     = set_requests (requests w ++ [req]) w.
Proof.
  intros req.
  destruct (make_github_request_cases method endpoint data w)
    as [(status & res & Hr & Hs & E)|(Hf & e & E)];
    fold req in Hr || fold req in Hf; rewrite E; simpl.
  - split; [|split; [|reflexivity]].
    + split.
      * intros H. injection H as <-. eauto.
      * intros (status' & Hr' & _). congruence.
    + rewrite Hr. simpl. split.
      * intros (e & He). discriminate.
      * intros H. apply Z.leb_le in H. lia.
  - split; [|split; [|reflexivity]].
    + split; [discriminate|].
      intros (status & Hr & Hs). rewrite Hr in Hf. simpl in Hf.
      apply Z.leb_le in Hf. lia.
    + split; [intros _; exact Hf | eauto].
Qed.

(** ** The repository check *)

(** X6: the repository check never raises.  It makes one lookup and returns
    true exactly when the response has a status below 400; a transport error
    and any status of 400 or more, whatever the reason, both read as
    absent. *)
Theorem repository_exists_total (username repo_name : str) (w : World) :
  let req :=
    github_request (github_token w) (u "GET")
      (u "/repos/" ++ username ++ u "/" ++ repo_name) None in
  _repository_exists username repo_name w
  = (Ret (negb (outcome_fails (remote w (requests w) req))),
     set_requests (requests w ++ [req]) w).
Proof.
  intros req. unfold _repository_exists, try_except, bind.
  destruct (make_github_request_cases (u "GET")
              (u "/repos/" ++ username ++ u "/" ++ repo_name) None w)
    as [(status & res & Hr & Hs & E)|(Hf & e & E)];
    fold req in Hr || fold req in Hf; rewrite E.
  - rewrite Hr. simpl. destruct (Z.leb_spec 400 status); [lia|reflexivity].
  - rewrite Hf. reflexivity.
Qed.

(** ** The identity lookup *)

(** X7: the identity lookup returns the [login] field of a response with a
    status below 400.  Every failure is raised again with the prefix
    [Failed to get username: ]: a failed request with the text of its
    exception, and a body without [login] with the quoted key. *)
Theorem get_github_username_cases (w : World) :
  let req := github_request (github_token w) (u "GET") (u "/user") None in
  let w' := set_requests (requests w ++ [req]) w in
  (forall status result login,
      remote w (requests w) req = Response status result ->
      status < 400 ->
      dict_get (u "login") result = Some login ->
      _get_github_username w = (Ret login, w'))
  /\ (forall status result,
      remote w (requests w) req = Response status result ->
      status < 400 ->
      dict_get (u "login") result = None ->
      _get_github_username w
      = (Raise (Exception (JStr (u "Failed to get username: 'login'"))), w'))
  /\ (outcome_fails (remote w (requests w) req) = true ->
      exists e,
        fst (_make_github_request (u "GET") (u "/user") None w) = Raise e
        /\ _get_github_username w
           = (Raise (Exception
                       (JStr (u "Failed to get username: " ++ exc_str e))),
              w'))
  /\ (forall e, fst (_get_github_username w) = Raise e ->
      exists text,
        e = Exception (JStr (u "Failed to get username: " ++ text))).
Proof.
  intros req w'.
  assert (Hok : forall status result,
             remote w (requests w) req = Response status result ->
             status < 400 ->
             _get_github_username w
             = match dict_get (u "login") result with
               | Some login => (Ret login, w')
               | None =>
                   (Raise (Exception
                             (JStr (u "Failed to get username: 'login'"))), w')
               end).
  { intros status result Hr Hs.
    unfold _get_github_username, try_except, bind, getitem.
    rewrite (make_github_request_ok _ _ _ _ _ _ Hr Hs).
    destruct (dict_get (u "login") result); reflexivity. }
  split; [|split; [|split]].
  - intros status result login Hr Hs Hl.
    rewrite (Hok _ _ Hr Hs). now rewrite Hl.
  - intros status result Hr Hs Hl.
    rewrite (Hok _ _ Hr Hs). now rewrite Hl.
  - intros Hf.
    destruct (make_github_request_raises _ _ _ _ Hf) as [e E].
    exists e. unfold _get_github_username, try_except, bind.
    rewrite E. split; reflexivity.
  - intros e.
    destruct (make_github_request_cases (u "GET") (u "/user") None w)
      as [(status & res & Hr & Hs & E)|(Hf & e' & E)].
    + rewrite (Hok _ _ Hr Hs).
      destruct (dict_get (u "login") res); [discriminate|].
      simpl. intros H. injection H as <-. now exists (u "'login'").
    + unfold _get_github_username, try_except, bind. rewrite E. simpl.
      intros H. injection H as <-. now exists (exc_str e').
Qed.

(** ** The collision resolver, further *)

Lemma set_requests_same (w : World) : set_requests (requests w) w = w.
Proof. now destruct w. Qed.

Lemma probes_cons (token username repo_name filename : str) (j n : nat) :
  probes token username repo_name filename j (S n)
  = github_request token (u "GET")
      (contents_endpoint username repo_name (candidate filename j)) None
    :: probes token username repo_name filename (S j) n.
Proof. reflexivity. Qed.

Lemma unique_filename_loop_run (username repo_name : str) (files : gset str)
  (filename : str) (fuel : nat) :
  forall (j : nat) (w : World),
    remote w = contents_remote username repo_name files ->
    let run :=
      unique_filename_loop fuel username repo_name
        (fst (splitext filename)) (snd (splitext filename))
        (Z.of_nat j) (candidate filename j) w in
    let log n :=
      set_requests
        (requests w
         ++ probes (github_token w) username repo_name filename j n) w in
    (exists n, (n < fuel)%nat
               /\ (forall i, (j <= i < j + n)%nat ->
                             candidate filename i ∈ files)
               /\ (candidate filename (j + n) ∉ files)
               /\ run = (Ret (candidate filename (j + n)), log (S n)))
    \/ ((forall i, (j <= i < j + fuel)%nat -> candidate filename i ∈ files)
        /\ run = (Diverge, log fuel)).
Proof.
  induction fuel as [|fuel IH]; intros j w Hr run log.
  - right. split; [intros i Hi; lia|].
    subst run log. simpl. unfold diverge, probes. simpl.
    now rewrite app_nil_r, set_requests_same.
  - set (w1 :=
           set_requests
             (requests w
              ++ [github_request (github_token w) (u "GET")
                    (contents_endpoint username repo_name
                       (candidate filename j)) None]) w).
    assert (Hrun : run =
      if bool_decide (candidate filename j ∈ files) then
        unique_filename_loop fuel username repo_name
          (fst (splitext filename)) (snd (splitext filename))
          (Z.of_nat (S j)) (candidate filename (S j)) w1
      else (Ret (candidate filename j), w1)).
    { subst run. cbn [unique_filename_loop]. unfold bind at 1.
      rewrite (probe_contents _ _ _ _ _ Hr). fold w1.
      destruct (bool_decide (candidate filename j ∈ files)); [|reflexivity].
      cbv beta iota zeta.
      replace (Z.of_nat j + 1) with (Z.of_nat (S j)) by lia.
      reflexivity. }
    rewrite Hrun. clear Hrun.
    destruct (decide (candidate filename j ∈ files)) as [Hin|Hout].
    + rewrite (bool_decide_eq_true_2 _ Hin).
      destruct (IH (S j) w1 Hr) as [(n & Hn & Hall & Hfree & E)|(Hall & E)].
      * left. exists (S n). split; [lia|]. split.
        { intros i Hi. destruct (decide (i = j)) as [->|Hne]; [exact Hin|].
          apply Hall. lia. }
        split; [now replace (j + S n)%nat with (S j + n)%nat by lia|].
        rewrite E. replace (j + S n)%nat with (S j + n)%nat by lia.
        f_equal. subst log w1. cbv beta.
        rewrite (probes_cons _ _ _ _ j (S n)). simpl.
        now rewrite <- app_assoc.
      * right. split.
        { intros i Hi. destruct (decide (i = j)) as [->|Hne]; [exact Hin|].
          apply Hall. lia. }
        rewrite E. f_equal. subst log w1. cbv beta.
        rewrite (probes_cons _ _ _ _ j fuel). simpl.
        now rewrite <- app_assoc.
    + rewrite (bool_decide_eq_false_2 _ Hout).
      left. exists 0%nat. split; [lia|]. split; [intros i Hi; lia|].
      rewrite Nat.add_0_r. split; [exact Hout|]. reflexivity.
Qed.

Lemma get_unique_filename_run (username repo_name : str) (files : gset str)
  (filename : str) (fuel : nat) (w : World) :
  remote w = contents_remote username repo_name files ->
  let run := _get_unique_filename fuel username repo_name filename w in
  let log n :=
    set_requests
      (requests w
       ++ probes (github_token w) username repo_name filename 0 n) w in
  (exists k, (k < fuel)%nat
             /\ (forall i, (i < k)%nat -> candidate filename i ∈ files)
             /\ (candidate filename k ∉ files)
             /\ run = (Ret (candidate filename k), log (S k)))
  \/ ((forall i, (i < fuel)%nat -> candidate filename i ∈ files)
      /\ run = (Diverge, log fuel)).
Proof.
  intros Hr run log.
  pose proof (unique_filename_loop_run username repo_name files filename
                fuel 0 w Hr) as H.
  cbv zeta in H. subst run. unfold _get_unique_filename.
  destruct (splitext filename) as [name ext]. simpl in H.
  destruct H as [(n & Hn & Hall & Hfree & E)|(Hall & E)].
  - left. exists n. split; [exact Hn|].
    split; [intros i Hi; apply Hall; lia|]. now split.
  - right. split; [intros i Hi; apply Hall; lia | exact E].
Qed.

(** X8: whatever the fuel, the resolver never raises, and a name it returns
    is not in the repository at the time of the check: it is a candidate,
    and every candidate before it is in the repository. *)
Theorem get_unique_filename_sound (username repo_name : str)
  (files : gset str) (filename : str) (fuel : nat) (w : World) :
  remote w = contents_remote username repo_name files ->
  (forall e,
      fst (_get_unique_filename fuel username repo_name filename w)
      <> Raise e)
  /\ (forall name,
      fst (_get_unique_filename fuel username repo_name filename w)
      = Ret name ->
      (name ∉ files)
      /\ exists k, name = candidate filename k
                   /\ forall i, (i < k)%nat -> candidate filename i ∈ files).
Proof.
  intros Hr.
  destruct (get_unique_filename_run username repo_name files filename fuel w Hr)
    as [(k & Hk & Hall & Hfree & E)|(Hall & E)]; rewrite E; simpl.
  - split; [discriminate|]. intros name H. injection H as <-.
    split; [exact Hfree|]. now exists k.
  - split; discriminate.
Qed.

(** X9: the probing has no bound of its own.  For any number [n], when
    the repository holds the first [n] candidates the resolver probes all
    of them, one request each, and is not finished after these [n]
    rounds. *)
Theorem get_unique_filename_diverges (username repo_name : str)
  (files : gset str) (filename : str) (n : nat) (w : World) :
  remote w = contents_remote username repo_name files ->
  (forall k, (k < n)%nat -> candidate filename k ∈ files) ->
  _get_unique_filename n username repo_name filename w
  = (Diverge,
     set_requests
       (requests w
        ++ probes (github_token w) username repo_name filename 0 n) w).
Proof.
  intros Hr Hall.
  destruct (get_unique_filename_run username repo_name files filename n w Hr)
    as [(k & Hk & _ & Hfree & _)|(_ & E)].
  - exfalso. apply Hfree, Hall, Hk.
  - exact E.
Qed.

(** X10: the resolver that returns the candidate number [k] has made
    exactly [k + 1] requests, the lookups of the candidates 0 to [k] in
    order, and has changed nothing else. *)
Theorem get_unique_filename_probes (username repo_name : str)
  (files : gset str) (filename : str) (fuel k : nat) (w : World) :
  remote w = contents_remote username repo_name files ->
  (forall i, (i < k)%nat -> candidate filename i ∈ files) ->
  candidate filename k ∉ files ->
  (k < fuel)%nat ->
  snd (_get_unique_filename fuel username repo_name filename w)
  = set_requests
      (requests w
       ++ probes (github_token w) username repo_name filename 0 (S k)) w
  /\ length (probes (github_token w) username repo_name filename 0 (S k))
     = S k.
Proof.
  intros Hr Hall Hfree Hfuel. split.
  - destruct (get_unique_filename_run username repo_name files filename
                fuel w Hr)
      as [(k' & Hk' & Hall' & Hfree' & E)|(Hall' & E)].
    + assert (k' = k) as ->.
      { destruct (Nat.lt_trichotomy k' k) as [Hlt|[Heq|Hgt]];
          [|exact Heq|].
        - exfalso. apply Hfree', Hall, Hlt.
        - exfalso. apply Hfree, Hall', Hgt. }
      now rewrite E.
    + exfalso. apply Hfree, Hall', Hfuel.
  - unfold probes. now rewrite length_map, length_seq.
Qed.

(** X11: a lookup that fails reads as a free name, whatever the reason.
    When the first probe meets a transport error or a status of 400 or more
    (a throttled or unauthorised request as well as a missing file), the
    resolver returns the filename itself after this one request. *)
Theorem get_unique_filename_failure_is_free (username repo_name : str)
  (filename : str) (fuel : nat) (w : World) :
  let req :=
    github_request (github_token w) (u "GET")
      (contents_endpoint username repo_name filename) None in
  (0 < fuel)%nat ->
  outcome_fails (remote w (requests w) req) = true ->
  _get_unique_filename fuel username repo_name filename w
  = (Ret filename, set_requests (requests w ++ [req]) w).
Proof.
  intros req Hfuel Hf. unfold _get_unique_filename.
  destruct (splitext filename) as [name ext].
  destruct fuel as [|fuel]; [lia|].
  cbn [unique_filename_loop]. unfold bind at 1. unfold try_except, bind.
  destruct (make_github_request_raises _ _ _ _ Hf) as [e E].
  now rewrite E.
Qed.

(** ** What the helpers leave alone *)

Lemma quiet_refl (w : World) : quiet w w.
Proof. now repeat split. Qed.

Lemma quiet_trans (w1 w2 w3 : World) :
  quiet w1 w2 -> quiet w2 w3 -> quiet w1 w3.
Proof.
  unfold quiet. intros (A1 & A2 & A3 & A4 & A5 & A6) (B1 & B2 & B3 & B4 & B5 & B6).
  repeat split; congruence.
Qed.

Lemma quiet_set_requests (l : list Request) (w : World) :
  quiet w (set_requests l w).
Proof. now repeat split. Qed.

Lemma qm_ret {A} (a : A) : quiet_m (ret a).
Proof. intros w. apply quiet_refl. Qed.

Lemma qm_raise {A} (e : Exc) : quiet_m (@raise A e).
Proof. intros w. apply quiet_refl. Qed.

Lemma qm_diverge {A} : quiet_m (@diverge A).
Proof. intros w. apply quiet_refl. Qed.

Lemma qm_bind {A B} (m : M A) (k : A -> M B) :
  quiet_m m -> (forall a, quiet_m (k a)) -> quiet_m (bind m k).
Proof.
  intros Hm Hk w. unfold bind. specialize (Hm w).
  destruct (m w) as [[a|e|] w']; simpl in *; [|exact Hm|exact Hm].
  eapply quiet_trans; [exact Hm | apply Hk].
Qed.

Lemma qm_try_except {A} (m : M A) (h : Exc -> M A) :
  quiet_m m -> (forall e, quiet_m (h e)) -> quiet_m (try_except m h).
Proof.
  intros Hm Hh w. unfold try_except. specialize (Hm w).
  destruct (m w) as [[a|e|] w']; simpl in *; [exact Hm| |exact Hm].
  eapply quiet_trans; [exact Hm | apply Hh].
Qed.

Lemma qm_time_time : quiet_m time_time.
Proof. intros w. apply quiet_refl. Qed.

Lemma qm_asyncio_sleep (d : Q) : quiet_m (asyncio_sleep d).
Proof. intros w. now repeat split. Qed.

Lemma qm_get_repo_name : quiet_m _get_repo_name.
Proof. intros w. apply quiet_refl. Qed.

Lemma qm_make_github_request (method endpoint : str) (data : option dict) :
  quiet_m (_make_github_request method endpoint data).
Proof.
  intros w. rewrite make_github_request_world. apply quiet_set_requests.
Qed.

Lemma qm_getitem (d : dict) (key : str) : quiet_m (getitem d key).
Proof.
  unfold getitem. destruct (dict_get key d); [apply qm_ret | apply qm_raise].
Qed.

Create HintDb qm.

#[local] Hint Resolve qm_ret qm_raise qm_diverge qm_time_time
  qm_asyncio_sleep qm_get_repo_name qm_make_github_request qm_getitem : qm.

(** One step through the structure of a quiet coroutine. *)
Ltac qm_step :=
  lazymatch goal with
  | |- quiet_m (bind _ _) => apply qm_bind; [|intros ?]
  | |- quiet_m (try_except _ _) => apply qm_try_except; [|intros ?]
  | |- quiet_m (if ?b then _ else _) => destruct b
  | |- quiet_m (match ?x with _ => _ end) => destruct x
  | |- quiet_m _ => solve [auto with qm]
  end.

Lemma qm_get_github_username : quiet_m _get_github_username.
Proof. unfold _get_github_username. repeat qm_step. Qed.

Lemma qm_repository_exists (username repo_name : str) :
  quiet_m (_repository_exists username repo_name).
Proof. unfold _repository_exists. repeat qm_step. Qed.

Lemma qm_create_repository (repo_name : str) :
  quiet_m (_create_repository repo_name).
Proof. unfold _create_repository. cbv zeta. repeat qm_step. Qed.

Lemma qm_unique_filename_loop (fuel : nat)
  (username repo_name name ext : str) (counter : Z) (current : str) :
  quiet_m
    (unique_filename_loop fuel username repo_name name ext counter current).
Proof.
  revert counter current.
  induction fuel as [|fuel IH]; intros counter current; simpl.
  - apply qm_diverge.
  - qm_step; [repeat qm_step|].
    destruct a; [apply IH | apply qm_ret].
Qed.

Lemma qm_get_unique_filename (fuel : nat)
  (username repo_name filename : str) :
  quiet_m (_get_unique_filename fuel username repo_name filename).
Proof.
  unfold _get_unique_filename. destruct (splitext filename) as [name ext].
  apply qm_unique_filename_loop.
Qed.

Lemma qm_upload_file (username repo_name filename content_b64 : str) :
  quiet_m (_upload_file username repo_name filename content_b64).
Proof.
  unfold _upload_file. qm_step; [repeat qm_step|].
  destruct a as [file_exists existing_sha]. cbv zeta. auto with qm.
Qed.

(** X12: the identity lookup, the repository check, the repository
    creation, the collision resolver and the file upload change the request
    log and the clock only: none of them answers the chat, changes the
    active token or touches the rate limiter. *)
Theorem helpers_are_quiet (fuel : nat)
  (username repo_name filename content_b64 : str) (w : World) :
  quiet w (snd (_get_github_username w))
  /\ quiet w (snd (_repository_exists username repo_name w))
  /\ quiet w (snd (_create_repository repo_name w))
  /\ quiet w (snd (_get_unique_filename fuel username repo_name filename w))
  /\ quiet w (snd (_upload_file username repo_name filename content_b64 w)).
Proof.
  split; [apply qm_get_github_username|].
  split; [apply qm_repository_exists|].
  split; [apply qm_create_repository|].
  split; [apply qm_get_unique_filename | apply qm_upload_file].
Qed.

(** ** The file upload *)

(** X13: the file upload makes two requests on the endpoint of the file, a
    [GET] and then a [PUT], and returns or raises as the [PUT] does.  When
    the lookup fails the commit message is [Upload {filename}] and no [sha]
    is sent; when it succeeds the message is [Update {filename}] and the
    [sha] of the body is sent, or [None] when the body has none. *)
Theorem upload_file_requests (username repo_name filename content_b64 : str)
  (w : World) :
  let endpoint := contents_endpoint username repo_name filename in
  let lookup := github_request (github_token w) (u "GET") endpoint None in
  let w1 := set_requests (requests w ++ [lookup]) w in
  let create :=
    [(u "message", JStr (u "Upload " ++ filename));
     (u "content", JStr content_b64);
     (u "branch", JStr (u "main"))] in
  let update existing :=
    [(u "message", JStr (u "Update " ++ filename));
     (u "content", JStr content_b64);
     (u "branch", JStr (u "main"));
     (u "sha", default JNull (dict_get (u "sha") existing))] in
  (outcome_fails (remote w (requests w) lookup) = true ->
   _upload_file username repo_name filename content_b64 w
   = _make_github_request (u "PUT") endpoint (Some create) w1
   /\ requests (snd (_upload_file username repo_name filename content_b64 w))
      = requests w
        ++ [lookup;
            github_request (github_token w) (u "PUT") endpoint (Some create)])
  /\ (forall status existing,
      remote w (requests w) lookup = Response status existing ->
      status < 400 ->
      _upload_file username repo_name filename content_b64 w
      = _make_github_request (u "PUT") endpoint (Some (update existing)) w1
      /\ requests
           (snd (_upload_file username repo_name filename content_b64 w))
         = requests w
           ++ [lookup;
               github_request (github_token w) (u "PUT") endpoint
                 (Some (update existing))]).
Proof.
  intros endpoint lookup w1 create update. split.
  - intros Hf.
    destruct (make_github_request_raises _ _ _ _ Hf) as [e E].
    assert (Hrun : _upload_file username repo_name filename content_b64 w
                   = _make_github_request (u "PUT") endpoint (Some create) w1).
    { unfold _upload_file. unfold bind at 1. unfold try_except, bind.
      fold endpoint. rewrite E. reflexivity. }
    split; [exact Hrun|].
    rewrite Hrun, make_github_request_world. simpl.
    now rewrite <- app_assoc.
  - intros status existing Hr Hs.
    pose proof (make_github_request_ok _ _ _ _ _ _ Hr Hs) as E.
    assert (Hrun : _upload_file username repo_name filename content_b64 w
                   = _make_github_request (u "PUT") endpoint
                       (Some (update existing)) w1).
    { unfold _upload_file. unfold bind at 1. unfold try_except, bind.
      fold endpoint. rewrite E. reflexivity. }
    split; [exact Hrun|].
    rewrite Hrun, make_github_request_world. simpl.
    now rewrite <- app_assoc.
Qed.

(** Projections of updated worlds, without unfolding string literals. *)
Ltac world_simpl :=
  cbn [fst snd github_token _last_upload me_id cmd_prefix clock remote
       requests answers set_github_token set_last_upload set_clock
       set_requests set_answers].

Ltac world_simpl_all :=
  cbn [fst snd github_token _last_upload me_id cmd_prefix clock remote
       requests answers set_github_token set_last_upload set_clock
       set_requests set_answers] in *.

(** ** The rate limiter, further *)

(** X14: a rate check concerns one identity.  It leaves the entry of every
    other identity as it is, removes no entry, and changes nothing but the
    rate limiter. *)
Theorem check_rate_limit_frame (user_id : Z) (w : World) :
  let w' := snd (_check_rate_limit user_id w) in
  (forall other, other <> user_id ->
                 _last_upload w' !! other = _last_upload w !! other)
  /\ (forall id, is_Some (_last_upload w !! id) ->
                 is_Some (_last_upload w' !! id))
  /\ github_token w' = github_token w
  /\ requests w' = requests w
  /\ answers w' = answers w
  /\ clock w' = clock w.
Proof.
  cbv zeta. rewrite check_rate_limit_unfold.
  destruct (Qlt_bool _ 10); simpl.
  - now repeat split.
  - split; [|split; [|now repeat split]].
    + intros other Hne. now apply lookup_insert_ne.
    + intros id Hid. destruct (decide (id = user_id)) as [->|Hne].
      * rewrite lookup_insert_eq. eauto.
      * now rewrite lookup_insert_ne.
Qed.

(** X15: a check is accepted exactly when the time since the last accepted
    request of the identity (time 0 without entry) is not below 10 seconds,
    and the timestamp stored by an accepted check lies at least 10 seconds
    after the one it replaces. *)
Theorem accepted_requests_are_spaced (user_id : Z) (w : World) :
  let w' := snd (_check_rate_limit user_id w) in
  (fst (_check_rate_limit user_id w) = Ret true
   <-> ~ (clock w - last_accepted user_id w < 10)%Q)
  /\ (fst (_check_rate_limit user_id w) = Ret false
      <-> (clock w - last_accepted user_id w < 10)%Q)
  /\ (fst (_check_rate_limit user_id w) = Ret true ->
      _last_upload w' !! user_id = Some (clock w)
      /\ (10 <= clock w - last_accepted user_id w)%Q).
Proof.
  cbv zeta. rewrite check_rate_limit_unfold. unfold last_accepted.
  destruct (Qlt_bool _ 10) eqn:E; simpl.
  - apply Qlt_bool_true in E. split; [|split].
    + split; [discriminate | intros H; contradiction].
    + split; [intros _; exact E | reflexivity].
    + discriminate.
  - apply Qlt_bool_false in E. split; [|split].
    + split; [intros _; exact E | reflexivity].
    + split; [discriminate | intros H; contradiction].
    + intros _. split; [apply lookup_insert_eq|].
      now apply Qnot_lt_le.
Qed.

(** ** The upload command, further *)

(** X17: an upload command stopped by the token check or by the rate check
    sends its one answer and changes nothing else: it makes no request,
    a missing token does not start a cooldown, and a rate-limited request
    does not renew the stored timestamp. *)
Theorem ghuploadcmd_early_rejections (fuel : nat) (message : Message)
  (w : World) :
  (github_token w = [] ->
   ghuploadcmd fuel message w
   = (Ret tt, set_answers (answers w ++ [no_token (cmd_prefix w)]) w))
  /\ (github_token w <> [] ->
      (clock w - last_accepted (sender_id message) w < 10)%Q ->
      ghuploadcmd fuel message w
      = (Ret tt, set_answers (answers w ++ [rate_limit]) w)).
Proof.
  split.
  - intros Ht. rewrite ghuploadcmd_unfold, Ht. reflexivity.
  - intros Ht Hr. rewrite ghuploadcmd_unfold.
    destruct (github_token w); [congruence|]. simpl.
    apply Qlt_bool_true in Hr. now rewrite Hr.
Qed.

Lemma bind_ret {A B} (a : A) (k : A -> M B) (w : World) :
  bind (ret a) k w = k a w.
Proof. reflexivity. Qed.

Lemma bind_time_time {B} (k : Q -> M B) (w : World) :
  bind time_time k w = k (clock w) w.
Proof. reflexivity. Qed.

Lemma bind_bind_time_time {A B} (k1 : Q -> M A) (k : A -> M B) (w : World) :
  bind (bind time_time k1) k w = bind (k1 (clock w)) k w.
Proof. reflexivity. Qed.

Lemma upload_body_steps (fuel : nat) (file : File) (w : World) :
  upload_body fuel file w
  = upload_steps fuel (file_media file)
      (_sanitize_filename (py_int (clock w)) (proposed_filename file w)) w.
Proof.
  unfold upload_body, proposed_filename. cbv zeta.
  destruct (file_name file) as [[|c n]|].
  - rewrite bind_bind_time_time, bind_ret, bind_time_time.
    now rewrite sanitize_nonempty.
  - rewrite bind_ret, bind_time_time. now rewrite sanitize_nonempty.
  - rewrite bind_bind_time_time, bind_ret, bind_time_time.
    now rewrite sanitize_nonempty.
Qed.

Lemma upload_file_run (username repo_name filename content_b64 : str)
  (w : World) :
  exists data,
    dict_get (u "content") data = Some (JStr content_b64)
    /\ _upload_file username repo_name filename content_b64 w
       = _make_github_request (u "PUT")
           (contents_endpoint username repo_name filename) (Some data)
           (set_requests
              (requests w
               ++ [github_request (github_token w) (u "GET")
                     (contents_endpoint username repo_name filename) None])
              w).
Proof.
  destruct (make_github_request_cases (u "GET")
              (contents_endpoint username repo_name filename) None w)
    as [(status & res & Hr & Hs & E)|(Hf & e & E)].
  - eexists. split; [|unfold _upload_file; unfold bind at 1;
                      unfold try_except, bind; rewrite E; reflexivity].
    reflexivity.
  - eexists. split; [|unfold _upload_file; unfold bind at 1;
                      unfold try_except, bind; rewrite E; reflexivity].
    reflexivity.
Qed.

Lemma upload_file_returns (username repo_name filename content_b64 : str)
  (w w' : World) (res : dict) :
  _upload_file username repo_name filename content_b64 w = (Ret res, w') ->
  exists data log status,
    dict_get (u "content") data = Some (JStr content_b64)
    /\ requests w'
       = log ++ [github_request (github_token w) (u "PUT")
                   (contents_endpoint username repo_name filename)
                   (Some data)]
    /\ remote w log
         (github_request (github_token w) (u "PUT")
            (contents_endpoint username repo_name filename) (Some data))
       = Response status res
    /\ status < 400.
Proof.
  destruct (upload_file_run username repo_name filename content_b64 w)
    as (data & Hc & ->).
  set (w1 := set_requests _ w).
  destruct (make_github_request_cases (u "PUT")
              (contents_endpoint username repo_name filename) (Some data) w1)
    as [(status & res' & Hr & Hs & E)|(Hf & e & E)]; rewrite E; intros H.
  - injection H as <- <-. exists data, (requests w1), status.
    split; [exact Hc|]. split; [reflexivity|]. split; [exact Hr|exact Hs].
  - discriminate.
Qed.

#[local] Hint Resolve qm_get_github_username qm_repository_exists
  qm_create_repository qm_get_unique_filename qm_upload_file : qm.

Lemma qm_ensure_repository (repo_exists : bool) (repo_name : str) :
  quiet_m
    (if negb repo_exists then
       let* _ := _create_repository repo_name in
       asyncio_sleep 2
     else ret tt).
Proof. destruct repo_exists; simpl; repeat qm_step. Qed.

Lemma upload_steps_cases (fuel : nat) (file_bytes : list N) (filename : str)
  (w w' : World) (r : Res unit) :
  upload_steps fuel file_bytes filename w = (r, w') ->
  let repo_name := u "git-" ++ str_of_int (me_id w) ++ u "-files" in
  github_token w' = github_token w
  /\ _last_upload w' = _last_upload w
  /\ match r with
     | Ret _ =>
         exists login name data log status res,
           fst (_get_github_username w) = Ret login
           /\ answers w'
              = answers w
                ++ [upload_success name (raw_url (fmt login) repo_name name)]
           /\ dict_get (u "content") data
              = Some (JStr (b64encode_str file_bytes))
           /\ requests w'
              = log ++ [github_request (github_token w) (u "PUT")
                          (contents_endpoint (fmt login) repo_name name)
                          (Some data)]
           /\ remote w log
                (github_request (github_token w) (u "PUT")
                   (contents_endpoint (fmt login) repo_name name)
                   (Some data))
              = Response status res
           /\ status < 400
     | Raise e =>
         answers w' = answers w
         /\ (forall e0, fst (_get_github_username w) = Raise e0 ->
                        e = e0 /\ w' = snd (_get_github_username w))
     | Diverge => answers w' = answers w
     end.
Proof.
  intros Hrun repo_name. unfold upload_steps in Hrun.
  unfold bind at 1 in Hrun.
  pose proof (qm_get_github_username w) as Q1.
  destruct (_get_github_username w) as [[login|e|] w1]; cbn [fst snd] in *.
  2:{ injection Hrun as <- <-. destruct Q1 as (HT & HL & HI & HP & HR & HA).
      split; [exact HT|]. split; [exact HL|]. split; [exact HA|].
      intros e0 H0. injection H0 as <-. now split. }
  2:{ injection Hrun as <- <-. destruct Q1 as (HT & HL & HI & HP & HR & HA).
      now repeat split. }
  cbv beta zeta in Hrun. unfold bind at 1 in Hrun.
  unfold _get_repo_name at 1 in Hrun. cbv beta iota in Hrun.
  assert (Hid : me_id w1 = me_id w) by apply Q1.
  rewrite Hid in Hrun. fold repo_name in Hrun.
  unfold bind at 1 in Hrun.
  pose proof (qm_repository_exists (fmt login) repo_name w1) as Q2.
  destruct (_repository_exists (fmt login) repo_name w1) as [[ex|e|] w2];
    cbn [fst snd] in *;
    pose proof (quiet_trans _ _ _ Q1 Q2) as Q12; clear Q2.
  2:{ injection Hrun as <- <-. destruct Q12 as (HT & HL & HI & HP & HR & HA).
      split; [exact HT|]. split; [exact HL|]. split; [exact HA|].
      intros e0 H0. discriminate. }
  2:{ injection Hrun as <- <-. destruct Q12 as (HT & HL & HI & HP & HR & HA).
      now repeat split. }
  unfold bind at 1 in Hrun.
  pose proof (qm_ensure_repository ex repo_name w2) as Q3.
  set (ensured :=
         (if negb ex then
            let* _ := _create_repository repo_name in
            asyncio_sleep 2
          else ret tt) w2) in *.
  destruct ensured as [[[]|e|] w3];
    cbn [fst snd] in *;
    pose proof (quiet_trans _ _ _ Q12 Q3) as Q13; clear Q3.
  2:{ injection Hrun as <- <-. destruct Q13 as (HT & HL & HI & HP & HR & HA).
      split; [exact HT|]. split; [exact HL|]. split; [exact HA|].
      intros e0 H0. discriminate. }
  2:{ injection Hrun as <- <-. destruct Q13 as (HT & HL & HI & HP & HR & HA).
      now repeat split. }
  unfold bind at 1 in Hrun.
  pose proof (qm_get_unique_filename fuel (fmt login) repo_name filename w3)
    as Q4.
  destruct (_get_unique_filename fuel (fmt login) repo_name filename w3)
    as [[name|e|] w4]; cbn [fst snd] in *;
    pose proof (quiet_trans _ _ _ Q13 Q4) as Q14; clear Q4.
  2:{ injection Hrun as <- <-. destruct Q14 as (HT & HL & HI & HP & HR & HA).
      split; [exact HT|]. split; [exact HL|]. split; [exact HA|].
      intros e0 H0. discriminate. }
  2:{ injection Hrun as <- <-. destruct Q14 as (HT & HL & HI & HP & HR & HA).
      now repeat split. }
  unfold bind at 1 in Hrun.
  pose proof (qm_upload_file (fmt login) repo_name name
                (b64encode_str file_bytes) w4) as Q5.
  destruct (_upload_file (fmt login) repo_name name
              (b64encode_str file_bytes) w4) as [[res|e|] w5] eqn:E5;
    cbn [fst snd] in *;
    pose proof (quiet_trans _ _ _ Q14 Q5) as Q15; clear Q5.
  2:{ injection Hrun as <- <-. destruct Q15 as (HT & HL & HI & HP & HR & HA).
      split; [exact HT|]. split; [exact HL|]. split; [exact HA|].
      intros e0 H0. discriminate. }
  2:{ injection Hrun as <- <-. destruct Q15 as (HT & HL & HI & HP & HR & HA).
      now repeat split. }
  destruct (upload_file_returns _ _ _ _ _ _ _ E5)
    as (data & log & status & Hc & Hlog & Hr & Hs).
  destruct Q14 as (T4 & _ & _ & _ & R4 & _).
  destruct Q15 as (T5 & L5 & _ & _ & _ & A5).
  cbv zeta in Hrun. unfold utils_answer in Hrun.
  injection Hrun as <- <-. world_simpl.
  split; [exact T5|]. split; [exact L5|].
  exists login, name, data, log, status, res.
  split; [reflexivity|]. split; [now rewrite A5|]. split; [exact Hc|].
  rewrite <- T4, <- R4. now repeat split.
Qed.

Lemma attachment_check_rejects (message : Message) (a : Answer) :
  attachment_check message = inl a -> a = no_file \/ a = file_too_large.
Proof.
  unfold attachment_check.
  destruct (reply_message message) as [reply|]; [|left; congruence].
  destruct (reply_file reply) as [file|]; [|left; congruence].
  destruct (max_file_size <? file_size file); [right|]; congruence.
Qed.

Lemma get_github_username_fails (w : World) :
  outcome_fails
    (remote w (requests w)
       (github_request (github_token w) (u "GET") (u "/user") None)) = true ->
  exists e,
    fst (_make_github_request (u "GET") (u "/user") None w) = Raise e
    /\ _get_github_username w
       = (Raise (Exception
                   (JStr (u "Failed to get username: " ++ exc_str e))),
          set_requests
            (requests w
             ++ [github_request (github_token w) (u "GET") (u "/user") None])
            w).
Proof.
  intros Hf. destruct (make_github_request_raises _ _ _ _ Hf) as [e E].
  exists e. unfold _get_github_username, try_except, bind.
  rewrite E. split; reflexivity.
Qed.

(** The world in which the upload proper starts: the timestamp of the
    sender stored and [uploading] answered. *)
Lemma ghuploadcmd_upload (fuel : nat) (message : Message) (file : File)
  (w : World) :
  github_token w <> [] ->
  ~ (clock w - last_accepted (sender_id message) w < 10)%Q ->
  attachment_check message = inr file ->
  let w2 :=
    set_answers (answers w ++ [uploading])
      (set_last_upload
         (<[sender_id message := clock w]> (_last_upload w)) w) in
  ghuploadcmd fuel message w
  = match
      upload_steps fuel (file_media file)
        (_sanitize_filename (py_int (clock w)) (proposed_filename file w)) w2
    with
    | (Raise e, w3) =>
        (Ret tt, set_answers (answers w3 ++ [upload_error (exc_str e)]) w3)
    | run => run
    end.
Proof.
  intros Ht Hr Hc w2. rewrite ghuploadcmd_unfold, Hc.
  destruct (github_token w); [congruence|]. cbn [py_not].
  apply Qlt_bool_false in Hr. rewrite Hr. cbv zeta. fold w2.
  unfold try_except. rewrite upload_body_steps. reflexivity.
Qed.

Lemma py_not_nonempty (s : str) : s <> [] -> py_not s = false.
Proof. now destruct s. Qed.

Lemma make_github_request_fst_same (method endpoint : str)
  (data : option dict) (w w' : World) :
  github_token w = github_token w' ->
  remote w = remote w' ->
  requests w = requests w' ->
  fst (_make_github_request method endpoint data w)
  = fst (_make_github_request method endpoint data w').
Proof.
  intros Ht Hr Hl. rewrite !make_github_request_unfold. cbv zeta.
  rewrite Ht, Hr, Hl.
  destruct (remote w' (requests w') _) as [cause|status result];
    [reflexivity|].
  destruct ((status =? 403) && mentions_rate_limit result); [reflexivity|].
  destruct (400 <=? status); reflexivity.
Qed.

Lemma get_github_username_fst_same (w w' : World) :
  github_token w = github_token w' ->
  remote w = remote w' ->
  requests w = requests w' ->
  fst (_get_github_username w) = fst (_get_github_username w').
Proof.
  intros Ht Hr Hl.
  pose proof (make_github_request_fst_same (u "GET") (u "/user") None
                w w' Ht Hr Hl) as H.
  unfold _get_github_username, try_except, bind, getitem.
  destruct (_make_github_request _ _ _ w) as [[d|e|] w1],
           (_make_github_request _ _ _ w') as [[d'|e'|] w1'];
    cbn [fst] in H; try discriminate; try reflexivity.
  - injection H as <-. destruct (dict_get (u "login") d); reflexivity.
  - injection H as <-. reflexivity.
Qed.

(** X19: the success message tells the truth about the remote.  When the
    upload command answers [upload_success] for a name, the identity
    lookup of the run has returned an account, the last request of the run
    is a [PUT] on the contents endpoint of that name in the repository
    [git-{id}-files] of that account, carrying the base64 content of the
    file, and the remote answered it with a status below 400; the link of
    the message is the raw link of that name under that account. *)
Theorem upload_success_after_put (fuel : nat) (message : Message)
  (w : World) (name url : str) :
  let w' := snd (ghuploadcmd fuel message w) in
  let repo_name := u "git-" ++ str_of_int (me_id w) ++ u "-files" in
  answers w' = answers w ++ [uploading; upload_success name url] ->
  exists file login data log status res,
    attachment_check message = inr file
    /\ fst (_get_github_username w) = Ret login
    /\ url = raw_url (fmt login) repo_name name
    /\ dict_get (u "content") data
       = Some (JStr (b64encode_str (file_media file)))
    /\ requests w'
       = log ++ [github_request (github_token w) (u "PUT")
                   (contents_endpoint (fmt login) repo_name name) (Some data)]
    /\ remote w log
         (github_request (github_token w) (u "PUT")
            (contents_endpoint (fmt login) repo_name name) (Some data))
       = Response status res
    /\ status < 400.
Proof.
  cbv zeta. intros Hans.
  destruct (decide (github_token w = [])) as [Ht|Ht].
  { exfalso. revert Hans. rewrite ghuploadcmd_unfold, Ht. cbn [py_not].
    world_simpl. intros H. apply app_inv_head in H. discriminate. }
  destruct (Qlt_bool (clock w - last_accepted (sender_id message) w) 10)
    eqn:Hr.
  { exfalso. revert Hans. rewrite ghuploadcmd_unfold, Hr.
    rewrite (py_not_nonempty _ Ht). world_simpl.
    intros H. apply app_inv_head in H. discriminate. }
  destruct (attachment_check message) as [a|file] eqn:Hc.
  { exfalso. revert Hans. rewrite ghuploadcmd_unfold, Hc, Hr.
    rewrite (py_not_nonempty _ Ht). cbv zeta.
    world_simpl. intros H. apply app_inv_head in H. discriminate. }
  apply Qlt_bool_false in Hr. revert Hans.
  rewrite (ghuploadcmd_upload fuel message file w Ht Hr Hc). cbv zeta.
  set (w2 := set_answers _ _).
  destruct (upload_steps fuel (file_media file) _ w2) as [r w3] eqn:E.
  apply upload_steps_cases in E. cbv zeta in E.
  destruct E as (_ & _ & E).
  destruct r as [[]|e|]; world_simpl.
  - destruct E as (login & name' & data & log & status & res
                   & Hlogin & HA & Hd & Hlog & Hrem & Hs).
    rewrite (get_github_username_fst_same w2 w) in Hlogin by reflexivity.
    rewrite HA. subst w2. world_simpl_all. rewrite <- app_assoc.
    intros H. apply app_inv_head in H. injection H as <- <-.
    exists file, login, data, log, status, res. now repeat split.
  - destruct E as (HA & _). rewrite HA. subst w2. world_simpl.
    rewrite <- app_assoc. intros H. apply app_inv_head in H. discriminate.
  - rewrite E. subst w2. world_simpl.
    intros H. apply app_inv_head in H. discriminate.
Qed.

(** X20: when the identity lookup fails during an upload, the request ends
    there.  After the checks have passed, a failing [/user] request is the
    only request of the run, and the answers are [uploading] and then the
    failure message whose text is [Failed to get username: ] followed by
    the text of the exception of the request. *)
Theorem ghuploadcmd_username_failure (fuel : nat) (message : Message)
  (file : File) (w : World) :
  let lookup := github_request (github_token w) (u "GET") (u "/user") None in
  let w' := snd (ghuploadcmd fuel message w) in
  github_token w <> [] ->
  ~ (clock w - last_accepted (sender_id message) w < 10)%Q ->
  attachment_check message = inr file ->
  outcome_fails (remote w (requests w) lookup) = true ->
  requests w' = requests w ++ [lookup]
  /\ exists e,
      fst (_make_github_request (u "GET") (u "/user") None w) = Raise e
      /\ answers w'
         = answers w
           ++ [uploading;
               upload_error (u "Failed to get username: " ++ exc_str e)].
Proof.
  intros lookup w' Ht Hr Hc Hf. subst w'.
  rewrite (ghuploadcmd_upload fuel message file w Ht Hr Hc). cbv zeta.
  set (w2 := set_answers _ _).
  destruct (get_github_username_fails w2 Hf) as (e2 & He2 & Hu).
  destruct (get_github_username_fails w Hf) as (e & He & _).
  assert (e2 = e) as ->.
  { rewrite (make_github_request_fst_same _ _ _ w2 w) in He2
      by reflexivity.
    congruence. }
  destruct (upload_steps fuel (file_media file) _ w2) as [r w3] eqn:E.
  pose proof (upload_steps_cases _ _ _ _ _ _ E) as Hcases.
  assert (Hraise : r = Raise
            (Exception (JStr (u "Failed to get username: " ++ exc_str e)))
          /\ w3 = snd (_get_github_username w2)).
  { revert E. unfold upload_steps. unfold bind at 1. rewrite Hu.
    intros H. injection H as <- <-. now split. }
  destruct Hraise as [-> ->]. rewrite Hu. world_simpl.
  split; [reflexivity|]. exists e. split; [exact He|].
  subst w2. world_simpl. now rewrite <- app_assoc.
Qed.

(** ** The resolver and the upload together *)

Lemma upload_file_create (username repo_name filename content_b64 : str)
  (w : World) :
  outcome_fails
    (remote w (requests w)
       (github_request (github_token w) (u "GET")
          (contents_endpoint username repo_name filename) None)) = true ->
  _upload_file username repo_name filename content_b64 w
  = _make_github_request (u "PUT")
      (contents_endpoint username repo_name filename)
      (Some [(u "message", JStr (u "Upload " ++ filename));
             (u "content", JStr content_b64);
             (u "branch", JStr (u "main"))])
      (set_requests
         (requests w
          ++ [github_request (github_token w) (u "GET")
                (contents_endpoint username repo_name filename) None])
         w).
Proof.
  intros Hf. destruct (make_github_request_raises _ _ _ _ Hf) as [e E].
  unfold _upload_file. unfold bind at 1. unfold try_except, bind.
  rewrite E. reflexivity.
Qed.

(** X21: a name that the resolver returns is uploaded as a new file.  In a
    repository that does not change in between, the upload of the returned
    name looks it up, finds nothing, and sends a [PUT] with the commit
    message [Upload {name}] and without [sha]: it never overwrites. *)
Theorem resolved_name_is_created (username repo_name : str)
  (files : gset str) (filename content_b64 : str) (fuel : nat)
  (w w1 : World) (name : str) :
  remote w = contents_remote username repo_name files ->
  _get_unique_filename fuel username repo_name filename w = (Ret name, w1) ->
  requests (snd (_upload_file username repo_name name content_b64 w1))
  = requests w1
    ++ [github_request (github_token w) (u "GET")
          (contents_endpoint username repo_name name) None;
        github_request (github_token w) (u "PUT")
          (contents_endpoint username repo_name name)
          (Some [(u "message", JStr (u "Upload " ++ name));
                 (u "content", JStr content_b64);
                 (u "branch", JStr (u "main"))])].
Proof.
  intros Hr Hrun.
  destruct (get_unique_filename_run username repo_name files filename fuel w Hr)
    as [(k & Hk & Hall & Hfree & E)|(Hall & E)]; rewrite E in Hrun;
    [|discriminate].
  injection Hrun as <- <-.
  rewrite upload_file_create.
  - rewrite make_github_request_world. world_simpl.
    now rewrite <- app_assoc.
  - world_simpl. rewrite Hr, contents_remote_answer.
    now rewrite (bool_decide_eq_false_2 _ Hfree).
Qed.

(** X22: the upload command writes the rate limiter at one place.  A
    request stopped by the token check or the rate check leaves it as it
    is; every request that passes the rate check stores its time for the
    sender, whatever happens afterwards: a rejected attachment, a failed or
    a successful upload. *)
Theorem ghuploadcmd_rate_state (fuel : nat) (message : Message) (w : World) :
  let w' := snd (ghuploadcmd fuel message w) in
  (github_token w = [] -> _last_upload w' = _last_upload w)
  /\ ((clock w - last_accepted (sender_id message) w < 10)%Q ->
      _last_upload w' = _last_upload w)
  /\ (github_token w <> [] ->
      ~ (clock w - last_accepted (sender_id message) w < 10)%Q ->
      _last_upload w'
      = <[sender_id message := clock w]> (_last_upload w)).
Proof.
  cbv zeta. split; [|split].
  - intros Ht. rewrite ghuploadcmd_unfold, Ht. reflexivity.
  - intros Hr. rewrite ghuploadcmd_unfold.
    apply Qlt_bool_true in Hr. rewrite Hr.
    now destruct (py_not (github_token w)).
  - intros Ht Hr.
    destruct (attachment_check message) as [a|file] eqn:Hc.
    + rewrite ghuploadcmd_unfold, Hc, (py_not_nonempty _ Ht).
      apply Qlt_bool_false in Hr. now rewrite Hr.
    + rewrite (ghuploadcmd_upload fuel message file w Ht Hr Hc). cbv zeta.
      set (w2 := set_answers _ _).
      destruct (upload_steps fuel (file_media file) _ w2) as [r w3] eqn:E.
      apply upload_steps_cases in E. cbv zeta in E.
      destruct E as (_ & HL & _).
      destruct r as [[]|e|]; world_simpl; exact HL.
Qed.

(** ** The requests of a run *)

Section Emits.

Variable P : list N -> Request -> Prop.

Lemma emits_same {A} (m : M A) :
  (forall w, github_token (snd (m w)) = github_token w
             /\ requests (snd (m w)) = requests w) ->
  emits P m.
Proof.
  intros H w. destruct (H w) as [Ht Hl]. split; [exact Ht|].
  exists []. split; [now rewrite app_nil_r | constructor].
Qed.

Lemma emits_ret {A} (a : A) : emits P (ret a).
Proof. now apply emits_same. Qed.

Lemma emits_raise {A} (e : Exc) : emits P (@raise A e).
Proof. now apply emits_same. Qed.

Lemma emits_diverge {A} : emits P (@diverge A).
Proof. now apply emits_same. Qed.

Lemma emits_then (w1 w2 w3 : World) :
  (github_token w2 = github_token w1
   /\ exists l, requests w2 = requests w1 ++ l
                /\ Forall (P (github_token w1)) l) ->
  (github_token w3 = github_token w2
   /\ exists l, requests w3 = requests w2 ++ l
                /\ Forall (P (github_token w2)) l) ->
  github_token w3 = github_token w1
  /\ exists l, requests w3 = requests w1 ++ l
               /\ Forall (P (github_token w1)) l.
Proof.
  intros (T1 & l1 & E1 & F1) (T2 & l2 & E2 & F2).
  split; [congruence|]. exists (l1 ++ l2). split.
  - now rewrite E2, E1, app_assoc.
  - apply Forall_app. split; [exact F1|]. now rewrite <- T1.
Qed.

Lemma emits_bind {A B} (m : M A) (k : A -> M B) :
  emits P m -> (forall a, emits P (k a)) -> emits P (bind m k).
Proof.
  intros Hm Hk w. unfold bind. specialize (Hm w).
  destruct (m w) as [[a|e|] w']; cbn [fst snd] in *; [|exact Hm|exact Hm].
  eapply emits_then; [exact Hm | apply Hk].
Qed.

Lemma emits_try_except {A} (m : M A) (h : Exc -> M A) :
  emits P m -> (forall e, emits P (h e)) -> emits P (try_except m h).
Proof.
  intros Hm Hh w. unfold try_except. specialize (Hm w).
  destruct (m w) as [[a|e|] w']; cbn [fst snd] in *; [exact Hm| |exact Hm].
  eapply emits_then; [exact Hm | apply Hh].
Qed.

Lemma emits_make_github_request (method endpoint : str)
  (data : option dict) :
  (forall token, P token (github_request token method endpoint data)) ->
  emits P (_make_github_request method endpoint data).
Proof.
  intros HP w. rewrite make_github_request_world. world_simpl.
  split; [reflexivity|]. eexists. split; [reflexivity|].
  constructor; [apply HP | constructor].
Qed.

Lemma emits_utils_answer (a : Answer) : emits P (utils_answer a).
Proof. now apply emits_same. Qed.

Lemma emits_time_time : emits P time_time.
Proof. now apply emits_same. Qed.

Lemma emits_asyncio_sleep (d : Q) : emits P (asyncio_sleep d).
Proof. now apply emits_same. Qed.

Lemma emits_get_repo_name : emits P _get_repo_name.
Proof. now apply emits_same. Qed.

Lemma emits_config_get : emits P config_get.
Proof. now apply emits_same. Qed.

Lemma emits_get_prefix : emits P get_prefix.
Proof. now apply emits_same. Qed.

Lemma emits_getitem (d : dict) (key : str) : emits P (getitem d key).
Proof.
  unfold getitem.
  destruct (dict_get key d); [apply emits_ret | apply emits_raise].
Qed.

Lemma emits_check_rate_limit (user_id : Z) :
  emits P (_check_rate_limit user_id).
Proof.
  apply emits_same. intros w. rewrite check_rate_limit_unfold.
  now destruct (Qlt_bool _ 10).
Qed.

End Emits.

Create HintDb emits.

#[local] Hint Resolve emits_ret emits_raise emits_diverge emits_utils_answer
  emits_time_time emits_asyncio_sleep emits_get_repo_name emits_config_get
  emits_get_prefix emits_getitem emits_check_rate_limit : emits.

(** One step through the structure of a coroutine that makes requests. *)
Ltac emits_step :=
  lazymatch goal with
  | |- emits _ (bind _ _) => apply emits_bind; [|intros ?]
  | |- emits _ (try_except _ _) => apply emits_try_except; [|intros ?]
  | |- emits _ (_make_github_request _ _ _) =>
      apply emits_make_github_request; intros ?
  | |- emits _ (if ?b then _ else _) => destruct b
  | |- emits _ (match ?x with _ => _ end) => destruct x
  | |- emits _ _ => solve [auto with emits]
  end.

Ltac api_leaf :=
  unfold api_request; do 3 eexists; split; [|reflexivity];
  rewrite !elem_of_cons; tauto.

Lemma emits_api_loop (fuel : nat) (username repo_name name ext : str)
  (counter : Z) (current : str) :
  emits api_request
    (unique_filename_loop fuel username repo_name name ext counter current).
Proof.
  revert counter current.
  induction fuel as [|fuel IH]; intros counter current; simpl.
  - apply emits_diverge.
  - emits_step; [repeat emits_step; api_leaf|].
    destruct a; [apply IH | apply emits_ret].
Qed.

Lemma emits_api_get_github_username :
  emits api_request _get_github_username.
Proof. unfold _get_github_username. repeat emits_step. api_leaf. Qed.

Lemma emits_api_repository_exists (username repo_name : str) :
  emits api_request (_repository_exists username repo_name).
Proof. unfold _repository_exists. repeat emits_step. api_leaf. Qed.

Lemma emits_api_create_repository (repo_name : str) :
  emits api_request (_create_repository repo_name).
Proof. unfold _create_repository. cbv zeta. emits_step. api_leaf. Qed.

Lemma emits_api_get_unique_filename (fuel : nat)
  (username repo_name filename : str) :
  emits api_request (_get_unique_filename fuel username repo_name filename).
Proof.
  unfold _get_unique_filename. destruct (splitext filename) as [name ext].
  apply emits_api_loop.
Qed.

Lemma emits_api_upload_file (username repo_name filename content_b64 : str) :
  emits api_request (_upload_file username repo_name filename content_b64).
Proof.
  unfold _upload_file. emits_step; [repeat emits_step; api_leaf|].
  lazymatch goal with x : bool * Json |- _ => destruct x end.
  cbv zeta. emits_step. api_leaf.
Qed.

#[local] Hint Resolve emits_api_get_github_username
  emits_api_repository_exists emits_api_create_repository
  emits_api_get_unique_filename emits_api_upload_file : emits.

Lemma emits_api_upload_body (fuel : nat) (file : File) :
  emits api_request (upload_body fuel file).
Proof.
  unfold upload_body. cbv zeta.
  emits_step.
  { destruct (file_name file) as [[|c n]|]; repeat emits_step. }
  emits_step; [auto with emits|].
  rewrite sanitize_nonempty.
  repeat emits_step.
Qed.

(** The URL of a request of the module is [https://api.github.com/]
    followed by a path: a host whose name merely starts with
    [api.github.com] is not reached. *)
Lemma api_request_url (token : str) (req : Request) :
  api_request token req ->
  exists path, req_url req = u "https://api.github.com/" ++ path.
Proof. intros (method & path & data & _ & ->). now exists path. Qed.

Lemma api_request_other_host (token : str) (method : str)
  (headers : list (str * str)) (data : option dict) :
  ~ api_request token
      (mkRequest method (u "https://api.github.com.evil.example/x") headers
         data).
Proof.
  intros H. apply api_request_url in H as [path H].
  cbn [req_url] in H. vm_compute in H. discriminate.
Qed.

(** X23: every request of an upload command goes through the one client:
    it is a [GET], [POST] or [PUT] whose URL is [https://api.github.com/]
    followed by a path, with the fixed headers and, as its authorization,
    the token that is active when the command starts; and the command
    leaves that token as it is. *)
Theorem ghuploadcmd_requests (fuel : nat) (message : Message) (w : World) :
  let w' := snd (ghuploadcmd fuel message w) in
  github_token w' = github_token w
  /\ exists l,
      requests w' = requests w ++ l
      /\ Forall
           (fun req =>
              exists method path data,
                method ∈ [u "GET"; u "POST"; u "PUT"]
                /\ req
                   = mkRequest method (u "https://api.github.com/" ++ path)
                       [(u "Authorization", u "token " ++ github_token w);
                        (u "Accept", u "application/vnd.github.v3+json");
                        (u "User-Agent", u "Heroku-GitHubUploader/1.0")]
                       data)
           l.
Proof.
  assert (H : emits api_request (ghuploadcmd fuel message)).
  { unfold ghuploadcmd.
    emits_step; [auto with emits|].
    destruct (py_not a); [repeat emits_step|].
    emits_step; [auto with emits|].
    destruct (negb a0); [repeat emits_step|].
    destruct (reply_message message) as [reply|]; [|repeat emits_step].
    destruct (reply_file reply) as [file|]; [|repeat emits_step].
    destruct (max_file_size <? file_size file); [repeat emits_step|].
    emits_step; [auto with emits|].
    emits_step; [apply emits_api_upload_body | auto with emits]. }
  exact (H w).
Qed.

(** ** The repository and the upload *)

Lemma bind_returns {A B} (m : M A) (k : A -> M B) (w w' : World) (a : A) :
  m w = (Ret a, w') -> bind m k w = k a w'.
Proof. intros H. unfold bind. now rewrite H. Qed.

Lemma bind_raises {A B} (m : M A) (k : A -> M B) (w w' : World) (e : Exc) :
  m w = (Raise e, w') -> bind m k w = (Raise e, w').
Proof. intros H. unfold bind. now rewrite H. Qed.

Lemma upload_steps_tail (fuel : nat) (file_bytes : list N) (filename : str) :
  upload_steps fuel file_bytes filename
  = (let* username := _get_github_username in
     let* repo_name := _get_repo_name in
     let* repo_exists := _repository_exists (fmt username) repo_name in
     let* _ :=
       if negb repo_exists then
         let* _ := _create_repository repo_name in
         asyncio_sleep 2
       else ret tt in
     resolve_and_write fuel file_bytes (fmt username) repo_name filename).
Proof. reflexivity. Qed.

Lemma get_github_username_ok (w : World) (status : Z) (result : dict)
  (login : Json) :
  remote w (requests w)
    (github_request (github_token w) (u "GET") (u "/user") None)
  = Response status result ->
  status < 400 ->
  dict_get (u "login") result = Some login ->
  _get_github_username w
  = (Ret login,
     set_requests
       (requests w
        ++ [github_request (github_token w) (u "GET") (u "/user") None]) w).
Proof.
  intros Hr Hs Hl. unfold _get_github_username, try_except, bind, getitem.
  rewrite (make_github_request_ok _ _ _ _ _ _ Hr Hs). now rewrite Hl.
Qed.

Lemma repository_exists_run (username repo_name : str) (w : World) :
  _repository_exists username repo_name w
  = (Ret (negb (outcome_fails
                  (remote w (requests w)
                     (github_request (github_token w) (u "GET")
                        (u "/repos/" ++ username ++ u "/" ++ repo_name)
                        None)))),
     set_requests
       (requests w
        ++ [github_request (github_token w) (u "GET")
              (u "/repos/" ++ username ++ u "/" ++ repo_name) None]) w).
Proof.
  unfold _repository_exists, try_except, bind.
  destruct (make_github_request_cases (u "GET")
              (u "/repos/" ++ username ++ u "/" ++ repo_name) None w)
    as [(status & res & Hr & Hs & E)|(Hf & e & E)]; rewrite E.
  - rewrite Hr. simpl. destruct (Z.leb_spec 400 status); [lia|reflexivity].
  - rewrite Hf. reflexivity.
Qed.

(** A request other than a [POST]. *)
Lemma get_is_not_post : u "GET" <> u "POST".
Proof. intros H. vm_compute in H. discriminate. Qed.

Lemma put_is_not_post : u "PUT" <> u "POST".
Proof. intros H. vm_compute in H. discriminate. Qed.

Lemma emits_no_post_loop (fuel : nat) (username repo_name name ext : str)
  (counter : Z) (current : str) :
  emits (fun _ req => req_method req <> u "POST")
    (unique_filename_loop fuel username repo_name name ext counter current).
Proof.
  revert counter current.
  induction fuel as [|fuel IH]; intros counter current; simpl.
  - apply emits_diverge.
  - emits_step; [repeat emits_step; exact get_is_not_post|].
    lazymatch goal with b : bool |- _ => destruct b end;
      [apply IH | apply emits_ret].
Qed.

Lemma emits_no_post_resolve_and_write (fuel : nat) (file_bytes : list N)
  (username repo_name filename : str) :
  emits (fun _ req => req_method req <> u "POST")
    (resolve_and_write fuel file_bytes username repo_name filename).
Proof.
  unfold resolve_and_write. emits_step.
  - unfold _get_unique_filename. destruct (splitext filename) as [name ext].
    apply emits_no_post_loop.
  - emits_step; [|cbv zeta; auto with emits].
    unfold _upload_file. emits_step;
      [repeat emits_step; exact get_is_not_post|].
    lazymatch goal with x : bool * Json |- _ => destruct x end.
    cbv zeta. emits_step. exact put_is_not_post.
Qed.

(** X24: a repository that exists is not created again.  When the identity
    lookup succeeds and the repository lookup that follows is answered with
    a status below 400, no request of the rest of the run is a [POST]. *)
Theorem existing_repository_is_not_created (fuel : nat) (message : Message)
  (file : File) (w : World) (status : Z) (result : dict) (login : Json) :
  let token := github_token w in
  let repo_name := u "git-" ++ str_of_int (me_id w) ++ u "-files" in
  let user_req := github_request token (u "GET") (u "/user") None in
  let repo_req :=
    github_request token (u "GET")
      (u "/repos/" ++ fmt login ++ u "/" ++ repo_name) None in
  let w' := snd (ghuploadcmd fuel message w) in
  token <> [] ->
  ~ (clock w - last_accepted (sender_id message) w < 10)%Q ->
  attachment_check message = inr file ->
  remote w (requests w) user_req = Response status result ->
  status < 400 ->
  dict_get (u "login") result = Some login ->
  outcome_fails (remote w (requests w ++ [user_req]) repo_req) = false ->
  exists l,
    requests w' = requests w ++ [user_req; repo_req] ++ l
    /\ Forall (fun req => req_method req <> u "POST") l.
Proof.
  intros token repo_name user_req repo_req w' Ht Hrate Hc Hr Hs Hl Hrepo.
  subst w'. rewrite (ghuploadcmd_upload fuel message file w Ht Hrate Hc).
  cbv zeta. set (w2 := set_answers _ _).
  rewrite upload_steps_tail.
  rewrite (bind_returns _ _ w2 _ login
             (get_github_username_ok w2 status result login Hr Hs Hl)).
  set (w3 := set_requests _ w2).
  rewrite (bind_returns _get_repo_name _ w3 w3 repo_name eq_refl).
  rewrite (bind_returns _ _ w3 _ _
             (repository_exists_run (fmt login) repo_name w3)).
  set (w4 := set_requests _ w3).
  change (outcome_fails _) with
    (outcome_fails (remote w (requests w ++ [user_req]) repo_req)).
  rewrite Hrepo. cbn [negb]. rewrite bind_ret.
  destruct (emits_no_post_resolve_and_write fuel (file_media file)
              (fmt login) repo_name
              (_sanitize_filename (py_int (clock w))
                 (proposed_filename file w)) w4)
    as (_ & l & Hl4 & HP).
  exists l. split; [|exact HP].
  destruct (resolve_and_write _ _ _ _ _ w4) as [[[]|e|] w5];
    world_simpl_all; rewrite Hl4; subst w4 w3 w2; world_simpl;
    now rewrite <- !app_assoc.
Qed.

(** X25: a repository that cannot be created stops the upload.  When the
    identity lookup succeeds, the repository lookup fails and the creation
    request fails too, these three are the only requests of the run: no
    name is probed and nothing is written, the run does not wait, and the
    failure is answered after [uploading]. *)
Theorem failed_creation_aborts (fuel : nat) (message : Message)
  (file : File) (w : World) (status : Z) (result : dict) (login : Json) :
  let token := github_token w in
  let repo_name := u "git-" ++ str_of_int (me_id w) ++ u "-files" in
  let user_req := github_request token (u "GET") (u "/user") None in
  let repo_req :=
    github_request token (u "GET")
      (u "/repos/" ++ fmt login ++ u "/" ++ repo_name) None in
  let create_req :=
    github_request token (u "POST") (u "/user/repos")
      (Some (create_repository_data repo_name)) in
  let w' := snd (ghuploadcmd fuel message w) in
  token <> [] ->
  ~ (clock w - last_accepted (sender_id message) w < 10)%Q ->
  attachment_check message = inr file ->
  remote w (requests w) user_req = Response status result ->
  status < 400 ->
  dict_get (u "login") result = Some login ->
  outcome_fails (remote w (requests w ++ [user_req]) repo_req) = true ->
  outcome_fails (remote w (requests w ++ [user_req; repo_req]) create_req)
  = true ->
  requests w' = requests w ++ [user_req; repo_req; create_req]
  /\ clock w' = clock w
  /\ exists text, answers w' = answers w ++ [uploading; upload_error text].
Proof.
  intros token repo_name user_req repo_req create_req w'
    Ht Hrate Hc Hr Hs Hl Hrepo Hcreate.
  subst w'. rewrite (ghuploadcmd_upload fuel message file w Ht Hrate Hc).
  cbv zeta. set (w2 := set_answers _ _).
  rewrite upload_steps_tail.
  rewrite (bind_returns _ _ w2 _ login
             (get_github_username_ok w2 status result login Hr Hs Hl)).
  set (w3 := set_requests _ w2).
  rewrite (bind_returns _get_repo_name _ w3 w3 repo_name eq_refl).
  rewrite (bind_returns _ _ w3 _ _
             (repository_exists_run (fmt login) repo_name w3)).
  set (w4 := set_requests _ w3).
  change (outcome_fails _) with
    (outcome_fails (remote w (requests w ++ [user_req]) repo_req)).
  rewrite Hrepo. cbn [negb].
  assert (Hfail : outcome_fails
            (remote w4 (requests w4)
               (github_request (github_token w4) (u "POST") (u "/user/repos")
                  (Some (create_repository_data repo_name)))) = true).
  { subst w4 w3 w2. world_simpl. rewrite <- app_assoc. exact Hcreate. }
  destruct (make_github_request_raises _ _ _ _ Hfail) as [e E].
  rewrite (bind_raises _ _ w4 _ e
             (bind_raises _ _ w4 _ e E)).
  world_simpl. subst w4 w3 w2. world_simpl.
  split; [now rewrite <- !app_assoc|]. split; [reflexivity|].
  exists (exc_str e). now rewrite <- app_assoc.
Qed.

(** X26: the size limit is inclusive.  An attachment of at most
    100 * 1024 * 1024 bytes, that size included, passes the size check: once
    the token check and the rate check have passed, the command answers
    [uploading] and goes on to the upload. *)
Theorem ghuploadcmd_size_limit_inclusive (fuel : nat) (message : Message)
  (reply : Reply) (file : File) (w : World) :
  reply_message message = Some reply ->
  reply_file reply = Some file ->
  file_size file <= 104857600 ->
  github_token w <> [] ->
  ~ (clock w - last_accepted (sender_id message) w < 10)%Q ->
  exists l,
    answers (snd (ghuploadcmd fuel message w)) = answers w ++ uploading :: l.
Proof.
  intros Hreply Hfile Hsize Ht Hr.
  assert (Hc : attachment_check message = inr file).
  { unfold attachment_check. rewrite Hreply, Hfile.
    destruct (Z.ltb_spec max_file_size (file_size file)) as [Hlt|_];
      [|reflexivity].
    unfold max_file_size in Hlt. lia. }
  rewrite (ghuploadcmd_upload fuel message file w Ht Hr Hc). cbv zeta.
  set (w2 := set_answers _ _).
  destruct (upload_steps fuel (file_media file) _ w2) as [r w3] eqn:E.
  apply upload_steps_cases in E. cbv zeta in E.
  destruct E as (_ & _ & E).
  destruct r as [[]|e|]; world_simpl.
  - destruct E as (login & name & data & log & status & res & _ & HA & _).
    rewrite HA. subst w2. world_simpl. rewrite <- app_assoc.
    eexists. reflexivity.
  - destruct E as (HA & _). rewrite HA. subst w2. world_simpl.
    rewrite <- app_assoc. eexists. reflexivity.
  - rewrite E. subst w2. world_simpl. eexists. reflexivity.
Qed.

(** * The general network and Telegram *)

(** ** The remote client over a general network *)

Lemma make_github_request_any_unfold
  (net : list Request -> Request -> Attempt) (method endpoint : str)
  (data : option dict) (w : World) :
  _make_github_request_any net method endpoint data w =
  let req := github_request (github_token w) method endpoint data in
  let w' := set_requests (requests w ++ [req]) w in
  match net (requests w) req with
  | AttemptRaises (AiohttpClientError cause) =>
      (Raise (Exception (JStr (u "Network error: " ++ cause))), w')
  | AttemptRaises e => (Raise e, w')
  | AttemptResponse status body =>
      if (status =? 403) && mentions_rate_limit_any body then
        (Raise (Exception (JStr (u "Rate limit exceeded"))), w')
      else if 400 <=? status then
        match body with
        | JDict kv =>
            (Raise (Exception
                      (default (JStr (u "HTTP " ++ str_of_int status))
                               (dict_get (u "message") kv))), w')
        | _ =>
            (Raise (AttributeError
                      (u "'" ++ type_name body
                       ++ u "' object has no attribute 'get'")), w')
        end
      else (Ret body, w')
  end.
Proof.
  cbv [_make_github_request_any bind config_get try_except_ClientError
       session_request_any mentions_rate_limit_any].
  destruct (net (requests w) _) as [e|status body].
  - destruct e; reflexivity.
  - cbv beta iota.
    destruct ((status =? 403)
              && contains (u "rate limit") (py_lower (py_str body)));
      [reflexivity|].
    destruct (400 <=? status); [|reflexivity].
    destruct body; reflexivity.
Qed.

(** On the attempts that [Outcome] describes, the general client is
    [_make_github_request]. *)
Lemma make_github_request_any_outcome (method endpoint : str)
  (data : option dict) (w : World) :
  _make_github_request_any (fun log req => attempt_of (remote w log req))
    method endpoint data w
  = (match fst (_make_github_request method endpoint data w) with
     | Ret result => Ret (JDict result)
     | Raise e => Raise e
     | Diverge => Diverge
     end,
     snd (_make_github_request method endpoint data w)).
Proof.
  rewrite make_github_request_any_unfold, make_github_request_unfold.
  cbv zeta.
  destruct (remote w (requests w) _) as [cause|status result]; simpl;
    [reflexivity|].
  unfold mentions_rate_limit_any, mentions_rate_limit.
  destruct ((status =? 403) && _); [reflexivity|].
  destruct (400 <=? status); reflexivity.
Qed.

Lemma make_github_request_any_world
  (net : list Request -> Request -> Attempt) (method endpoint : str)
  (data : option dict) (w : World) :
  snd (_make_github_request_any net method endpoint data w)
  = set_requests
      (requests w ++ [github_request (github_token w) method endpoint data])
      w.
Proof.
  rewrite make_github_request_any_unfold. cbv zeta.
  destruct (net (requests w) _) as [e|status body].
  - destruct e; reflexivity.
  - destruct ((status =? 403) && mentions_rate_limit_any body);
      [reflexivity|].
    destruct (400 <=? status); [|reflexivity].
    destruct body; reflexivity.
Qed.

Lemma make_github_request_any_total
  (net : list Request -> Request -> Attempt) (method endpoint : str)
  (data : option dict) (w : World) :
  fst (_make_github_request_any net method endpoint data w) <> Diverge.
Proof.
  rewrite make_github_request_any_unfold. cbv zeta.
  destruct (net (requests w) _) as [e|status body].
  - destruct e; discriminate.
  - destruct ((status =? 403) && mentions_rate_limit_any body);
      [discriminate|].
    destruct (400 <=? status); [|discriminate].
    destruct body; discriminate.
Qed.

(** What leaves the call unreported: an exception of the attempt other
    than an [aiohttp.ClientError] is raised as it is, and a response with
    status 400 or more whose body is no JSON object, unless it is the
    rate-limit response, has no [get] and ends the call in an
    [AttributeError]. *)
Lemma make_github_request_any_escapes
  (net : list Request -> Request -> Attempt) (method endpoint : str)
  (data : option dict) (w : World) :
  let req := github_request (github_token w) method endpoint data in
  let r := _make_github_request_any net method endpoint data w in
  (forall e,
      net (requests w) req = AttemptRaises e ->
      (forall cause, e <> AiohttpClientError cause) ->
      fst r = Raise e)
  /\ (forall status body,
      net (requests w) req = AttemptResponse status body ->
      400 <= status ->
      (status =? 403) && mentions_rate_limit_any body = false ->
      (forall kv, body <> JDict kv) ->
      fst r
      = Raise (AttributeError
                 (u "'" ++ type_name body
                  ++ u "' object has no attribute 'get'"))).
Proof.
  intros req r. subst r.
  rewrite make_github_request_any_unfold. cbv zeta. fold req. split.
  - intros e He Hne. rewrite He.
    destruct e; try reflexivity. exfalso. now apply (Hne cause).
  - intros status body Hr Hs E Hno. rewrite Hr, E.
    apply Z.leb_le in Hs. rewrite Hs.
    destruct body; try reflexivity. exfalso. now apply (Hno kv).
Qed.

(** C7 (as amended): every call makes exactly one attempt.  An
    [aiohttp.ClientError] raised by the attempt is reported as a network
    error that wraps its cause.  A response with status 403 whose body
    mentions rate limiting is reported as the distinct rate-limit failure.
    Every other response with status 400 or more whose body is a JSON
    object is reported as a failure carrying the message of the body, or
    [HTTP {status}] when the body has none. *)
Theorem make_github_request_any_failures
  (net : list Request -> Request -> Attempt) (method endpoint : str)
  (data : option dict) (w : World) :
  let req := github_request (github_token w) method endpoint data in
  let r := _make_github_request_any net method endpoint data w in
  requests (snd r) = requests w ++ [req]
  /\ (forall cause,
      net (requests w) req = AttemptRaises (AiohttpClientError cause) ->
      fst r = Raise (Exception (JStr (u "Network error: " ++ cause))))
  /\ (forall status body,
      net (requests w) req = AttemptResponse status body ->
      400 <= status ->
      (status = 403 /\ mentions_rate_limit_any body = true ->
       fst r = Raise (Exception (JStr (u "Rate limit exceeded"))))
      /\ (~ (status = 403 /\ mentions_rate_limit_any body = true) ->
          forall kv,
            body = JDict kv ->
            (forall message,
                dict_get (u "message") kv = Some message ->
                fst r = Raise (Exception message))
            /\ (dict_get (u "message") kv = None ->
                fst r
                = Raise (Exception
                           (JStr (u "HTTP " ++ str_of_int status)))))).
Proof.
  intros req r. subst r. split.
  { now rewrite make_github_request_any_world. }
  rewrite make_github_request_any_unfold. cbv zeta. fold req. split.
  - intros cause Hc. now rewrite Hc.
  - intros status body Hr Hs. rewrite Hr. split.
    + intros [-> Hm]. now rewrite Hm.
    + intros Hn kv ->.
      assert (E : (status =? 403) && mentions_rate_limit_any (JDict kv)
                  = false).
      { destruct (Z.eqb_spec status 403) as [->|]; [|reflexivity].
        destruct (mentions_rate_limit_any (JDict kv)); [|reflexivity].
        exfalso. now apply Hn. }
      rewrite E. apply Z.leb_le in Hs. rewrite Hs. split.
      * intros message Hm. now rewrite Hm.
      * intros Hm. now rewrite Hm.
Qed.

(** ** The helpers over a general network *)

Lemma qm_make_github_request_any
  (net : list Request -> Request -> Attempt) (method endpoint : str)
  (data : option dict) :
  quiet_m (_make_github_request_any net method endpoint data).
Proof.
  intros w. rewrite make_github_request_any_world. apply quiet_set_requests.
Qed.

Lemma qm_getitem_any (j : Json) (key : str) : quiet_m (getitem_any j key).
Proof. unfold getitem_any. destruct j; auto with qm. Qed.

#[local] Hint Resolve qm_make_github_request_any qm_getitem_any : qm.

Lemma qm_get_github_username_any
  (net : list Request -> Request -> Attempt) :
  quiet_m (_get_github_username_any net).
Proof. unfold _get_github_username_any. repeat qm_step. Qed.

Lemma qm_repository_exists_any
  (net : list Request -> Request -> Attempt) (username repo_name : str) :
  quiet_m (_repository_exists_any net username repo_name).
Proof. unfold _repository_exists_any. repeat qm_step. Qed.

Lemma qm_create_repository_any
  (net : list Request -> Request -> Attempt) (repo_name : str) :
  quiet_m (_create_repository_any net repo_name).
Proof. unfold _create_repository_any. cbv zeta. repeat qm_step. Qed.

Lemma qm_unique_filename_loop_any
  (net : list Request -> Request -> Attempt) (fuel : nat)
  (username repo_name name ext : str) (counter : Z) (current : str) :
  quiet_m
    (unique_filename_loop_any net fuel username repo_name name ext counter
       current).
Proof.
  revert counter current.
  induction fuel as [|fuel IH]; intros counter current; simpl.
  - apply qm_diverge.
  - qm_step; [repeat qm_step|].
    destruct a; [apply IH | apply qm_ret].
Qed.

Lemma qm_get_unique_filename_any
  (net : list Request -> Request -> Attempt) (fuel : nat)
  (username repo_name filename : str) :
  quiet_m (_get_unique_filename_any net fuel username repo_name filename).
Proof.
  unfold _get_unique_filename_any.
  destruct (splitext filename) as [name ext].
  apply qm_unique_filename_loop_any.
Qed.

Lemma qm_upload_file_any
  (net : list Request -> Request -> Attempt)
  (username repo_name filename content_b64 : str) :
  quiet_m (_upload_file_any net username repo_name filename content_b64).
Proof.
  unfold _upload_file_any. qm_step; [repeat qm_step|].
  destruct a as [file_exists existing_sha]. cbv zeta. auto with qm.
Qed.

#[local] Hint Resolve qm_get_github_username_any qm_repository_exists_any
  qm_create_repository_any qm_get_unique_filename_any qm_upload_file_any : qm.

Lemma qm_upload_core_any (net : list Request -> Request -> Attempt)
  (fuel : nat) (file_bytes : list N) (filename : str) :
  quiet_m (upload_core_any net fuel file_bytes filename).
Proof.
  unfold upload_core_any. qm_step; [auto with qm|]. cbv zeta.
  qm_step; [auto with qm|].
  qm_step; [auto with qm|].
  qm_step; [destruct a1; simpl; repeat qm_step|].
  qm_step; [auto with qm|].
  qm_step; [auto with qm|].
  apply qm_ret.
Qed.

Lemma get_github_username_any_world
  (net : list Request -> Request -> Attempt) (w : World) :
  snd (_get_github_username_any net w)
  = set_requests
      (requests w
       ++ [github_request (github_token w) (u "GET") (u "/user") None])
      w.
Proof.
  pose proof (make_github_request_any_world net (u "GET") (u "/user") None w)
    as Hw.
  cbv [_get_github_username_any try_except bind].
  destruct (_make_github_request_any _ _ _ _ w) as [[user_data|e|] w'];
    simpl in Hw; subst w'; try reflexivity.
  destruct user_data; try reflexivity.
  cbv [getitem_any getitem]. destruct (dict_get (u "login") kv); reflexivity.
Qed.

Lemma get_github_username_any_total
  (net : list Request -> Request -> Attempt) (w : World) :
  fst (_get_github_username_any net w) <> Diverge.
Proof.
  pose proof (make_github_request_any_total net (u "GET") (u "/user") None w)
    as Ht.
  cbv [_get_github_username_any try_except bind].
  destruct (_make_github_request_any _ _ _ _ w) as [[user_data|e|] w'];
    simpl in Ht; try discriminate; try congruence.
  destruct user_data; try discriminate.
  cbv [getitem_any getitem]. destruct (dict_get (u "login") kv); discriminate.
Qed.

(** ** The token command over a general network and Telegram *)

Lemma ghsetcmd_any_unfold (net : list Request -> Request -> Attempt)
  (tg : Telegram) (message : Message) (w : World) :
  args_raw message <> [] ->
  ghsetcmd_any net tg message w =
  let w1 := set_github_token (strip (args_raw message)) w in
  match _get_github_username_any net w1 with
  | (Ret _, w2) =>
      match tg_answer tg (answers w2) token_set with
      | None => (Ret tt, set_answers (answers w2 ++ [token_set]) w2)
      | Some _ =>
          utils_answer_via (tg_answer tg) invalid_token
            (set_github_token (github_token w) w2)
      end
  | (Raise _, w2) =>
      utils_answer_via (tg_answer tg) invalid_token
        (set_github_token (github_token w) w2)
  | (Diverge, w2) => (Diverge, w2)
  end.
Proof.
  intros Hargs. unfold ghsetcmd_any.
  destruct (args_raw message) as [|c args]; [congruence|].
  cbv [py_not bind config_get config_set try_except]. cbv zeta.
  destruct (_get_github_username_any _ _) as [[login|e|] w2];
    try reflexivity.
  unfold utils_answer_via at 1.
  destruct (tg_answer tg (answers w2) token_set); reflexivity.
Qed.

Lemma ghsetcmd_any_state (net : list Request -> Request -> Attempt)
  (tg : Telegram) (message : Message) (w : World) :
  let cand := strip (args_raw message) in
  let lookup := _get_github_username_any net (set_github_token cand w) in
  let r := fst (ghsetcmd_any net tg message w) in
  let w' := snd (ghsetcmd_any net tg message w) in
  _last_upload w' = _last_upload w
  /\ clock w' = clock w
  /\ (args_raw message = [] ->
      requests w' = requests w /\ github_token w' = github_token w)
  /\ (args_raw message <> [] ->
      requests w'
      = requests w ++ [github_request cand (u "GET") (u "/user") None]
      /\ (forall e, fst lookup = Raise e -> github_token w' = github_token w)
      /\ (forall login,
          fst lookup = Ret login ->
          tg_answer tg (answers w) token_set = None ->
          r = Ret tt
          /\ github_token w' = cand
          /\ answers w' = answers w ++ [token_set])
      /\ (forall login e,
          fst lookup = Ret login ->
          tg_answer tg (answers w) token_set = Some e ->
          github_token w' = github_token w
          /\ forall a, a ∈ answers w' -> a ∈ answers w \/ a = invalid_token)).
Proof.
  intros cand lookup r w'.
  destruct (args_raw message) as [|c args] eqn:Hargs.
  - subst r w'. unfold ghsetcmd_any. rewrite Hargs.
    cbv [py_not bind get_prefix utils_answer_via].
    destruct (tg_answer tg _ _); world_simpl;
      (split; [reflexivity|]; split; [reflexivity|];
       split; [intros _; now split | congruence]).
  - assert (Hne : args_raw message <> []) by congruence.
    subst r w'. rewrite (ghsetcmd_any_unfold net tg message w Hne). cbv zeta.
    rewrite Hargs. fold cand.
    pose proof (get_github_username_any_world net (set_github_token cand w))
      as Hw.
    pose proof (get_github_username_any_total net (set_github_token cand w))
      as Ht.
    fold lookup in Hw, Ht |- *.
    destruct lookup as [[login|e|] w2]; cbn [fst snd] in Hw, Ht; subst w2;
      [| |congruence]; world_simpl.
    + destruct (tg_answer tg (answers w) token_set) as [e|] eqn:Hchat.
      * unfold utils_answer_via. world_simpl.
        destruct (tg_answer tg (answers w) invalid_token); world_simpl;
          (split; [reflexivity|]; split; [reflexivity|];
           split; [congruence|]; intros _;
           split; [reflexivity|]; split; [discriminate|];
           split; [discriminate|]; intros login' e' _ _;
           split; [reflexivity|]; intros a Ha).
        -- now left.
        -- apply elem_of_app in Ha as [Ha|Ha]; [now left|].
           apply list_elem_of_singleton in Ha. now right.
      * world_simpl.
        split; [reflexivity|]. split; [reflexivity|].
        split; [congruence|]. intros _.
        split; [reflexivity|]. split; [discriminate|].
        split; [intros login' _ _; now repeat split|].
        intros login' e' _ He'. discriminate.
    + unfold utils_answer_via. world_simpl.
      destruct (tg_answer tg (answers w) invalid_token); world_simpl;
        (split; [reflexivity|]; split; [reflexivity|];
         split; [congruence|]; intros _;
         split; [reflexivity|]; split; [intros ? _; reflexivity|];
         split; [discriminate|]; intros login' e' H; discriminate).
Qed.

Lemma utils_answer_via_raises (chat : list Answer -> Answer -> option Exc)
  (a : Answer) (w w' : World) (r : Res unit) :
  utils_answer_via chat a w = (r, w') ->
  r <> Diverge
  /\ forall e, r = Raise e -> exists log a, chat log a = Some e.
Proof.
  unfold utils_answer_via.
  destruct (chat (answers w) a) as [e'|] eqn:E; intros H;
    injection H as <- _; (split; [discriminate|]); intros e He;
    [injection He as <-; eauto | discriminate].
Qed.

Lemma ghsetcmd_any_raises (net : list Request -> Request -> Attempt)
  (tg : Telegram) (message : Message) (w w' : World) (r : Res unit) :
  ghsetcmd_any net tg message w = (r, w') ->
  r <> Diverge
  /\ forall e, r = Raise e -> exists log a, tg_answer tg log a = Some e.
Proof.
  destruct (args_raw message) as [|c args] eqn:Hargs.
  - unfold ghsetcmd_any. rewrite Hargs. cbv [py_not bind get_prefix].
    apply utils_answer_via_raises.
  - assert (Hne : args_raw message <> []) by congruence.
    rewrite (ghsetcmd_any_unfold net tg message w Hne). cbv zeta.
    pose proof (get_github_username_any_total net
                  (set_github_token (strip (args_raw message)) w)) as Ht.
    destruct (_get_github_username_any net _) as [[login|e|] w2];
      cbn [fst] in Ht; [| |congruence].
    + destruct (tg_answer tg (answers w2) token_set).
      * apply utils_answer_via_raises.
      * intros H. injection H as <- _. split; discriminate.
    + apply utils_answer_via_raises.
Qed.

(** X16: the token command, whatever the network answers and whether the
    chat delivers the answers or not.  The command always finishes, and it
    raises only an exception that [utils.answer] raised.  Without argument
    it makes no request and leaves the token alone.  With an argument it
    makes exactly one request, the identity lookup carrying the stripped
    candidate.  The token it leaves is the candidate when the lookup
    returned and the [token_set] answer was delivered, and the old token in
    every other case: when the lookup raised, and also when the
    [token_set] answer raised, which the handler of the lookup catches.
    The rate limiter and the clock are never touched. *)
Theorem ghsetcmd_any_effects (net : list Request -> Request -> Attempt)
  (tg : Telegram) (message : Message) (w : World) :
  let cand := strip (args_raw message) in
  let lookup := _get_github_username_any net (set_github_token cand w) in
  let r := fst (ghsetcmd_any net tg message w) in
  let w' := snd (ghsetcmd_any net tg message w) in
  r <> Diverge
  /\ (forall e,
      r = Raise e -> exists log a, tg_answer tg log a = Some e)
  /\ _last_upload w' = _last_upload w
  /\ clock w' = clock w
  /\ (args_raw message = [] ->
      requests w' = requests w /\ github_token w' = github_token w)
  /\ (args_raw message <> [] ->
      requests w'
      = requests w ++ [github_request cand (u "GET") (u "/user") None]
      /\ (forall e, fst lookup = Raise e -> github_token w' = github_token w)
      /\ (forall login,
          fst lookup = Ret login ->
          tg_answer tg (answers w) token_set = None ->
          r = Ret tt
          /\ github_token w' = cand
          /\ answers w' = answers w ++ [token_set])
      /\ (forall login e,
          fst lookup = Ret login ->
          tg_answer tg (answers w) token_set = Some e ->
          github_token w' = github_token w
          /\ forall a, a ∈ answers w' -> a ∈ answers w \/ a = invalid_token)).
Proof.
  intros cand lookup r w'. subst r w'.
  destruct (ghsetcmd_any net tg message w) as [r w'] eqn:E.
  destruct (ghsetcmd_any_raises net tg message w w' r E) as [Hd Hr].
  pose proof (ghsetcmd_any_state net tg message w) as Hs. cbv zeta in Hs.
  rewrite E in Hs. cbn [fst snd] in *.
  split; [exact Hd|]. split; [exact Hr|]. exact Hs.
Qed.

(** ** The upload command over a general network and Telegram *)

Lemma bind_assoc {A B C} (m : M A) (k : A -> M B) (h : B -> M C)
  (w : World) :
  bind (bind m k) h w = bind m (fun a => bind (k a) h) w.
Proof. unfold bind. destruct (m w) as [[a|e|] w']; reflexivity. Qed.

Lemma bind_ext {A B} (m : M A) (k k' : A -> M B) (w : World) :
  (forall a w', k a w' = k' a w') -> bind m k w = bind m k' w.
Proof.
  intros H. unfold bind. destruct (m w) as [[a|e|] w']; [apply H|..];
    reflexivity.
Qed.

Lemma upload_body_any_core (net : list Request -> Request -> Attempt)
  (tg : Telegram) (fuel : nat) (file : File) (w : World) :
  upload_body_any net tg fuel file w
  = match tg_download tg with
    | Some e => (Raise e, w)
    | None =>
        bind
          (upload_core_any net fuel (file_media file)
             (_sanitize_filename (py_int (clock w))
                (proposed_filename file w)))
          (fun p =>
             utils_answer_via (tg_answer tg)
               (upload_success (fst p) (snd p)))
          w
    end.
Proof.
  assert (Hsteps : forall filename w0,
    (let* username := _get_github_username_any net in
     let username := fmt username in
     let* repo_name := _get_repo_name in
     let* repo_exists := _repository_exists_any net username repo_name in
     let* _ :=
       if negb repo_exists then
         let* _ := _create_repository_any net repo_name in
         asyncio_sleep 2
       else ret tt in
     let* unique_filename :=
       _get_unique_filename_any net fuel username repo_name filename in
     let* upload_result :=
       _upload_file_any net username repo_name unique_filename
         (b64encode_str (file_media file)) in
     let raw_url :=
       u "https://raw.githubusercontent.com/" ++ username ++ u "/"
       ++ repo_name ++ u "/main/" ++ unique_filename in
     utils_answer_via (tg_answer tg)
       (upload_success unique_filename raw_url)) w0
    = bind (upload_core_any net fuel (file_media file) filename)
        (fun p =>
           utils_answer_via (tg_answer tg) (upload_success (fst p) (snd p)))
        w0).
  { intros filename w0. unfold upload_core_any.
    rewrite bind_assoc. apply bind_ext. intros login w1. cbv zeta.
    rewrite bind_assoc. apply bind_ext. intros repo_name w2.
    rewrite bind_assoc. apply bind_ext. intros repo_exists w3.
    rewrite bind_assoc. apply bind_ext. intros [] w4.
    rewrite bind_assoc. apply bind_ext. intros unique w5.
    rewrite bind_assoc. apply bind_ext. intros result w6.
    reflexivity. }
  unfold upload_body_any, download_media_via, proposed_filename.
  destruct (tg_download tg) as [e|]; [reflexivity|].
  rewrite bind_ret. cbv zeta.
  destruct (file_name file) as [[|c n]|].
  - rewrite bind_bind_time_time, bind_ret, bind_time_time.
    rewrite sanitize_nonempty. apply Hsteps.
  - rewrite bind_ret, bind_time_time. rewrite sanitize_nonempty.
    apply Hsteps.
  - rewrite bind_bind_time_time, bind_ret, bind_time_time.
    rewrite sanitize_nonempty. apply Hsteps.
Qed.

Lemma ghuploadcmd_any_unfold (net : list Request -> Request -> Attempt)
  (tg : Telegram) (fuel : nat) (message : Message) (w : World) :
  ghuploadcmd_any net tg fuel message w =
  if py_not (github_token w) then
    utils_answer_via (tg_answer tg) (no_token (cmd_prefix w)) w
  else if Qlt_bool (clock w - last_accepted (sender_id message) w) 10 then
    utils_answer_via (tg_answer tg) rate_limit w
  else
    let w1 :=
      set_last_upload (<[sender_id message := clock w]> (_last_upload w)) w in
    match tg_get_reply tg with
    | Some e => (Raise e, w1)
    | None =>
        match attachment_check message with
        | inl a => utils_answer_via (tg_answer tg) a w1
        | inr file =>
            match tg_answer tg (answers w1) uploading with
            | None =>
                try_except (upload_body_any net tg fuel file)
                  (fun e =>
                     utils_answer_via (tg_answer tg)
                       (upload_error (exc_str e)))
                  (set_answers (answers w1 ++ [uploading]) w1)
            | Some e => (Raise e, w1)
            end
        end
    end.
Proof.
  unfold ghuploadcmd_any, attachment_check, last_accepted,
    get_reply_message_via.
  cbv [bind config_get get_prefix]. cbv beta iota.
  destruct (py_not (github_token w)); [reflexivity|].
  rewrite check_rate_limit_unfold.
  destruct (Qlt_bool _ 10); [reflexivity|].
  cbv [negb]. cbv zeta.
  destruct (tg_get_reply tg) as [e|]; [reflexivity|].
  cbv [ret]. cbv beta iota.
  destruct (reply_message message) as [reply|]; [|reflexivity].
  destruct (reply_file reply) as [file|]; [|reflexivity].
  destruct (max_file_size <? file_size file); [reflexivity|].
  unfold utils_answer_via at 1.
  destruct (tg_answer tg _ uploading); reflexivity.
Qed.

(** What one answer through the chat leaves behind. *)
Lemma utils_answer_via_cases (chat : list Answer -> Answer -> option Exc)
  (a : Answer) (w : World) :
  utils_answer_via chat a w = (Ret tt, set_answers (answers w ++ [a]) w)
  \/ exists e, utils_answer_via chat a w = (Raise e, w).
Proof.
  unfold utils_answer_via. destruct (chat (answers w) a); eauto.
Qed.

Lemma ghuploadcmd_any_cases (net : list Request -> Request -> Attempt)
  (tg : Telegram) (fuel : nat) (message : Message) (w w' : World)
  (r : Res unit) :
  ghuploadcmd_any net tg fuel message w = (r, w') ->
  github_token w' = github_token w
  /\ exists l,
      answers w' = answers w ++ l
      /\ (exists shape k, upload_answers w shape /\ shape = l ++ k)
      /\ (r = Ret tt -> upload_answers w l)
      /\ (r = Diverge -> l = [uploading]).
Proof.
  assert (Hone : forall a w0 r0 w0',
    utils_answer_via (tg_answer tg) a w0 = (r0, w0') ->
    answers w0 = answers w -> github_token w0 = github_token w ->
    upload_answers w [a] ->
    github_token w0' = github_token w
    /\ exists l,
        answers w0' = answers w ++ l
        /\ (exists shape k, upload_answers w shape /\ shape = l ++ k)
        /\ (r0 = Ret tt -> upload_answers w l)
        /\ (r0 = Diverge -> l = [uploading])).
  { intros a w0 r0 w0' Hrun Ha Ht Hshape.
    destruct (utils_answer_via_cases (tg_answer tg) a w0) as [E|[e E]];
      rewrite E in Hrun; injection Hrun as <- <-; world_simpl.
    - split; [exact Ht|]. exists [a]. rewrite Ha.
      split; [reflexivity|]. split; [exists [a], []; now split|].
      split; [intros _; exact Hshape | discriminate].
    - split; [exact Ht|]. exists []. rewrite Ha, app_nil_r.
      split; [reflexivity|]. split; [exists [a], [a]; now split|].
      split; discriminate. }
  assert (Hnone : forall e w0,
    answers w0 = answers w -> github_token w0 = github_token w ->
    github_token w0 = github_token w
    /\ exists l,
        answers w0 = answers w ++ l
        /\ (exists shape k, upload_answers w shape /\ shape = l ++ k)
        /\ (@Raise unit e = Ret tt -> upload_answers w l)
        /\ (@Raise unit e = Diverge -> l = [uploading])).
  { intros e w0 Ha Ht. split; [exact Ht|]. exists [].
    rewrite app_nil_r. split; [exact Ha|].
    split; [exists [no_file], [no_file]; split; [|reflexivity];
            right; right; now left|].
    split; discriminate. }
  assert (Hfail : forall e w3 r0 w0',
    utils_answer_via (tg_answer tg) (upload_error (exc_str e)) w3
    = (r0, w0') ->
    answers w3 = answers w ++ [uploading] ->
    github_token w3 = github_token w ->
    github_token w0' = github_token w
    /\ exists l,
        answers w0' = answers w ++ l
        /\ (exists shape k, upload_answers w shape /\ shape = l ++ k)
        /\ (r0 = Ret tt -> upload_answers w l)
        /\ (r0 = Diverge -> l = [uploading])).
  { intros e w3 r0 w0' Hrun Ha Ht.
    destruct (utils_answer_via_cases (tg_answer tg)
                (upload_error (exc_str e)) w3) as [E'|[e' E']];
      rewrite E' in Hrun; injection Hrun as <- <-; world_simpl.
    - split; [exact Ht|].
      exists [uploading; upload_error (exc_str e)].
      split; [rewrite Ha; now rewrite <- app_assoc|].
      split; [eexists _, []; split;
              [do 5 right; eauto | now rewrite app_nil_r]|].
      split; [intros _; do 5 right; eauto | discriminate].
    - split; [exact Ht|]. exists [uploading].
      split; [exact Ha|].
      split; [exists [uploading; upload_error (exc_str e)],
                [upload_error (exc_str e)]; split;
              [do 5 right; eauto | reflexivity]|].
      split; discriminate. }
  intros Hrun. rewrite ghuploadcmd_any_unfold in Hrun.
  destruct (py_not (github_token w)).
  { eapply Hone; [exact Hrun|reflexivity..|]. now left. }
  destruct (Qlt_bool _ 10).
  { eapply Hone; [exact Hrun|reflexivity..|]. right. now left. }
  cbv zeta in Hrun. set (w1 := set_last_upload _ w) in Hrun.
  destruct (tg_get_reply tg) as [e|].
  { injection Hrun as <- <-. now apply Hnone. }
  destruct (attachment_check message) as [a|file] eqn:Hc.
  { eapply Hone; [exact Hrun|reflexivity..|].
    destruct (attachment_check_rejects message a Hc) as [-> | ->];
      [right; right; now left | right; right; right; now left]. }
  destruct (tg_answer tg (answers w1) uploading) as [e|].
  { injection Hrun as <- <-. now apply Hnone. }
  set (w2 := set_answers _ w1) in Hrun.
  unfold try_except in Hrun. rewrite upload_body_any_core in Hrun.
  destruct (tg_download tg) as [e|].
  { eapply Hfail; [exact Hrun|reflexivity..]. }
  unfold bind in Hrun.
  pose proof (qm_upload_core_any net fuel (file_media file)
                (_sanitize_filename (py_int (clock w2))
                   (proposed_filename file w2)) w2) as Q.
  destruct (upload_core_any net fuel (file_media file) _ w2)
    as [[[name url]|e|] w3];
    cbn [fst snd] in *; destruct Q as (HT & _ & _ & _ & _ & HA).
  - destruct (utils_answer_via_cases (tg_answer tg)
                (upload_success name url) w3) as [E|[e E]];
      rewrite E in Hrun.
    + injection Hrun as <- <-. world_simpl. split; [exact HT|].
      exists [uploading; upload_success name url].
      split; [rewrite HA; subst w2 w1; world_simpl;
              now rewrite <- app_assoc|].
      split; [eexists _, []; split;
              [do 4 right; left; eauto | now rewrite app_nil_r]|].
      split; [intros _; do 4 right; left; eauto | discriminate].
    + eapply Hfail; [exact Hrun|exact HA|exact HT].
  - eapply Hfail; [exact Hrun|exact HA|exact HT].
  - injection Hrun as <- <-.
    split; [exact HT|]. exists [uploading].
    split; [exact HA|].
    split; [exists [uploading; upload_error []], [upload_error []]; split;
            [do 5 right; eauto | reflexivity]|].
    split; [discriminate | reflexivity].
Qed.

Lemma ghuploadcmd_any_raises (net : list Request -> Request -> Attempt)
  (tg : Telegram) (fuel : nat) (message : Message) (w w' : World)
  (e : Exc) :
  ghuploadcmd_any net tg fuel message w = (Raise e, w') ->
  tg_get_reply tg = Some e \/ exists log a, tg_answer tg log a = Some e.
Proof.
  assert (Hone : forall a w0 w0',
    utils_answer_via (tg_answer tg) a w0 = (Raise e, w0') ->
    tg_get_reply tg = Some e \/ exists log a, tg_answer tg log a = Some e).
  { intros a w0 w0' H. right.
    now apply (utils_answer_via_raises _ _ _ _ _ H). }
  intros Hrun. rewrite ghuploadcmd_any_unfold in Hrun.
  destruct (py_not (github_token w)); [exact (Hone _ _ _ Hrun)|].
  destruct (Qlt_bool _ 10); [exact (Hone _ _ _ Hrun)|].
  cbv zeta in Hrun.
  destruct (tg_get_reply tg) as [e0|].
  { injection Hrun as -> _. now left. }
  destruct (attachment_check message) as [a|file];
    [exact (Hone _ _ _ Hrun)|].
  destruct (tg_answer tg _ uploading) as [e0|] eqn:E.
  { injection Hrun as -> _. right. eauto. }
  unfold try_except in Hrun.
  destruct (upload_body_any net tg fuel file _) as [[[]|e0|] w3];
    [discriminate | exact (Hone _ _ _ Hrun) | discriminate].
Qed.

(** X18: what the upload command answers, whatever the network answers
    and whatever Telegram does with its calls.  The command never
    changes the active token.  It raises only an exception that a call of
    Telegram raised, [get_reply_message] or [utils.answer]: no failure of
    the network or of the download leaves the command.  When it returns,
    it has sent exactly one of: the no-token help, the rate-limit message,
    the no-file or the too-large message, or [uploading] followed by one
    success or one failure message.  In every run, also one that raises or
    does not finish, what it has sent is the beginning of one of these; a
    run that does not finish has sent [uploading]. *)
Theorem ghuploadcmd_any_answers (net : list Request -> Request -> Attempt)
  (tg : Telegram) (fuel : nat) (message : Message) (w : World) :
  let r := fst (ghuploadcmd_any net tg fuel message w) in
  let w' := snd (ghuploadcmd_any net tg fuel message w) in
  github_token w' = github_token w
  /\ (forall e,
      r = Raise e ->
      tg_get_reply tg = Some e \/ exists log a, tg_answer tg log a = Some e)
  /\ exists l,
      answers w' = answers w ++ l
      /\ (exists shape k, upload_answers w shape /\ shape = l ++ k)
      /\ (r = Ret tt -> upload_answers w l)
      /\ (r = Diverge -> l = [uploading]).
Proof.
  cbv zeta.
  destruct (ghuploadcmd_any net tg fuel message w) as [r w'] eqn:E.
  destruct (ghuploadcmd_any_cases net tg fuel message w w' r E) as [Ht Hl].
  cbn [fst snd]. split; [exact Ht|]. split; [|exact Hl].
  intros e ->. exact (ghuploadcmd_any_raises net tg fuel message w w' e E).
Qed.

(** ** The general definitions on the attempts of [Outcome] *)

(** On the network of a world's [remote] and with every call of Telegram
    succeeding, the general definitions are the ones above. *)
Lemma make_github_request_any_net_of (method endpoint : str)
  (data : option dict) (w w0 : World) :
  remote w0 = remote w ->
  _make_github_request_any (net_of w) method endpoint data w0
  = (as_json (fst (_make_github_request method endpoint data w0)),
     snd (_make_github_request method endpoint data w0)).
Proof.
  intros Hr. unfold net_of. rewrite <- Hr.
  apply make_github_request_any_outcome.
Qed.

Lemma bind_net_of {A B} (m m' : M A) (k k' : A -> M B) (w w0 : World) :
  remote w0 = remote w ->
  quiet_m m' ->
  m w0 = m' w0 ->
  (forall a w1, remote w1 = remote w -> k a w1 = k' a w1) ->
  bind m k w0 = bind m' k' w0.
Proof.
  intros Hr Hq Hm Hk. unfold bind. rewrite Hm. specialize (Hq w0).
  destruct (m' w0) as [[a|e|] w1]; try reflexivity.
  apply Hk. destruct Hq as (_ & _ & _ & _ & Hq & _). cbn [snd] in Hq.
  congruence.
Qed.

Lemma bind_net_of_json {B} (m : M Json) (m' : M dict) (k : M B)
  (w w0 : World) :
  remote w0 = remote w ->
  m w0 = (as_json (fst (m' w0)), snd (m' w0)) ->
  bind m (fun _ => k) w0 = bind m' (fun _ => k) w0.
Proof.
  intros Hr Hm. unfold bind. rewrite Hm.
  destruct (m' w0) as [[a|e|] w1]; reflexivity.
Qed.

Lemma try_request_net_of {B} (method endpoint : str) (data : option dict)
  (f : Json -> B) (g : dict -> B) (b : B) (w w0 : World) :
  remote w0 = remote w ->
  (forall result, f (JDict result) = g result) ->
  try_except
    (let* x := _make_github_request_any (net_of w) method endpoint data in
     ret (f x))
    (fun _ => ret b) w0
  = try_except
      (let* x := _make_github_request method endpoint data in ret (g x))
      (fun _ => ret b) w0.
Proof.
  intros Hr Hf. unfold try_except, bind.
  rewrite (make_github_request_any_net_of _ _ _ _ _ Hr).
  destruct (_make_github_request method endpoint data w0) as [[x|e|] w1];
    cbn [as_json fst snd ret]; [now rewrite Hf|reflexivity..].
Qed.

Lemma get_github_username_any_net_of (w w0 : World) :
  remote w0 = remote w ->
  _get_github_username_any (net_of w) w0 = _get_github_username w0.
Proof.
  intros Hr. unfold _get_github_username_any, _get_github_username,
    try_except, bind.
  rewrite (make_github_request_any_net_of _ _ _ _ _ Hr).
  destruct (_make_github_request _ _ _ w0) as [[x|e|] w1]; reflexivity.
Qed.

Lemma repository_exists_any_net_of (username repo_name : str)
  (w w0 : World) :
  remote w0 = remote w ->
  _repository_exists_any (net_of w) username repo_name w0
  = _repository_exists username repo_name w0.
Proof.
  intros Hr. unfold _repository_exists_any, _repository_exists.
  now apply (try_request_net_of _ _ _ (fun _ => true) (fun _ => true)).
Qed.

Lemma unique_filename_loop_any_net_of (fuel : nat)
  (username repo_name name ext : str) (counter : Z) (current : str)
  (w w0 : World) :
  remote w0 = remote w ->
  unique_filename_loop_any (net_of w) fuel username repo_name name ext
    counter current w0
  = unique_filename_loop fuel username repo_name name ext counter current w0.
Proof.
  revert counter current w0.
  induction fuel as [|fuel IH]; intros counter current w0 Hr;
    [reflexivity|].
  cbn [unique_filename_loop_any unique_filename_loop].
  apply (bind_net_of _ _ _ _ w w0 Hr).
  - repeat qm_step.
  - now apply (try_request_net_of _ _ _ (fun _ => true) (fun _ => true)).
  - intros [] w1 Hr1; [now apply IH | reflexivity].
Qed.

Lemma get_unique_filename_any_net_of (fuel : nat)
  (username repo_name filename : str) (w w0 : World) :
  remote w0 = remote w ->
  _get_unique_filename_any (net_of w) fuel username repo_name filename w0
  = _get_unique_filename fuel username repo_name filename w0.
Proof.
  intros Hr. unfold _get_unique_filename_any, _get_unique_filename.
  destruct (splitext filename) as [name ext].
  now apply unique_filename_loop_any_net_of.
Qed.

Lemma create_repository_any_net_of (repo_name : str) (w w0 : World) :
  remote w0 = remote w ->
  _create_repository_any (net_of w) repo_name w0
  = (as_json (fst (_create_repository repo_name w0)),
     snd (_create_repository repo_name w0)).
Proof.
  intros Hr. unfold _create_repository_any, _create_repository. cbv zeta.
  now apply make_github_request_any_net_of.
Qed.

Lemma upload_file_any_net_of (username repo_name filename content_b64 : str)
  (w w0 : World) :
  remote w0 = remote w ->
  _upload_file_any (net_of w) username repo_name filename content_b64 w0
  = (as_json
       (fst (_upload_file username repo_name filename content_b64 w0)),
     snd (_upload_file username repo_name filename content_b64 w0)).
Proof.
  intros Hr. unfold _upload_file_any, _upload_file.
  set (probe := try_except _ _).
  set (probe' := try_except _ _).
  assert (Hp : probe w0 = probe' w0).
  { subst probe probe'.
    now apply (try_request_net_of _ _ _
                 (fun x => (true, sha_or_none x))
                 (fun d => (true, default JNull (dict_get (u "sha") d)))). }
  assert (Hq : quiet_m probe') by (subst probe'; repeat qm_step).
  unfold bind. rewrite Hp. specialize (Hq w0).
  destruct (probe' w0) as [[[file_exists existing_sha]|e|] w1];
    try reflexivity.
  cbv zeta. apply make_github_request_any_net_of.
  destruct Hq as (_ & _ & _ & _ & Hq & _). cbn [snd] in Hq. congruence.
Qed.

Lemma upload_body_any_net_of (fuel : nat) (file : File) (w w0 : World) :
  remote w0 = remote w ->
  upload_body_any (net_of w) obliging fuel file w0
  = upload_body fuel file w0.
Proof.
  intros Hr. unfold upload_body_any, upload_body. cbv zeta.
  unfold download_media_via. cbn [tg_download obliging]. rewrite bind_ret.
  apply (bind_net_of _ _ _ _ w w0 Hr);
    [destruct (file_name file) as [[|c n]|]; repeat qm_step|reflexivity|].
  intros filename w1 Hr1.
  apply (bind_net_of _ _ _ _ w w1 Hr1); [auto with qm|reflexivity|].
  intros now w2 Hr2.
  destruct (py_not _); [reflexivity|].
  apply (bind_net_of _ _ _ _ w w2 Hr2); [auto with qm| |].
  { now apply get_github_username_any_net_of. }
  intros login w3 Hr3.
  apply (bind_net_of _ _ _ _ w w3 Hr3); [auto with qm|reflexivity|].
  intros repo_name w4 Hr4.
  apply (bind_net_of _ _ _ _ w w4 Hr4); [auto with qm| |].
  { now apply repository_exists_any_net_of. }
  intros repo_exists w5 Hr5.
  apply (bind_net_of _ _ _ _ w w5 Hr5); [apply qm_ensure_repository| |].
  { destruct repo_exists; [reflexivity|]. cbn [negb].
    apply (bind_net_of_json _ _ _ w w5 Hr5).
    now apply create_repository_any_net_of. }
  intros [] w6 Hr6.
  apply (bind_net_of _ _ _ _ w w6 Hr6); [auto with qm| |].
  { now apply get_unique_filename_any_net_of. }
  intros unique w7 Hr7.
  apply (bind_net_of_json _ _ _ w w7 Hr7).
  now apply upload_file_any_net_of.
Qed.

(** On the network that [remote] describes, and with every call of
    Telegram succeeding, the general commands are [ghsetcmd] and
    [ghuploadcmd]. *)
Lemma ghsetcmd_any_net_of (message : Message) (w : World) :
  ghsetcmd_any (net_of w) obliging message w = ghsetcmd message w.
Proof.
  unfold ghsetcmd_any, ghsetcmd.
  destruct (py_not (args_raw message)); [reflexivity|].
  cbv [bind config_get config_set try_except]. cbv zeta.
  rewrite (get_github_username_any_net_of w); reflexivity.
Qed.

Lemma ghuploadcmd_any_net_of (fuel : nat) (message : Message) (w : World) :
  ghuploadcmd_any (net_of w) obliging fuel message w
  = ghuploadcmd fuel message w.
Proof.
  rewrite ghuploadcmd_any_unfold, ghuploadcmd_unfold.
  destruct (py_not (github_token w)); [reflexivity|].
  destruct (Qlt_bool _ 10); [reflexivity|].
  cbv zeta. cbn [tg_get_reply tg_answer obliging delivering].
  destruct (attachment_check message) as [a|file]; [reflexivity|].
  unfold try_except. rewrite (upload_body_any_net_of fuel file w);
    reflexivity.
Qed.

End Uploader.

(** * The theorems at concrete inputs *)

Lemma check_rate_limit_spec_witness :
  let stored (now : Q) :=
    set_last_upload {[7 := 100%Q]} (example_world now unreachable_remote) in
  _check_rate_limit 7 (stored 105%Q) = (Ret false, stored 105%Q)
  /\ _check_rate_limit 7 (stored 110%Q)
     = (Ret true,
        set_last_upload (<[7 := 110%Q]> {[7 := 100%Q]}) (stored 110%Q))
  /\ fst (_check_rate_limit 7 (example_world 1700000000%Q unreachable_remote))
     = Ret true.
Proof.
  intros stored. split; [|split].
  - destruct (check_rate_limit_spec 7 (stored 105%Q)) as (H & _).
    apply (H 100%Q); reflexivity.
  - destruct (check_rate_limit_spec 7 (stored 110%Q)) as (_ & H & _).
    apply (H 100%Q); [reflexivity|]. simpl. lra.
  - destruct (check_rate_limit_spec 7
                (example_world 1700000000%Q unreachable_remote))
      as (_ & _ & H & _).
    rewrite H; [reflexivity|reflexivity|]. simpl. lra.
Defined.

Lemma get_unique_filename_first_free_witness :
  let files : gset (list N) := {[u "a.txt"; u "a_1.txt"]} in
  let w :=
    example_world 1700000000%Q
      (contents_remote (u "octocat") (u "git-42-files") files) in
  fst (_get_unique_filename json_str ascii_lower 5
         (u "octocat") (u "git-42-files") (u "a.txt") w)
  = Ret (u "a_2.txt").
Proof.
  intros files w.
  destruct (get_unique_filename_first_free json_str ascii_lower
              (u "octocat") (u "git-42-files") files 5 w eq_refl)
    as [_ H].
  apply H.
  - apply (bool_decide_unpack _). vm_compute. exact I.
  - apply (bool_decide_unpack _). vm_compute. exact I.
  - apply (bool_decide_unpack _). vm_compute. exact I.
  - lia.
Defined.

Lemma ghuploadcmd_too_large_witness :
  let w := example_world 1700000000%Q unreachable_remote in
  let r :=
    ghuploadcmd json_str ascii_lower 5
      (example_upload (150 * 1024 * 1024)) w in
  requests (snd r) = [] /\ fst r = Ret tt /\ answers (snd r) = [file_too_large].
Proof.
  intros w r.
  destruct (ghuploadcmd_too_large json_str ascii_lower 5
              (example_upload (150 * 1024 * 1024))
              (mkReply (Some (mkFile (Some (u "report final.pdf"))
                                (150 * 1024 * 1024) [])))
              (mkFile (Some (u "report final.pdf")) (150 * 1024 * 1024) [])
              w eq_refl eq_refl)
    as [Hreq Hans].
  - reflexivity.
  - split; [exact Hreq|]. apply Hans.
    + discriminate.
    + vm_compute. discriminate.
Defined.

Lemma rejected_upload_consumes_cooldown_witness :
  let w := example_world 1700000000%Q unreachable_remote in
  let w' :=
    snd (ghuploadcmd json_str ascii_lower 5 (mkMessage 7 [] None) w) in
  let w'' :=
    snd (ghuploadcmd json_str ascii_lower 5 (example_upload 2000000)
           (set_clock 1700000004%Q w')) in
  answers w' = [no_file]
  /\ _last_upload w' !! 7 = Some 1700000000%Q
  /\ answers w'' = [no_file; rate_limit]
  /\ requests w'' = [].
Proof.
  intros w w' w''.
  destruct (rejected_upload_consumes_cooldown json_str ascii_lower 5
              (mkMessage 7 [] None) no_file w)
    as (_ & Hans & Hreq & Hlast & Hnext).
  - discriminate.
  - vm_compute. discriminate.
  - reflexivity.
  - split; [exact Hans|]. split; [exact Hlast|].
    destruct (Hnext 5%nat (example_upload 2000000) 1700000004%Q)
      as (Hans2 & Hreq2 & _).
    + reflexivity.
    + reflexivity.
    + fold w' in Hans2, Hreq2. fold w'' in Hans2, Hreq2.
      split.
      * rewrite Hans2. fold w' in Hans. now rewrite Hans.
      * rewrite Hreq2. exact Hreq.
Defined.

(** * The further properties at concrete inputs *)

Lemma get_repo_name_injective_witness :
  fst (_get_repo_name (example_world 1700000000%Q unreachable_remote))
  = Ret (u "git-42-files")
  /\ me_id (example_world 1700000000%Q unreachable_remote)
     = me_id (example_world 1800000000%Q accepting_remote).
Proof.
  destruct (get_repo_name_injective
              (example_world 1700000000%Q unreachable_remote)
              (example_world 1800000000%Q accepting_remote)) as [H1 H2].
  split; [now rewrite H1 | apply H2; reflexivity].
Defined.

Lemma sanitize_fixed_witness :
  _sanitize_filename 1700000000 (u "report-2024_v2.pdf")
  = u "report-2024_v2.pdf".
Proof.
  apply sanitize_fixed.
  - discriminate.
  - apply Forall_forall. intros c Hc.
    apply (bool_decide_unpack _).
    revert c Hc. apply Forall_forall. vm_compute.
    repeat constructor.
  - reflexivity.
Defined.

Lemma candidate_injective_witness :
  fst (splitext (u "a.tar.gz")) ++ snd (splitext (u "a.tar.gz"))
  = u "a.tar.gz"
  /\ 2%nat = 2%nat.
Proof.
  destruct (candidate_injective (u "a.tar.gz") 2 2) as [H1 H2].
  split; [exact H1 | apply H2; reflexivity].
Defined.

Lemma make_github_request_returns_iff_witness :
  fst (_make_github_request json_str ascii_lower (u "GET") (u "/user") None
         (example_world 1700000000%Q accepting_remote))
  = Ret [(u "login", JStr (u "octocat"))]
  /\ outcome_fails
       (unreachable_remote []
          (github_request (u "ghp_old") (u "GET") (u "/user") None)) = true.
Proof.
  split.
  - destruct (make_github_request_returns_iff json_str ascii_lower
                (u "GET") (u "/user") None
                (example_world 1700000000%Q accepting_remote)
                [(u "login", JStr (u "octocat"))]) as ([_ H] & _).
    apply H. exists 200. split; [reflexivity | lia].
  - destruct (make_github_request_returns_iff json_str ascii_lower
                (u "GET") (u "/user") None
                (example_world 1700000000%Q unreachable_remote)
                []) as (_ & [H _] & _).
    apply H. eexists. reflexivity.
Defined.

Lemma get_github_username_cases_witness :
  _get_github_username json_str ascii_lower
    (example_world 1700000000%Q accepting_remote)
  = (Ret (JStr (u "octocat")),
     set_requests
       [github_request (u "ghp_old") (u "GET") (u "/user") None]
       (example_world 1700000000%Q accepting_remote))
  /\ fst (_get_github_username json_str ascii_lower
            (example_world 1700000000%Q failing_remote))
     = Raise (Exception (JStr (u "Failed to get username: HTTP 500"))).
Proof.
  split.
  - destruct (get_github_username_cases json_str ascii_lower
                (example_world 1700000000%Q accepting_remote)) as (H & _).
    apply (H 200 [(u "login", JStr (u "octocat"))]);
      [reflexivity | lia | reflexivity].
  - destruct (get_github_username_cases json_str ascii_lower
                (example_world 1700000000%Q failing_remote))
      as (_ & _ & H & _).
    destruct H as (e & He & Hu); [reflexivity|].
    rewrite Hu. cbn [fst].
    vm_compute in He. injection He as <-. reflexivity.
Defined.

Lemma get_unique_filename_sound_witness :
  let files : gset (list N) := {[u "a.txt"; u "a_1.txt"]} in
  let w :=
    example_world 1700000000%Q
      (contents_remote (u "octocat") (u "git-42-files") files) in
  u "a_2.txt" ∉ files.
Proof.
  intros files w.
  destruct (get_unique_filename_sound json_str ascii_lower
              (u "octocat") (u "git-42-files") files (u "a.txt") 5 w eq_refl)
    as [_ H].
  destruct (H (u "a_2.txt")) as [Hfree _]; [vm_compute; reflexivity|].
  exact Hfree.
Defined.

Lemma get_unique_filename_diverges_witness :
  let files : gset (list N) := {[u "a.txt"; u "a_1.txt"]} in
  let w :=
    example_world 1700000000%Q
      (contents_remote (u "octocat") (u "git-42-files") files) in
  fst (_get_unique_filename json_str ascii_lower 2
         (u "octocat") (u "git-42-files") (u "a.txt") w)
  = Diverge.
Proof.
  intros files w.
  rewrite (get_unique_filename_diverges json_str ascii_lower
             (u "octocat") (u "git-42-files") files (u "a.txt") 2 w eq_refl).
  - reflexivity.
  - intros k Hk. assert (Hc : k = 0%nat \/ k = 1%nat) by lia.
    destruct Hc as [-> | ->]; apply (bool_decide_unpack _); vm_compute;
      exact I.
Defined.

Lemma get_unique_filename_probes_witness :
  let files : gset (list N) := {[u "a.txt"; u "a_1.txt"]} in
  let w :=
    example_world 1700000000%Q
      (contents_remote (u "octocat") (u "git-42-files") files) in
  length
    (requests
       (snd (_get_unique_filename json_str ascii_lower 5
               (u "octocat") (u "git-42-files") (u "a.txt") w)))
  = 3%nat.
Proof.
  intros files w.
  destruct (get_unique_filename_probes json_str ascii_lower
              (u "octocat") (u "git-42-files") files (u "a.txt") 5 2 w eq_refl)
    as [H _].
  - intros i Hi. assert (Hc : i = 0%nat \/ i = 1%nat) by lia.
    destruct Hc as [-> | ->]; apply (bool_decide_unpack _); vm_compute;
      exact I.
  - apply (bool_decide_unpack _). vm_compute. exact I.
  - lia.
  - rewrite H. reflexivity.
Defined.

Lemma get_unique_filename_failure_is_free_witness :
  fst (_get_unique_filename json_str ascii_lower 5
         (u "octocat") (u "git-42-files") (u "a.txt")
         (example_world 1700000000%Q throttling_remote))
  = Ret (u "a.txt").
Proof.
  rewrite (get_unique_filename_failure_is_free json_str ascii_lower
             (u "octocat") (u "git-42-files") (u "a.txt") 5
             (example_world 1700000000%Q throttling_remote)).
  - reflexivity.
  - lia.
  - reflexivity.
Defined.

Lemma upload_file_requests_witness :
  let w := example_world 1700000000%Q accepting_remote in
  map req_method
    (requests
       (snd (_upload_file json_str ascii_lower (u "octocat")
               (u "git-42-files") (u "a.txt") (u "TWFu") w)))
  = [u "GET"; u "PUT"]
  /\ map req_method
       (requests
          (snd (_upload_file json_str ascii_lower (u "octocat")
                  (u "git-42-files") (u "a.txt") (u "TWFu")
                  (example_world 1700000000%Q
                     (contents_remote (u "octocat") (u "git-42-files")
                        {[u "a.txt"]})))))
     = [u "GET"; u "PUT"].
Proof.
  intros w. split.
  - destruct (upload_file_requests json_str ascii_lower (u "octocat")
                (u "git-42-files") (u "a.txt") (u "TWFu") w) as [H _].
    destruct H as [_ H]; [reflexivity|]. rewrite H. reflexivity.
  - destruct (upload_file_requests json_str ascii_lower (u "octocat")
                (u "git-42-files") (u "a.txt") (u "TWFu")
                (example_world 1700000000%Q
                   (contents_remote (u "octocat") (u "git-42-files")
                      {[u "a.txt"]}))) as [_ H].
    destruct (H 200 [(u "name", JStr (u "a.txt")); (u "sha", JStr (u "0"))])
      as [_ Hlog]; [vm_compute; reflexivity | lia |].
    rewrite Hlog. reflexivity.
Defined.

Lemma check_rate_limit_frame_witness :
  let w :=
    set_last_upload {[7 := 100%Q; 8 := 50%Q]}
      (example_world 1700000000%Q unreachable_remote) in
  _last_upload (snd (_check_rate_limit 7 w)) !! 8 = Some 50%Q
  /\ is_Some (_last_upload (snd (_check_rate_limit 7 w)) !! 7).
Proof.
  intros w.
  destruct (check_rate_limit_frame 7 w) as (H1 & H2 & _).
  split.
  - rewrite H1; [reflexivity | lia].
  - apply H2. exists 100%Q. reflexivity.
Defined.

Lemma accepted_requests_are_spaced_witness :
  let w :=
    set_last_upload {[7 := 100%Q]} (example_world 130%Q unreachable_remote) in
  fst (_check_rate_limit 7 w) = Ret true
  /\ (10 <= 130 - 100)%Q.
Proof.
  intros w.
  destruct (accepted_requests_are_spaced 7 w) as ([_ H1] & _ & H3).
  assert (Hacc : fst (_check_rate_limit 7 w) = Ret true).
  { apply H1. vm_compute. discriminate. }
  split; [exact Hacc|].
  destruct (H3 Hacc) as [_ Hsp]. exact Hsp.
Defined.

Lemma ghuploadcmd_early_rejections_witness :
  let w := example_world 1700000000%Q accepting_remote in
  ghuploadcmd json_str ascii_lower 5 (example_upload 2000000)
    (set_github_token [] w)
  = (Ret tt, set_answers [no_token (u ".")] (set_github_token [] w))
  /\ ghuploadcmd json_str ascii_lower 5 (example_upload 2000000)
       (set_last_upload {[7 := 1699999995%Q]} w)
     = (Ret tt,
        set_answers [rate_limit] (set_last_upload {[7 := 1699999995%Q]} w)).
Proof.
  intros w. split.
  - destruct (ghuploadcmd_early_rejections json_str ascii_lower 5
                (example_upload 2000000) (set_github_token [] w)) as [H _].
    apply H. reflexivity.
  - destruct (ghuploadcmd_early_rejections json_str ascii_lower 5
                (example_upload 2000000)
                (set_last_upload {[7 := 1699999995%Q]} w)) as [_ H].
    apply H; [discriminate | reflexivity].
Defined.

Lemma upload_success_after_put_witness :
  let w := example_world 1700000000%Q accepting_remote in
  let w' := snd (ghuploadcmd json_str ascii_lower 5 example_upload_man w) in
  let put :=
    github_request (u "ghp_old") (u "PUT")
      (u "/repos/octocat/git-42-files/contents/report*final.pdf")
      (Some [(u "message", JStr (u "Upload report*final.pdf"));
             (u "content", JStr (u "TWFu"));
             (u "branch", JStr (u "main"))]) in
  exists login log status res,
    fst (_get_github_username json_str ascii_lower w) = Ret login
    /\ login = JStr (u "octocat")
    /\ requests w' = log ++ [put]
    /\ remote w log put = Response status res
    /\ status < 400.
Proof.
  intros w w' put.
  destruct (upload_success_after_put json_str ascii_lower 5
              example_upload_man w (u "report*final.pdf")
              (u "https://raw.githubusercontent.com/octocat/git-42-files/main/report*final.pdf"))
    as (file & login & data & log & status & res
        & Hc & Hlogin & _ & Hd & Hlog & Hrem & Hs).
  - vm_compute. reflexivity.
  - assert (Hl : login = JStr (u "octocat")).
    { vm_compute in Hlogin. now injection Hlogin as <-. }
    subst login.
    assert (Hput :
      github_request (github_token w) (u "PUT")
        (contents_endpoint (fmt json_str (JStr (u "octocat")))
           (u "git-" ++ str_of_int (me_id w) ++ u "-files")
           (u "report*final.pdf")) (Some data) = put).
    { fold w' in Hlog.
      assert (Hlast : last (requests w') = Some put)
        by (vm_compute; reflexivity).
      rewrite Hlog, last_snoc in Hlast. exact (inj Some _ _ Hlast). }
    rewrite Hput in Hlog, Hrem.
    exists (JStr (u "octocat")), log, status, res. now repeat split.
Defined.

Lemma ghuploadcmd_username_failure_witness :
  let w := example_world 1700000000%Q unreachable_remote in
  requests
    (snd (ghuploadcmd json_str ascii_lower 5 (example_upload 2000000) w))
  = [github_request (u "ghp_old") (u "GET") (u "/user") None].
Proof.
  intros w.
  destruct (ghuploadcmd_username_failure json_str ascii_lower 5
              (example_upload 2000000)
              (mkFile (Some (u "report final.pdf")) 2000000 []) w)
    as [H _].
  - discriminate.
  - vm_compute. discriminate.
  - reflexivity.
  - reflexivity.
  - exact H.
Defined.

Lemma resolved_name_is_created_witness :
  let files : gset (list N) := {[u "a.txt"]} in
  let w :=
    example_world 1700000000%Q
      (contents_remote (u "octocat") (u "git-42-files") files) in
  let w1 :=
    snd (_get_unique_filename json_str ascii_lower 5
           (u "octocat") (u "git-42-files") (u "a.txt") w) in
  map req_method
    (requests
       (snd (_upload_file json_str ascii_lower (u "octocat")
               (u "git-42-files") (u "a_1.txt") (u "TWFu") w1)))
  = [u "GET"; u "GET"; u "GET"; u "PUT"].
Proof.
  intros files w w1.
  rewrite (resolved_name_is_created json_str ascii_lower
             (u "octocat") (u "git-42-files") files (u "a.txt") (u "TWFu")
             5 w w1 (u "a_1.txt") eq_refl).
  - vm_compute. reflexivity.
  - vm_compute. reflexivity.
Defined.

Lemma ghuploadcmd_rate_state_witness :
  let w := example_world 1700000000%Q unreachable_remote in
  _last_upload
    (snd (ghuploadcmd json_str ascii_lower 5 (example_upload 2000000) w))
  = {[7 := 1700000000%Q]}.
Proof.
  intros w.
  destruct (ghuploadcmd_rate_state json_str ascii_lower 5
              (example_upload 2000000) w) as (_ & _ & H).
  rewrite H.
  - reflexivity.
  - discriminate.
  - vm_compute. discriminate.
Defined.

Lemma existing_repository_is_not_created_witness :
  let w := example_world 1700000000%Q (token_remote (u "ghp_old")) in
  exists l,
    requests
      (snd (ghuploadcmd json_str ascii_lower 5 (example_upload 2000000) w))
    = requests w
      ++ [github_request (u "ghp_old") (u "GET") (u "/user") None;
          github_request (u "ghp_old") (u "GET")
            (u "/repos/octocat/git-42-files") None]
      ++ l
    /\ Forall (fun req => req_method req <> u "POST") l.
Proof.
  intros w.
  apply (existing_repository_is_not_created json_str ascii_lower 5
           (example_upload 2000000)
           (mkFile (Some (u "report final.pdf")) 2000000 []) w
           200 [(u "login", JStr (u "octocat"))] (JStr (u "octocat"))).
  - discriminate.
  - vm_compute. discriminate.
  - reflexivity.
  - reflexivity.
  - lia.
  - reflexivity.
  - reflexivity.
Defined.

Lemma failed_creation_aborts_witness :
  let w := example_world 1700000000%Q readonly_remote in
  let w' :=
    snd (ghuploadcmd json_str ascii_lower 5 (example_upload 2000000) w) in
  map req_method (requests w') = [u "GET"; u "GET"; u "POST"]
  /\ clock w' = clock w
  /\ answers w' = [uploading; upload_error (u "Resource not accessible")].
Proof.
  intros w w'.
  destruct (failed_creation_aborts json_str ascii_lower 5
              (example_upload 2000000)
              (mkFile (Some (u "report final.pdf")) 2000000 []) w
              200 [(u "login", JStr (u "octocat"))] (JStr (u "octocat")))
    as (Hreq & Hclock & text & Hans).
  - discriminate.
  - vm_compute. discriminate.
  - reflexivity.
  - reflexivity.
  - lia.
  - reflexivity.
  - reflexivity.
  - reflexivity.
  - fold w' in Hreq, Hclock, Hans.
    split; [now rewrite Hreq|]. split; [exact Hclock|].
    vm_compute. reflexivity.
Defined.

Lemma ghuploadcmd_size_limit_inclusive_witness :
  exists l,
    answers
      (snd (ghuploadcmd json_str ascii_lower 5 (example_upload 104857600)
              (example_world 1700000000%Q unreachable_remote)))
    = uploading :: l.
Proof.
  apply (ghuploadcmd_size_limit_inclusive json_str ascii_lower 5
           (example_upload 104857600)
           (mkReply (Some (mkFile (Some (u "report final.pdf")) 104857600 [])))
           (mkFile (Some (u "report final.pdf")) 104857600 [])
           (example_world 1700000000%Q unreachable_remote)).
  - reflexivity.
  - reflexivity.
  - simpl. lia.
  - discriminate.
  - vm_compute. discriminate.
Defined.

(** * The general network and Telegram at concrete inputs *)

(** C5: the token command discards a candidate that the identity lookup
    has accepted when the [token_set] answer raises.  The candidate
    [ghp_new] is valid for the remote, the lookup returns the account, and
    the command still ends with the old token [ghp_old] active and the
    invalid-token message as its only answer. *)
Theorem ghsetcmd_discards_validated_token :
  let w := example_world 1700000000%Q (token_remote (u "ghp_new")) in
  let message := mkMessage 7 (u "ghp_new") None in
  let run :=
    ghsetcmd_any json_str ascii_lower getitem_error (net_of w)
      telegram_without_token_set message w in
  fst (_get_github_username_any json_str ascii_lower getitem_error
         (net_of w) (set_github_token (u "ghp_new") w))
  = Ret (JStr (u "octocat"))
  /\ fst run = Ret tt
  /\ github_token (snd run) = u "ghp_old"
  /\ answers (snd run) = [invalid_token].
Proof. vm_compute. repeat split. Qed.

(** A response with status 404 and an empty JSON array as its body is not
    reported as a failure carrying a message or [HTTP 404]: the call ends
    in an [AttributeError].  A timeout of the attempt, which is no
    [aiohttp.ClientError], is not reported as a network error either. *)
Lemma make_github_request_unreported_failures :
  let w := example_world 1700000000%Q unreachable_remote in
  let r :=
    fst (_make_github_request_any json_str ascii_lower array_404_net
           (u "GET") (u "/repos/octocat/git-42-files") None w) in
  let t :=
    fst (_make_github_request_any json_str ascii_lower timeout_net
           (u "GET") (u "/user") None w) in
  r = Raise (AttributeError (u "'list' object has no attribute 'get'"))
  /\ r <> Raise (Exception (JStr (u "HTTP 404")))
  /\ (forall arg, r <> Raise (Exception arg))
  /\ t = Raise (TimeoutError (u "timed out"))
  /\ (forall arg, t <> Raise (Exception arg)).
Proof.
  intros w r t.
  assert (Hr : r = Raise (AttributeError
                            (u "'list' object has no attribute 'get'")))
    by (vm_compute; reflexivity).
  assert (Ht : t = Raise (TimeoutError (u "timed out")))
    by (vm_compute; reflexivity).
  rewrite Hr, Ht. repeat split; try discriminate; intros arg; discriminate.
Qed.

Lemma make_github_request_any_failures_witness :
  fst (_make_github_request_any json_str ascii_lower
         (net_of (example_world 1700000000%Q unreachable_remote))
         (u "GET") (u "/user") None
         (example_world 1700000000%Q unreachable_remote))
  = Raise (Exception (JStr (u "Network error: Cannot connect to host")))
  /\ fst (_make_github_request_any json_str ascii_lower
            (net_of (example_world 1700000000%Q throttling_remote))
            (u "GET") (u "/user") None
            (example_world 1700000000%Q throttling_remote))
     = Raise (Exception (JStr (u "Rate limit exceeded")))
  /\ fst (_make_github_request_any json_str ascii_lower
            (net_of (example_world 1700000000%Q (token_remote (u "ghp_new"))))
            (u "GET") (u "/user") None
            (example_world 1700000000%Q (token_remote (u "ghp_new"))))
     = Raise (Exception (JStr (u "Bad credentials")))
  /\ fst (_make_github_request_any json_str ascii_lower
            (net_of (example_world 1700000000%Q failing_remote))
            (u "GET") (u "/user") None
            (example_world 1700000000%Q failing_remote))
     = Raise (Exception (JStr (u "HTTP 500"))).
Proof.
  split; [|split; [|split]].
  - destruct (make_github_request_any_failures json_str ascii_lower
                (net_of (example_world 1700000000%Q unreachable_remote))
                (u "GET") (u "/user") None
                (example_world 1700000000%Q unreachable_remote))
      as (_ & H & _).
    apply (H (u "Cannot connect to host")). reflexivity.
  - destruct (make_github_request_any_failures json_str ascii_lower
                (net_of (example_world 1700000000%Q throttling_remote))
                (u "GET") (u "/user") None
                (example_world 1700000000%Q throttling_remote))
      as (_ & _ & H).
    destruct (H 403 (JDict [(u "message",
                             JStr (u "API rate limit exceeded"))]))
      as [Hlimit _]; [reflexivity|lia|].
    apply Hlimit. split; reflexivity.
  - destruct (make_github_request_any_failures json_str ascii_lower
                (net_of (example_world 1700000000%Q
                           (token_remote (u "ghp_new"))))
                (u "GET") (u "/user") None
                (example_world 1700000000%Q (token_remote (u "ghp_new"))))
      as (_ & _ & H).
    destruct (H 401 (JDict [(u "message", JStr (u "Bad credentials"))]))
      as [_ Hother]; [reflexivity|lia|].
    destruct (Hother (fun E => ltac:(destruct E; discriminate))
                [(u "message", JStr (u "Bad credentials"))] eq_refl)
      as [Hmsg _].
    apply Hmsg. reflexivity.
  - destruct (make_github_request_any_failures json_str ascii_lower
                (net_of (example_world 1700000000%Q failing_remote))
                (u "GET") (u "/user") None
                (example_world 1700000000%Q failing_remote))
      as (_ & _ & H).
    destruct (H 500 (JDict [])) as [_ Hother]; [reflexivity|lia|].
    destruct (Hother (fun E => ltac:(destruct E; discriminate)) [] eq_refl)
      as [_ Hnone].
    apply Hnone. reflexivity.
Defined.

Lemma ghsetcmd_any_effects_witness :
  let w := example_world 1700000000%Q (token_remote (u "ghp_new")) in
  let accepted :=
    snd (ghsetcmd_any json_str ascii_lower getitem_error (net_of w) obliging
           (mkMessage 7 (u " ghp_new ") None) w) in
  let undelivered :=
    snd (ghsetcmd_any json_str ascii_lower getitem_error (net_of w)
           telegram_without_token_set (mkMessage 7 (u " ghp_new ") None) w) in
  let refused :=
    snd (ghsetcmd_any json_str ascii_lower getitem_error (net_of w) obliging
           (mkMessage 7 (u "ghp_bad") None) w) in
  requests accepted
  = [github_request (u "ghp_new") (u "GET") (u "/user") None]
  /\ github_token accepted = u "ghp_new"
  /\ github_token undelivered = u "ghp_old"
  /\ github_token refused = u "ghp_old".
Proof.
  intros w accepted undelivered refused.
  split; [|split; [|split]].
  - destruct (ghsetcmd_any_effects json_str ascii_lower getitem_error
                (net_of w) obliging (mkMessage 7 (u " ghp_new ") None) w)
      as (_ & _ & _ & _ & _ & H).
    destruct H as [H _]; [discriminate|]. exact H.
  - destruct (ghsetcmd_any_effects json_str ascii_lower getitem_error
                (net_of w) obliging (mkMessage 7 (u " ghp_new ") None) w)
      as (_ & _ & _ & _ & _ & H).
    destruct H as (_ & _ & H & _); [discriminate|].
    destruct (H (JStr (u "octocat"))) as (_ & Ht & _);
      [reflexivity|reflexivity|].
    exact Ht.
  - destruct (ghsetcmd_any_effects json_str ascii_lower getitem_error
                (net_of w) telegram_without_token_set
                (mkMessage 7 (u " ghp_new ") None) w)
      as (_ & _ & _ & _ & _ & H).
    destruct H as (_ & _ & _ & H); [discriminate|].
    destruct (H (JStr (u "octocat"))
                (Exception (JStr (u "message was deleted"))))
      as [Ht _]; [reflexivity|reflexivity|].
    exact Ht.
  - destruct (ghsetcmd_any_effects json_str ascii_lower getitem_error
                (net_of w) obliging (mkMessage 7 (u "ghp_bad") None) w)
      as (_ & _ & _ & _ & _ & H).
    destruct H as (_ & H & _); [discriminate|].
    apply (H (Exception
                (JStr (u "Failed to get username: Bad credentials")))).
    reflexivity.
Defined.

Lemma ghuploadcmd_any_answers_witness :
  let w := example_world 1700000000%Q accepting_remote in
  let run :=
    ghuploadcmd_any json_str ascii_lower getitem_error array_404_net
      telegram_without_reply 5 example_upload_man w in
  fst run = Raise (Exception (JStr (u "message was deleted")))
  /\ github_token (snd run) = u "ghp_old"
  /\ answers (snd run) = [].
Proof.
  intros w run.
  destruct (ghuploadcmd_any_answers json_str ascii_lower getitem_error
              array_404_net telegram_without_reply 5 example_upload_man w)
    as (Ht & Hr & l & Hl & _).
  fold run in Ht, Hr, Hl.
  assert (E : fst run = Raise (Exception (JStr (u "message was deleted"))))
    by (vm_compute; reflexivity).
  split; [exact E|]. split; [exact Ht|].
  destruct (Hr _ E) as [_|_]; vm_compute; reflexivity.
Defined.
